(** * venus: command layer, in-memory repo, wallet backend and miner state API

    A shallow embedding of the Go sources
      - [cmd/chain.go]            ([chainStatusCmd], [chainSetHeadCmd]),
      - [pkg/repo/mem.go]         ([MemRepo.SetAPIToken]),
      - [pkg/wallet/dsbackend.go] ([DSBackend.NewAddress]),
      - the miner state API       ([StateVMCirculatingSupplyInternal],
                                   [StateMinerPreCommitDepositForPower]),
    followed by the properties the specification states about them.

    Go values are modelled as follows: [int], [abi.ChainEpoch] and big
    integers as [Z]; [string] as [string]; [[]byte] as [list Byte.byte] (a nil
    slice and an empty slice are both the empty list, the code only ever asks
    for [len]); an [error] interface value as [option string], [None] being
    [nil] and [Some msg] an error whose [Error()] is [msg]; a Go result pair
    [(v, err)] as a Rocq pair; a mutated receiver as explicit state passing. *)

From Stdlib Require Import ZArith String Ascii List Decimal DecimalString Lia Bool.
From stdpp Require Import base option list strings gmap.

Local Open Scope Z_scope.
Local Open Scope string_scope.

(** ** Go runtime and standard library helpers *)

Module Go.

(** Go's [error] interface. *)
Definition error := option string.

(** The line feed and tab characters of Go's ["\n"] and ["\t"]. *)
Definition nl : string := String (ascii_of_nat 10) EmptyString.
Definition tab : string := String (ascii_of_nat 9) EmptyString.

(** [strconv.Itoa], also what [%d] and [%v] print for an integer. *)
Definition Itoa (n : Z) : string := NilZero.string_of_int (Z.to_int n).

(** What [fmt] prints for an [error] operand under [%v]. *)
Definition fmtError (e : error) : string :=
  match e with
  | None => "<nil>"
  | Some msg => msg
  end.

(** The operands the modelled code hands to [fmt]: strings, integers
    ([int], [abi.ChainEpoch], [address.Protocol]) and [error] values. *)
Inductive Operand :=
| OString (s : string)
| OInt (n : Z)
| OError (e : error).

Definition fmtOperand (a : Operand) : string :=
  match a with
  | OString s => s
  | OInt n => Itoa n
  | OError e => fmtError e
  end.

(** [fmt.Sprintln]: the operands in their default formats, a space between
    any two of them, a newline at the end. *)
Fixpoint sepOperands (a : list Operand) : string :=
  match a with
  | [] => ""
  | [x] => fmtOperand x
  | x :: rest => fmtOperand x ++ " " ++ sepOperands rest
  end.

Definition Sprintln (a : list Operand) : string := sepOperands a ++ nl.

(** [xerrors.Errorf] and [errors.Errorf] on an already formatted message. *)
Definition Errorf (msg : string) : error := Some msg.

(** [errors.Wrapf(err, ...)]: the message, a colon and the cause. *)
Definition Wrapf (cause : string) (msg : string) : error :=
  Some (msg ++ ": " ++ cause).

(** [big.Int] of go-state-types: a struct around a [*big.Int]. Its zero
    value [big.Int{}] holds a nil pointer; every constructor yields a
    number. *)
Inductive BigInt :=
| BigNil
| Big (z : Z).

Definition bigNewInt (z : Z) : BigInt := Big z.
Definition bigZero : BigInt := Big 0.

(** [big.Mul]; on a nil operand the call panics, which is [None]. *)
Definition bigMul (a b : BigInt) : option BigInt :=
  match a, b with
  | Big x, Big y => Some (Big (x * y))
  | _, _ => None
  end.

(** [big.Div] is [math/big]'s [Div], Euclidean division: the remainder is
    never negative. It panics on a nil operand and on a zero divisor. *)
Definition bigDiv (a b : BigInt) : option BigInt :=
  match a, b with
  | Big x, Big y =>
      if Z.eqb y 0 then None
      else Some (Big (Z.sgn y * (x / Z.abs y)))
  | _, _ => None
  end.

(** [s] occurs in [t] as a contiguous run of characters. *)
Definition Contains (t s : string) : Prop :=
  exists pre post, t = pre ++ s ++ post.

End Go.

(** ** [pkg/repo/mem.go] *)

Module Repo.

Section MemRepo.

(** The configuration, datastore and keystore types come from other
    packages; [MemRepo] only holds them. *)
Variables Config Datastore Keystore : Type.

Record MemRepo := mkMemRepo {
  C : Config;
  D : Datastore;
  Ks : Keystore;
  W : Datastore;
  Chain : Datastore;
  Meta : Datastore;
  version : N;
  jsonrpcAddress : string;
  rustfulAddress : string;
  token : list Byte.byte
}.

Definition with_token (mr : MemRepo) (tok : list Byte.byte) : MemRepo :=
  {| C := C mr; D := D mr; Ks := Ks mr; W := W mr; Chain := Chain mr;
     Meta := Meta mr; version := version mr;
     jsonrpcAddress := jsonrpcAddress mr;
     rustfulAddress := rustfulAddress mr; token := tok |}.

(** [NewInMemoryRepo]: every field not listed in the composite literal has
    its zero value; [Version] and the constructors of the stores are
    declared elsewhere. *)
Definition NewInMemoryRepo (defaultConfig : Config) (newMap : Datastore)
    (newKeystore : Keystore) (Version : N) : MemRepo :=
  {| C := defaultConfig; D := newMap; Ks := newKeystore; W := newMap;
     Chain := newMap; Meta := newMap; version := Version;
     jsonrpcAddress := ""; rustfulAddress := ""; token := [] |}.

(** [func (mr *MemRepo) SetAPIToken(token []byte) error] *)
Definition SetAPIToken (mr : MemRepo) (tok : list Byte.byte)
    : MemRepo * Go.error :=
  if Z.eqb (Z.of_nat (length (token mr))) 0
  then (with_token mr tok, None)
  else (mr, None).

(** A sequence of calls on the same receiver, oldest first; the errors
    returned are collected in call order. *)
Fixpoint SetAPIToken_calls (mr : MemRepo) (toks : list (list Byte.byte))
    : MemRepo * list Go.error :=
  match toks with
  | [] => (mr, [])
  | tok :: rest =>
      let '(mr1, err) := SetAPIToken mr tok in
      let '(mr2, errs) := SetAPIToken_calls mr1 rest in
      (mr2, err :: errs)
  end.

(** The first non-empty token of a call sequence, empty when none is. *)
Fixpoint first_nonempty (toks : list (list Byte.byte)) : list Byte.byte :=
  match toks with
  | [] => []
  | [] :: rest => first_nonempty rest
  | tok :: _ => tok
  end.

End MemRepo.

Arguments token {Config Datastore Keystore} _.
Arguments SetAPIToken {Config Datastore Keystore} _ _.
Arguments SetAPIToken_calls {Config Datastore Keystore} _ _.
Arguments with_token {Config Datastore Keystore} _ _.

End Repo.

(** ** [cmd/chain.go] *)

Module Cmd.

(** Modelled from the spec: [syncTypes.SyncStateStage] is declared in
    [pkg/chainsync/types]; the stages are the five states of the Target
    state machine, [Idle -> Fetching -> Validating -> {Complete | Failed}].
    The command only ever compares a stage with [StageIdle]. *)
Inductive SyncStateStage :=
| StageIdle
| StageFetching
| StageValidating
| StageComplete
| StageFailed.

Definition SyncStateStage_eqb (a b : SyncStateStage) : bool :=
  match a, b with
  | StageIdle, StageIdle
  | StageFetching, StageFetching
  | StageValidating, StageValidating
  | StageComplete, StageComplete
  | StageFailed, StageFailed => true
  | _, _ => false
  end.

(** Modelled from the spec: [SilentWriter], [NewSilentWriter] and [Println]
    (the helper behind the SyncStatus text) are declared in another file of
    the package. The writer wraps the [bytes.Buffer] of the command,
    remembers the first write error and drops every later write; [Println]
    writes what [fmt.Fprintln] writes, and a write to a [bytes.Buffer]
    returns no error. *)
Record SilentWriter := mkSilentWriter {
  w : string;
  err : Go.error
}.

Definition NewSilentWriter (buf : string) : SilentWriter :=
  {| w := buf; err := None |}.

Definition Println (sw : SilentWriter) (a : list Go.Operand) : SilentWriter :=
  match err sw with
  | None => {| w := w sw ++ Go.Sprintln a; err := None |}
  | Some _ => sw
  end.

Section Status.

(** [*block.TipSet] with the two methods the command calls on it,
    [EnsureHeight()] and [Key().String()]. *)
Variable TipSet : Type.
Variable EnsureHeight : TipSet -> Z.
Variable KeyString : TipSet -> string.

(** [syncTypes.Target], the fields the command reads. [Head] comes from
    the embedded [ChainInfo]; [Current] is the only pointer the command
    tests against [nil]. *)
Record Target := mkTarget {
  State : SyncStateStage;
  Base : TipSet;
  Current : option TipSet;
  Err : Go.error;
  Head : TipSet
}.

(** What [SyncerTracker()] gives access to: [Buckets()], a slice, and
    [History()], a [container/list] walked from [Front()] by [Next()]. *)
Record TargetTracker := mkTracker {
  Buckets : list Target;
  History : list Target
}.

Import Go.

(** The body of [for index, t := range targets]. *)
Definition bucketBody (writer : SilentWriter) (index : Z) (t : Target)
    : SilentWriter :=
  let writer := Println writer [OString "SyncTarget:"; OString (Itoa (index + 1))] in
  let writer := Println writer
    [OString (tab ++ "Base:"); OInt (EnsureHeight (Base t)); OString (KeyString (Base t))] in
  let writer := Println writer
    [OString (tab ++ "Target:"); OInt (EnsureHeight (Head t)); OString (KeyString (Head t))] in
  let writer :=
    match Current t with
    | Some cur =>
        Println writer
          [OString (tab ++ "Current:"); OInt (EnsureHeight cur); OString (KeyString cur)]
    | None => Println writer [OString (tab ++ "Current:")]
    end in
  let writer :=
    if negb (SyncStateStage_eqb (State t) StageIdle)
    then Println writer [OString (tab ++ "Status:Syncing")]
    else Println writer [OString (tab ++ "Status:Wait")] in
  let writer := Println writer [OString (tab ++ "Err:"); OError (Err t)] in
  Println writer [].

Fixpoint bucketLoop (writer : SilentWriter) (index : Z) (targets : list Target)
    : SilentWriter :=
  match targets with
  | [] => writer
  | t :: rest => bucketLoop (bucketBody writer index t) (index + 1) rest
  end.

(** The body of the loop over [history]; it also advances [count]. *)
Definition historyBody (writer : SilentWriter) (count : Z) (t : Target)
    : SilentWriter * Z :=
  let writer := Println writer [OString "SyncTarget:"; OString (Itoa (count + 1))] in
  let writer := Println writer
    [OString (tab ++ "Base:"); OInt (EnsureHeight (Base t)); OString (KeyString (Base t))] in
  let writer := Println writer
    [OString (tab ++ "Target:"); OInt (EnsureHeight (Head t)); OString (KeyString (Head t))] in
  let writer :=
    match Current t with
    | Some cur =>
        Println writer
          [OString (tab ++ "Current:"); OInt (EnsureHeight cur); OString (KeyString cur)]
    | None => Println writer [OString (tab ++ "Current:")]
    end in
  let writer :=
    if negb (SyncStateStage_eqb (State t) StageIdle)
    then Println writer [OString (tab ++ "Status:Syncing")]
    else Println writer [OString (tab ++ "Status:Wait")] in
  let writer := Println writer [OString (tab ++ "Err:"); OError (Err t)] in
  let count := count + 1 in
  (Println writer [], count).

Fixpoint historyLoop (writer : SilentWriter) (count : Z) (history : list Target)
    : SilentWriter * Z :=
  match history with
  | [] => (writer, count)
  | t :: rest =>
      let '(writer, count) := historyBody writer count t in
      historyLoop writer count rest
  end.

(** [chainStatusCmd.Run]: the buffer handed to [re.Emit] and the error
    the command returns, which is the one [re.Emit] returns. *)
Definition chainStatusCmd_Run (tracker : TargetTracker)
    (Emit : string -> Go.error) : string * Go.error :=
  let targets := Buckets tracker in
  let writer := NewSilentWriter "" in
  let writer := bucketLoop writer 0 targets in
  let history := History tracker in
  let count := Z.of_nat (length targets) in
  let '(writer, _) := historyLoop writer count history in
  match Emit (w writer) with
  | Some err => (w writer, Some err)
  | None => (w writer, None)
  end.

(** The text the command hands to [re.Emit]. *)
Definition statusOutput (tracker : TargetTracker) : string :=
  fst (chainStatusCmd_Run tracker (fun _ => None)).

(** The lines of one Target as they read in the output. *)
Definition currentLine (t : Target) : string :=
  match Current t with
  | Some cur =>
      tab ++ "Current: " ++ Itoa (EnsureHeight cur) ++ " " ++ KeyString cur ++ nl
  | None => tab ++ "Current:" ++ nl
  end.

Definition statusWait : string := tab ++ "Status:Wait" ++ nl.
Definition statusSyncing : string := tab ++ "Status:Syncing" ++ nl.

Definition statusLine (t : Target) : string :=
  match State t with
  | StageIdle => statusWait
  | _ => statusSyncing
  end.

Definition errLine (t : Target) : string :=
  tab ++ "Err: " ++ fmtError (Err t) ++ nl.

(** The block of one Target under the number [n], with [status] as its
    status line. *)
Definition targetBlockWith (status : string) (n : Z) (t : Target) : string :=
  "SyncTarget: " ++ Itoa n ++ nl
  ++ tab ++ "Base: " ++ Itoa (EnsureHeight (Base t)) ++ " " ++ KeyString (Base t) ++ nl
  ++ tab ++ "Target: " ++ Itoa (EnsureHeight (Head t)) ++ " " ++ KeyString (Head t) ++ nl
  ++ currentLine t
  ++ status
  ++ errLine t
  ++ nl.

Definition targetBlock (n : Z) (t : Target) : string :=
  targetBlockWith (statusLine t) n t.

(** The blocks of the Targets [ts], numbered upwards from [n]. *)
Fixpoint targetBlocks (n : Z) (ts : list Target) : string :=
  match ts with
  | [] => ""
  | t :: rest => targetBlock n t ++ targetBlocks (n + 1) rest
  end.

End Status.

Arguments mkTarget {TipSet} _ _ _ _ _.
Arguments State {TipSet} _.
Arguments Base {TipSet} _.
Arguments Current {TipSet} _.
Arguments Err {TipSet} _.
Arguments Head {TipSet} _.
Arguments mkTracker {TipSet} _ _.
Arguments Buckets {TipSet} _.
Arguments History {TipSet} _.
Arguments statusLine {TipSet} _.
Arguments errLine {TipSet} _.
Arguments currentLine {TipSet} _ _ _.
Arguments targetBlockWith {TipSet} _ _ _ _ _.
Arguments targetBlock {TipSet} _ _ _ _.
Arguments targetBlocks {TipSet} _ _ _ _.
Arguments bucketBody {TipSet} _ _ _ _ _.
Arguments bucketLoop {TipSet} _ _ _ _ _.
Arguments historyBody {TipSet} _ _ _ _ _.
Arguments historyLoop {TipSet} _ _ _ _ _.
Arguments chainStatusCmd_Run {TipSet} _ _ _ _.
Arguments statusOutput {TipSet} _ _ _.

Section SetHead.

(** [cid.Cid] with [cid.Decode], [block.TipSetKey] with
    [block.NewTipSetKey], and the chain store behind the node's API. *)
Variables Cid TipSetKey TipSet ChainStore : Type.
Variable cidDecode : string -> Cid * Go.error.
Variable NewTipSetKey : list Cid -> TipSetKey.

(** The methods of the node environment's [ChainAPI] that read or move the
    head.
    The store is threaded through the one method that mutates it. *)
Record ChainAPI := mkChainAPI {
  ChainHead : ChainStore -> TipSet * Go.error;
  ChainGetTipSet : TipSetKey -> ChainStore -> TipSet * Go.error;
  ChainSetHead : TipSetKey -> ChainStore -> ChainStore * Go.error
}.

(** Modelled from the spec: [cidsFromSlice] is declared in another file of
    the package; it decodes the CID arguments one by one, in order, and
    returns the first decoding error with a nil slice. *)
Fixpoint cidsFromSlice (args : list string) : list Cid * Go.error :=
  match args with
  | [] => ([], None)
  | arg :: rest =>
      match cidDecode arg with
      | (_, Some err) => ([], Some err)
      | (c, None) =>
          match cidsFromSlice rest with
          | (_, Some err) => ([], Some err)
          | (out, None) => (c :: out, None)
          end
      end
  end.

(** [chainSetHeadCmd.Run] on [req.Arguments]. *)
Definition chainSetHeadCmd_Run (api : ChainAPI) (Arguments : list string)
    (store : ChainStore) : ChainStore * Go.error :=
  match cidsFromSlice Arguments with
  | (_, Some err) => (store, Some err)
  | (headCids, None) =>
      let maybeNewHead := NewTipSetKey headCids in
      ChainSetHead api maybeNewHead store
  end.

(** An argument that [cid.Decode] rejects. *)
Definition badCid (arg : string) : Prop := snd (cidDecode arg) <> None.

End SetHead.

Arguments mkChainAPI {TipSetKey TipSet ChainStore} _ _ _.
Arguments ChainHead {TipSetKey TipSet ChainStore} _ _.
Arguments ChainGetTipSet {TipSetKey TipSet ChainStore} _ _ _.
Arguments ChainSetHead {TipSetKey TipSet ChainStore} _ _ _.
Arguments cidsFromSlice {Cid} _ _.
Arguments chainSetHeadCmd_Run {Cid TipSetKey TipSet ChainStore} _ _ _ _ _.
Arguments badCid {Cid} _ _.

End Cmd.

(** ** Fork-Choice Resolver *)

Module ForkChoice.

(** Modelled from the spec: the Fork-Choice Resolver of section 4.6, none of
    whose source is embedded here. A fully validated chain is known by its
    weight and by the canonical serialization of its tip-set, which is its
    identity. [selects] is the rule as section 4.6 words it: the candidate
    is selected when its weight strictly exceeds the head's, and on an
    exact tie the lexicographically smallest canonical serialization is
    preferred. *)
Record Chain := mkChain {
  weight : Z;
  serialization : string
}.

Definition selects (candidate head : Chain) : bool :=
  if Z.ltb (weight head) (weight candidate) then true
  else if Z.eqb (weight candidate) (weight head)
       then String.ltb (serialization candidate) (serialization head)
       else false.

(** The head after the resolver has seen [candidate]. *)
Definition resolve (head candidate : Chain) : Chain :=
  if selects candidate head then candidate else head.

(** The head after the candidates arrived in the order of the list. *)
Definition resolveAll (head : Chain) (arrivals : list Chain) : Chain :=
  fold_left resolve arrivals head.

(** The rule without its tie-break: strictly heavier or nothing. *)
Definition selectsStrict (candidate head : Chain) : bool :=
  Z.ltb (weight head) (weight candidate).

Definition resolveStrict (head candidate : Chain) : Chain :=
  if selectsStrict candidate head then candidate else head.



(** Modelled from the spec: section 4.6 settles a candidate whose weight
    differs from the head's, and section 9 lists the rule for an exact tie
    as an open question. [tie candidate head] is that rule, whatever it is:
    whether a candidate of exactly the head's weight is selected. *)
Definition selectsWith (tie : Chain -> Chain -> bool) (candidate head : Chain)
    : bool :=
  if Z.ltb (weight head) (weight candidate) then true
  else if Z.eqb (weight candidate) (weight head) then tie candidate head
       else false.

(** The two tie rules the spec's words allow: the lexicographically
    smaller serialization wins, or the head stays. *)
Definition lexTie (candidate head : Chain) : bool :=
  String.ltb (serialization candidate) (serialization head).

Definition noTie (candidate head : Chain) : bool := false.

End ForkChoice.

(** ** The miner state API of the chain submodule *)

Module MinerState.

Import Go.

(** [chain.CirculatingSupply], declared in [pkg/chain]. *)
Record CirculatingSupply := mkCirculatingSupply {
  FilVested : BigInt;
  FilMined : BigInt;
  FilBurnt : BigInt;
  FilLocked : BigInt;
  FilCirculating : BigInt
}.

(** The composite literal [chain.CirculatingSupply{}]. *)
Definition zeroCirculatingSupply : CirculatingSupply :=
  {| FilVested := BigNil; FilMined := BigNil; FilBurnt := BigNil;
     FilLocked := BigNil; FilCirculating := BigNil |}.

Definition initialPledgeNum : BigInt := bigNewInt 110.
Definition initialPledgeDen : BigInt := bigNewInt 100.

(** What a call of the API does: it returns a value and an error, or it
    panics. *)
Inductive Outcome (A : Type) :=
| Panics
| Returns (v : A) (err : error).
Arguments Panics {A}.
Arguments Returns {A} _ _.

(** [miner.SectorPreCommitInfo], the fields read here. *)
Record SectorPreCommitInfo (SealProof DealIDs : Type) := mkPCI {
  SealProof_ : SealProof;
  DealIDs_ : DealIDs;
  Expiration : Z
}.
Arguments SealProof_ {SealProof DealIDs} _.
Arguments DealIDs_ {SealProof DealIDs} _.
Arguments Expiration {SealProof DealIDs} _.

Section API.

(** The collaborators of [MinerStateAPI]: the chain reader, the state
    store and the actor state loaders. Each is a read of the node's
    state, fixed during one call. *)
Variables TipSetKey TipSet Cid Blockstore StateTree Actor Address : Type.
Variables MarketState PowerState RewardState : Type.
Variables SealProof DealIDs SectorSize DealWeight StoragePower FilterEstimate : Type.

Variable Store : Blockstore.
Variable GetTipSet : TipSetKey -> TipSet * error.
Variable GetTipSetStateRoot : TipSetKey -> Cid * error.
Variable LoadState : Blockstore -> Cid -> StateTree * error.
Variable GetCirculatingSupplyDetailed : Z -> StateTree -> CirculatingSupply * error.
Variable EnsureHeight : TipSet -> Z.
Variable ParentStateRootAt0 : TipSet -> Cid.

Variable GetActor : StateTree -> Address -> Actor * bool * error.
Variables marketAddress powerAddress rewardAddress : Address.
Variable AddressString : Address -> string.
Variable SealProofSectorSize : SealProof -> SectorSize * error.
Variable marketLoad : Blockstore -> Actor -> MarketState * error.
Variable VerifyDealsForActivation :
  MarketState -> Address -> DealIDs -> Z -> Z -> DealWeight * DealWeight * error.
Variable QAPowerForWeight : SectorSize -> Z -> DealWeight -> DealWeight -> StoragePower.
Variable powerLoad : Blockstore -> Actor -> PowerState * error.
Variable TotalPowerSmoothed : PowerState -> FilterEstimate * error.
Variable rewardLoad : Blockstore -> Actor -> RewardState * error.
Variable PreCommitDepositForPower :
  RewardState -> FilterEstimate -> StoragePower -> BigInt * error.

(** [StateVMCirculatingSupplyInternal] *)
Definition StateVMCirculatingSupplyInternal (tsk : TipSetKey)
    : CirculatingSupply * error :=
  let store := Store in
  match GetTipSet tsk with
  | (_, Some err) => (zeroCirculatingSupply, Some err)
  | (ts, None) =>
      match GetTipSetStateRoot tsk with
      | (_, Some err) => (zeroCirculatingSupply, Some err)
      | (root, None) =>
          match LoadState store root with
          | (_, Some err) => (zeroCirculatingSupply, Some err)
          | (sTree, None) =>
              GetCirculatingSupplyDetailed (EnsureHeight ts) sTree
          end
      end
  end.

(** [err != nil || !found] on the results of [GetActor]. *)
Definition missing (found : bool) (err : error) : bool :=
  match err with
  | Some _ => true
  | None => negb found
  end.

(** [StateMinerPreCommitDepositForPower] *)
Definition StateMinerPreCommitDepositForPower (maddr : Address)
    (pci : SectorPreCommitInfo SealProof DealIDs) (tsk : TipSetKey)
    : Outcome BigInt :=
  let store := Store in
  match GetTipSet tsk with
  | (_, Some err) => Returns BigNil (Some err)
  | (ts, None) =>
  match LoadState store (ParentStateRootAt0 ts) with
  | (_, Some err) => Returns BigNil (Some err)
  | (sTree, None) =>
  match SealProofSectorSize (SealProof_ pci) with
  | (_, Some err) =>
      Returns BigNil (Errorf ("failed to get resolve size: " ++ err))
  | (ssize, None) =>
  (* var sectorWeight abi.StoragePower *)
  match GetActor sTree marketAddress with
  | (act, found, err) =>
  if missing found err then
    Returns BigNil
      (Errorf ("loading market actor " ++ AddressString maddr ++ ": "
               ++ fmtError err))
  else
  match marketLoad store act with
  | (_, Some err) =>
      Returns BigNil
        (Errorf ("loading market actor state " ++ AddressString maddr
                 ++ ": " ++ err))
  | (s, None) =>
  match VerifyDealsForActivation s maddr (DealIDs_ pci)
          (EnsureHeight ts) (Expiration pci) with
  | (_, _, Some err) =>
      Returns BigNil (Errorf ("verifying deals for activation: " ++ err))
  | (w, vw, None) =>
  let duration := Expiration pci - EnsureHeight ts in
  let sectorWeight := QAPowerForWeight ssize duration w vw in
  (* var powerSmoothed builtin.FilterEstimate *)
  match GetActor sTree powerAddress with
  | (act, found, err) =>
  if missing found err then
    Returns BigNil (Errorf ("loading power actor: " ++ fmtError err))
  else
  match powerLoad store act with
  | (_, Some err) =>
      Returns BigNil (Errorf ("loading power actor state: " ++ err))
  | (s, None) =>
  match TotalPowerSmoothed s with
  | (_, Some err) =>
      Returns BigNil (Errorf ("failed to determine total power: " ++ err))
  | (p, None) =>
  let powerSmoothed := p in
  match GetActor sTree rewardAddress with
  | (rewardActor, found, err) =>
  if missing found err then
    Returns BigNil (Errorf ("loading miner actor: " ++ fmtError err))
  else
  match rewardLoad store rewardActor with
  | (_, Some err) =>
      Returns BigNil (Errorf ("loading reward actor state: " ++ err))
  | (rewardState, None) =>
  match PreCommitDepositForPower rewardState powerSmoothed sectorWeight with
  | (_, Some err) =>
      Returns bigZero (Errorf ("calculating precommit deposit: " ++ err))
  | (deposit, None) =>
  match bigMul deposit initialPledgeNum with
  | None => Panics
  | Some product =>
  match bigDiv product initialPledgeDen with
  | None => Panics
  | Some quotient => Returns quotient None
  end end end end end end end end end end end end end end.

(** The call of [rewardState.PreCommitDepositForPower] that
    [StateMinerPreCommitDepositForPower] makes once every earlier step has
    succeeded: the reward state, the smoothed power and the sector weight
    are the ones loaded on the way. *)
Definition preCommitDeposit (maddr : Address)
    (pci : SectorPreCommitInfo SealProof DealIDs) (tsk : TipSetKey)
    : BigInt * error :=
  let store := Store in
  let ts := fst (GetTipSet tsk) in
  let sTree := fst (LoadState store (ParentStateRootAt0 ts)) in
  let ssize := fst (SealProofSectorSize (SealProof_ pci)) in
  let marketActor := fst (fst (GetActor sTree marketAddress)) in
  let s := fst (marketLoad store marketActor) in
  let verified := fst (VerifyDealsForActivation s maddr (DealIDs_ pci)
                         (EnsureHeight ts) (Expiration pci)) in
  let duration := Expiration pci - EnsureHeight ts in
  let sectorWeight := QAPowerForWeight ssize duration (fst verified) (snd verified) in
  let powerActor := fst (fst (GetActor sTree powerAddress)) in
  let powerSmoothed := fst (TotalPowerSmoothed (fst (powerLoad store powerActor))) in
  let rewardActor := fst (fst (GetActor sTree rewardAddress)) in
  let rewardState := fst (rewardLoad store rewardActor) in
  PreCommitDepositForPower rewardState powerSmoothed sectorWeight.

End API.

End MinerState.

(** ** Go's [strings] package *)

Module GoStrings.

(** [strings.Trim(s, cutset)] for a cutset of one ASCII character [c]:
    [trimLeftByte(trimRightByte(s, c), c)]. *)
Fixpoint trimLeftByte (s : string) (c : ascii) : string :=
  match s with
  | EmptyString => EmptyString
  | String a rest => if Ascii.eqb a c then trimLeftByte rest c else s
  end.

Fixpoint trimRightByte (s : string) (c : ascii) : string :=
  match s with
  | EmptyString => EmptyString
  | String a rest =>
      match trimRightByte rest c with
      | EmptyString => if Ascii.eqb a c then EmptyString else String a EmptyString
      | kept => String a kept
      end
  end.

Definition Trim (s : string) (c : ascii) : string :=
  trimLeftByte (trimRightByte s c) c.

End GoStrings.

(** ** [pkg/wallet/dsbackend.go] *)

Module Wallet.

Import Go.

(** [address.Protocol] is a byte; the constants are go-address's. *)
Definition Protocol := Z.
Definition ID : Protocol := 0.
Definition SECP256K1 : Protocol := 1.
Definition Actor : Protocol := 2.
Definition BLS : Protocol := 3.

Section DSBackend.

(** Addresses, key material, the datastore behind the backend and the
    state of the process-wide [rand.Reader]. *)
Variables KeyInfo UUID Datastore Entropy : Type.
Variable Address : Type.
Context `{Countable Address}.
Variable Undef : Address.
Variable AddressString : Address -> string.
Variable KeyInfoAddress : KeyInfo -> Address * error.
Variable NewSecpKeyFromSeed : Entropy -> KeyInfo * error * Entropy.
Variable NewBLSKeyFromSeed : Entropy -> KeyInfo * error * Entropy.
Variable NewRandom : Entropy -> UUID * Entropy.
Variable NewKey : string -> string.
Variable Put : Datastore -> string -> list Byte.byte -> Datastore * error.

(** [Key], the record that is encrypted and stored. *)
Record Key := mkKey {
  KeyID : UUID;
  KeyAddress : Address;
  KeyKeyInfo : KeyInfo
}.

Variable encryptKey :
  Key -> string -> Z -> Z -> Entropy -> list Byte.byte * error * Entropy.

(** [config.PassphraseConfig] *)
Record PassphraseConfig := mkPassphraseConfig {
  ScryptN : Z;
  ScryptP : Z
}.

(** [DSBackend]: the datastore, the two caches and the configuration. The
    lock guards concurrent callers and has no content of its own. *)
Record DSBackend := mkDSBackend {
  ds : Datastore;
  addressCache : gset Address;
  keyInfoCache : gmap string KeyInfo;
  PassphraseConf : PassphraseConfig
}.

(** What a method can change: the backend and the random source. *)
Definition World : Type := DSBackend * Entropy.

(** [putKeyInfoPassphrase] *)
Definition putKeyInfoPassphrase (ki : KeyInfo) (password : string)
    (world : World) : error * World :=
  let '(backend, entropy) := world in
  match KeyInfoAddress ki with
  | (_, Some err) => (Some err, world)
  | (addr, None) =>
      let '(id, entropy) := NewRandom entropy in
      let key := {| KeyID := id; KeyAddress := addr; KeyKeyInfo := ki |} in
      match encryptKey key password (ScryptN (PassphraseConf backend))
              (ScryptP (PassphraseConf backend)) entropy with
      | (_, Some err, entropy) => (Some err, (backend, entropy))
      | (keyJSON, None, entropy) =>
          match Put (ds backend) (NewKey (AddressString (KeyAddress key))) keyJSON with
          | (ds', Some err) =>
              (Wrapf err ("failed to store new address: "
                          ++ AddressString (KeyAddress key)),
               ({| ds := ds'; addressCache := addressCache backend;
                   keyInfoCache := keyInfoCache backend;
                   PassphraseConf := PassphraseConf backend |}, entropy))
          | (ds', None) =>
              (None,
               ({| ds := ds';
                   addressCache := {[ addr ]} ∪ addressCache backend;
                   keyInfoCache := <[ AddressString addr := ki ]> (keyInfoCache backend);
                   PassphraseConf := PassphraseConf backend |}, entropy))
          end
      end
  end.

(** [newSecpAddress] *)
Definition newSecpAddress (password : string) (world : World)
    : Address * error * World :=
  let '(backend, entropy) := world in
  match NewSecpKeyFromSeed entropy with
  | (_, Some err, entropy) => (Undef, Some err, (backend, entropy))
  | (ki, None, entropy) =>
      match putKeyInfoPassphrase ki password (backend, entropy) with
      | (Some err, world) => (Undef, Some err, world)
      | (None, world) => (KeyInfoAddress ki, world)
      end
  end.

(** [newBLSAddress] *)
Definition newBLSAddress (password : string) (world : World)
    : Address * error * World :=
  let '(backend, entropy) := world in
  match NewBLSKeyFromSeed entropy with
  | (_, Some err, entropy) => (Undef, Some err, (backend, entropy))
  | (ki, None, entropy) =>
      match putKeyInfoPassphrase ki password (backend, entropy) with
      | (Some err, world) => (Undef, Some err, world)
      | (None, world) => (KeyInfoAddress ki, world)
      end
  end.

(** [NewAddress] *)
Definition NewAddress (protocol : Protocol) (password : string)
    (world : World) : Address * error * World :=
  if Z.eqb protocol BLS then newBLSAddress password world
  else if Z.eqb protocol SECP256K1 then newSecpAddress password world
  else (Undef,
        Errorf ("Unknown address protocol " ++ fmtOperand (OInt protocol)),
        world).

(** *** The other methods of the backend *)

(** Reading the datastore, the two encodings of a key, signing, the
    keys-only query behind [NewDSBackend] and the address parser. *)
Variable Signature : Type.
Variable Get : Datastore -> string -> list Byte.byte * error.
Variable MarshalCBOR : KeyInfo -> list Byte.byte * error.
Variable UnmarshalCBOR : list Byte.byte -> KeyInfo * error.
Variable decryptKey : list Byte.byte -> string -> option Key * error.
Variable Sign : list Byte.byte -> KeyInfo -> option Signature * error.
Variable QueryResults : Type.
Variable Query : Datastore -> QueryResults * error.
Variable Rest : QueryResults -> list string * error.
Variable NewFromString : string -> Address * error.

(** The loop of [NewDSBackend] over the keys of the query result. *)
Fixpoint restoreAddresses (list : list string) (addrCache : gset Address)
    : gset Address * error :=
  match list with
  | [] => (addrCache, None)
  | el :: rest =>
      match NewFromString (GoStrings.Trim el "/") with
      | (_, Some err) =>
          (addrCache, Wrapf err ("trying to restore invalid address: " ++ el))
      | (parsedAddr, None) =>
          restoreAddresses rest ({[ parsedAddr ]} ∪ addrCache)
      end
  end.

(** [NewDSBackend]; the backend it returns is a pointer, nil on error. *)
Definition NewDSBackend (store : Datastore) (passphraseCfg : PassphraseConfig)
    : option DSBackend * error :=
  match Query store with
  | (_, Some err) => (None, Wrapf err "failed to query datastore")
  | (result, None) =>
      match Rest result with
      | (_, Some err) => (None, Wrapf err "failed to read query results")
      | (list, None) =>
          match restoreAddresses list ∅ with
          | (_, Some err) => (None, Some err)
          | (addrCache, None) =>
              (Some {| ds := store; addressCache := addrCache;
                       keyInfoCache := ∅; PassphraseConf := passphraseCfg |},
               None)
          end
      end
  end.

(** [ImportKey] *)
Definition ImportKey (ki : KeyInfo) (password : string) (world : World)
    : error * World :=
  putKeyInfoPassphrase ki password world.

(** [Addresses]: the keys of the address cache, in an order of Go's
    choosing. *)
Definition Addresses (backend : DSBackend) : list Address :=
  elements (addressCache backend).

(** [HasAddress] *)
Definition HasAddress (backend : DSBackend) (addr : Address) : bool :=
  bool_decide (addr ∈ addressCache backend).

(** [putKeyInfo] *)
Definition putKeyInfo (ki : KeyInfo) (backend : DSBackend) : error * DSBackend :=
  match KeyInfoAddress ki with
  | (_, Some err) => (Some err, backend)
  | (addr, None) =>
      match MarshalCBOR ki with
      | (_, Some err) => (Some err, backend)
      | (buf, None) =>
          match Put (ds backend) (NewKey (AddressString addr)) buf with
          | (ds', Some err) =>
              (Wrapf err "failed to store new address",
               {| ds := ds'; addressCache := addressCache backend;
                  keyInfoCache := keyInfoCache backend;
                  PassphraseConf := PassphraseConf backend |})
          | (ds', None) =>
              (None,
               {| ds := ds'; addressCache := {[ addr ]} ∪ addressCache backend;
                  keyInfoCache := keyInfoCache backend;
                  PassphraseConf := PassphraseConf backend |})
          end
      end
  end.

(** [GetKeyInfo]; the key info it returns is a pointer, nil on error. *)
Definition GetKeyInfo (backend : DSBackend) (addr : Address)
    : option KeyInfo * error :=
  if negb (HasAddress backend addr)
  then (None, Some "backend does not contain address")
  else
    match Get (ds backend) (NewKey (AddressString addr)) with
    | (_, Some err) => (None, Wrapf err "failed to fetch private key from backend")
    | (kib, None) =>
        match UnmarshalCBOR kib with
        | (_, Some err) =>
            (None, Wrapf err "failed to unmarshal keyinfo from backend")
        | (ki, None) => (Some ki, None)
        end
    end.

(** [SignBytes]. [None] is the run-time panic of dereferencing a nil key
    info, which [GetKeyInfo] never returns without an error. *)
Definition SignBytes (backend : DSBackend) (data : list Byte.byte)
    (addr : Address) : option (option Signature * error) :=
  match GetKeyInfo backend addr with
  | (_, Some err) => Some (None, Some err)
  | (Some ki, None) => Some (Sign data ki)
  | (None, None) => None
  end.

(** [getKey]; [decryptKey] returns a pointer to the key. *)
Definition getKey (backend : DSBackend) (addr : Address) (password : string)
    : option Key * error :=
  match Get (ds backend) (NewKey (AddressString addr)) with
  | (_, Some err) => (None, Wrapf err "failed to fetch private key from backend")
  | (b, None) => decryptKey b password
  end.

(** [GetKeyInfoPassphrase]. The key-info cache only ever holds key infos,
    so the type assertion on a cached value succeeds; a lookup in the cache
    finds what was set and has not expired. [None] is the panic of
    dereferencing a nil key returned without an error. *)
Definition GetKeyInfoPassphrase (addr : Address) (password : string)
    (backend : DSBackend) : option (option KeyInfo * error * DSBackend) :=
  if negb (HasAddress backend addr)
  then Some (None, Some "backend does not contain address", backend)
  else
    match keyInfoCache backend !! AddressString addr with
    | Some ki => Some (Some ki, None, backend)
    | None =>
        match getKey backend addr password with
        | (_, Some err) => Some (None, Some err, backend)
        | (None, None) => None
        | (Some key, None) =>
            Some (Some (KeyKeyInfo key), None,
                  {| ds := ds backend; addressCache := addressCache backend;
                     keyInfoCache :=
                       <[ AddressString addr := KeyKeyInfo key ]>
                         (keyInfoCache backend);
                     PassphraseConf := PassphraseConf backend |})
        end
    end.

(** [SignBytesPassphrase] *)
Definition SignBytesPassphrase (data : list Byte.byte) (addr : Address)
    (password : string) (backend : DSBackend)
    : option (option Signature * error * DSBackend) :=
  match GetKeyInfoPassphrase addr password backend with
  | None => None
  | Some (_, Some err, backend) => Some (None, Some err, backend)
  | Some (None, None, backend) => None
  | Some (Some ki, None, backend) => Some (Sign data ki, backend)
  end.

End DSBackend.

End Wallet.

(** ** Concrete instances of the parameters *)

Module Examples.

Import Go Cmd.

(** A tip-set for the examples: its height and the text of its key. *)
Definition exTipSet : Type := Z * string.
Definition exHeight (ts : exTipSet) : Z := fst ts.
Definition exKey (ts : exTipSet) : string := snd ts.

Definition exFailed : Target exTipSet :=
  mkTarget StageFailed (10, "{bafy1}") (Some (12, "{bafy2}"))
    (Some "state root mismatch") (15, "{bafy3}").
Definition exComplete : Target exTipSet :=
  mkTarget StageComplete (10, "{bafy1}") (Some (15, "{bafy3}")) None (15, "{bafy3}").
Definition exValidating : Target exTipSet :=
  mkTarget StageValidating (10, "{bafy1}") (Some (15, "{bafy3}")) None (15, "{bafy3}").
Definition exIdle : Target exTipSet :=
  mkTarget StageIdle (10, "{bafy1}") None None (20, "{bafy4}").
Definition exTracker : TargetTracker exTipSet :=
  mkTracker [exIdle; exValidating] [exComplete; exFailed].

(** Two active Targets that differ in their state only: one has fetched
    the tip-set at height 12, the other has validated up to it. *)
Definition exFetching : Target exTipSet :=
  mkTarget StageFetching (10, "{bafy1}") (Some (12, "{bafy2}")) None (15, "{bafy3}").
Definition exValidatingSame : Target exTipSet :=
  mkTarget StageValidating (10, "{bafy1}") (Some (12, "{bafy2}")) None (15, "{bafy3}").

(** A node whose CIDs are the non-empty strings, whose tip-set keys are
    lists of CIDs and whose store is the key of its head. *)
Definition exDecode (arg : string) : string * error :=
  if String.eqb arg "" then ("", Some "invalid cid") else (arg, None).
Definition exAPI : ChainAPI (list string) exTipSet (list string) :=
  mkChainAPI (fun store => ((0, "{}"), None))
             (fun key store => ((0, "{}"), None))
             (fun key store => (key, None)).

(** A miner state API over a one-point chain: every load succeeds and the
    reward actor asks for a deposit of 1001. *)
Definition exDepositAPI (deposit : BigInt) (maddr : unit)
    (pci : MinerState.SectorPreCommitInfo unit unit) (tsk : unit)
    : MinerState.Outcome BigInt :=
  MinerState.StateMinerPreCommitDepositForPower
    unit unit unit unit unit unit unit unit unit unit unit unit unit unit unit unit
    tt (fun _ => (tt, None)) (fun _ _ => (tt, None)) (fun _ => 7) (fun _ => tt)
    (fun _ _ => (tt, true, None)) tt tt tt (fun _ => "f01")
    (fun _ => (tt, None)) (fun _ _ => (tt, None))
    (fun _ _ _ _ _ => (tt, tt, None)) (fun _ _ _ _ => tt)
    (fun _ _ => (tt, None)) (fun _ => (tt, None)) (fun _ _ => (tt, None))
    (fun _ _ _ => (deposit, None)) maddr pci tsk.

(** A miner state API over the same chain for the circulating supply: the
    tip-set lookup is left open, every other step succeeds. *)
Definition exSupply : MinerState.CirculatingSupply :=
  MinerState.mkCirculatingSupply (Big 5) (Big 4) (Big 3) (Big 2) (Big 1).
Definition exSupplyAPI (GetTipSet : unit -> unit * error) (tsk : unit)
    : MinerState.CirculatingSupply * error :=
  MinerState.StateVMCirculatingSupplyInternal unit unit unit unit unit
    tt GetTipSet (fun _ => (tt, None)) (fun _ _ => (tt, None))
    (fun _ _ => (exSupply, None)) (fun _ => 7) tsk.

(** A wallet backend whose addresses and keys are numbers, whose datastore
    is the list of what was put and whose random source is a counter. *)
Definition exNewAddress (protocol : Wallet.Protocol) (password : string)
    (world : Wallet.World Z (list (string * list Byte.byte)) Z Z)
    : Z * error * Wallet.World Z (list (string * list Byte.byte)) Z Z :=
  Wallet.NewAddress Z Z (list (string * list Byte.byte)) Z Z
    (-1) Itoa (fun ki => (ki, None))
    (fun entropy => (entropy, None, entropy + 1))
    (fun entropy => (entropy, None, entropy + 1))
    (fun entropy => (entropy, entropy + 1))
    (fun name => "/" ++ name)
    (fun ds key value => ((key, value) :: ds, None))
    (fun key password n p entropy => ([], None, entropy + 1))
    protocol password world.
Definition exWorld : Wallet.World Z (list (string * list Byte.byte)) Z Z :=
  (Wallet.mkDSBackend Z (list (string * list Byte.byte)) Z [] ∅ ∅
     (Wallet.mkPassphraseConfig 2 1), 0).

End Examples.

(** ** [pkg/repo/mem.go], the other methods *)

Module RepoOps.

Import Repo.

(** [RpcAPI], what [APIAddr] returns. *)
Record RpcAPI := mkRpcAPI {
  RustfulAPI : string;
  JsonrpcAPI : string
}.

Section Ops.

Variables Config Datastore Keystore : Type.

Local Abbreviation MemRepo := (MemRepo Config Datastore Keystore).

(** [func (mr *MemRepo) Config() *config.Config] *)
Definition Config_ (mr : MemRepo) : Config := C _ _ _ mr.

(** [func (mr *MemRepo) ReplaceConfig(cfg *config.Config) error] *)
Definition ReplaceConfig (mr : MemRepo) (cfg : Config) : MemRepo * Go.error :=
  ({| C := cfg; D := D _ _ _ mr; Ks := Ks _ _ _ mr; W := W _ _ _ mr;
      Chain := Chain _ _ _ mr; Meta := Meta _ _ _ mr;
      version := version _ _ _ mr;
      jsonrpcAddress := jsonrpcAddress _ _ _ mr;
      rustfulAddress := rustfulAddress _ _ _ mr; token := token mr |}, None).

(** [func (mr *MemRepo) Version() uint] *)
Definition Version (mr : MemRepo) : N := version _ _ _ mr.

(** [func (mr *MemRepo) Close() error] *)
Definition Close (mr : MemRepo) : MemRepo * Go.error := (mr, None).

(** [func (mr *MemRepo) SetJsonrpcAPIAddr(addr string) error] *)
Definition SetJsonrpcAPIAddr (mr : MemRepo) (addr : string) : MemRepo * Go.error :=
  ({| C := C _ _ _ mr; D := D _ _ _ mr; Ks := Ks _ _ _ mr; W := W _ _ _ mr;
      Chain := Chain _ _ _ mr; Meta := Meta _ _ _ mr;
      version := version _ _ _ mr;
      jsonrpcAddress := addr;
      rustfulAddress := rustfulAddress _ _ _ mr; token := token mr |}, None).

(** [func (mr *MemRepo) SetRustfulAPIAddr(addr string) error] *)
Definition SetRustfulAPIAddr (mr : MemRepo) (addr : string) : MemRepo * Go.error :=
  ({| C := C _ _ _ mr; D := D _ _ _ mr; Ks := Ks _ _ _ mr; W := W _ _ _ mr;
      Chain := Chain _ _ _ mr; Meta := Meta _ _ _ mr;
      version := version _ _ _ mr;
      jsonrpcAddress := jsonrpcAddress _ _ _ mr;
      rustfulAddress := addr; token := token mr |}, None).

(** [func (mr *MemRepo) APIAddr() (RpcAPI, error)] *)
Definition APIAddr (mr : MemRepo) : RpcAPI * Go.error :=
  ({| RustfulAPI := rustfulAddress _ _ _ mr;
      JsonrpcAPI := jsonrpcAddress _ _ _ mr |}, None).

(** [func (mr *MemRepo) JournalPath() string] *)
Definition JournalPath (mr : MemRepo) : string := "in_memory_filecoin_journal_path".

(** One call of a mutating method of the repo, with its argument. *)
Inductive Call :=
| CallReplaceConfig (cfg : Config)
| CallSetJsonrpcAPIAddr (addr : string)
| CallSetRustfulAPIAddr (addr : string)
| CallSetAPIToken (tok : list Byte.byte)
| CallClose.

Definition call (mr : MemRepo) (c : Call) : MemRepo * Go.error :=
  match c with
  | CallReplaceConfig cfg => ReplaceConfig mr cfg
  | CallSetJsonrpcAPIAddr addr => SetJsonrpcAPIAddr mr addr
  | CallSetRustfulAPIAddr addr => SetRustfulAPIAddr mr addr
  | CallSetAPIToken tok => SetAPIToken mr tok
  | CallClose => Close mr
  end.

(** The calls of [cs] made one after the other on the same repo; the errors
    they return, in call order. *)
Fixpoint calls (mr : MemRepo) (cs : list Call) : MemRepo * list Go.error :=
  match cs with
  | [] => (mr, [])
  | c :: rest =>
      let '(mr1, err) := call mr c in
      let '(mr2, errs) := calls mr1 rest in
      (mr2, err :: errs)
  end.

(** What a call sequence asks for, read off the sequence alone. *)
Fixpoint lastJsonrpc (old : string) (cs : list Call) : string :=
  match cs with
  | [] => old
  | CallSetJsonrpcAPIAddr addr :: rest => lastJsonrpc addr rest
  | _ :: rest => lastJsonrpc old rest
  end.

Fixpoint lastRustful (old : string) (cs : list Call) : string :=
  match cs with
  | [] => old
  | CallSetRustfulAPIAddr addr :: rest => lastRustful addr rest
  | _ :: rest => lastRustful old rest
  end.

Fixpoint lastConfig (old : Config) (cs : list Call) : Config :=
  match cs with
  | [] => old
  | CallReplaceConfig cfg :: rest => lastConfig cfg rest
  | _ :: rest => lastConfig old rest
  end.

Fixpoint tokensOf (cs : list Call) : list (list Byte.byte) :=
  match cs with
  | [] => []
  | CallSetAPIToken tok :: rest => tok :: tokensOf rest
  | _ :: rest => tokensOf rest
  end.

End Ops.

Arguments CallReplaceConfig {Config} _.
Arguments CallSetJsonrpcAPIAddr {Config} _.
Arguments CallSetRustfulAPIAddr {Config} _.
Arguments CallSetAPIToken {Config} _.
Arguments CallClose {Config}.
Arguments call {Config Datastore Keystore} _ _.
Arguments calls {Config Datastore Keystore} _ _.
Arguments APIAddr {Config Datastore Keystore} _.
Arguments Config_ {Config Datastore Keystore} _.
Arguments Version {Config Datastore Keystore} _.
Arguments lastJsonrpc {Config} _ _.
Arguments lastRustful {Config} _ _.
Arguments lastConfig {Config} _ _.
Arguments tokensOf {Config} _.

End RepoOps.

(** ** A concrete wallet backend *)

Module WalletExamples.

Import Go Wallet.

(** Addresses and key infos are numbers, an address prints as its decimal,
    the datastore is the list of what was put, newest first, and the random
    source is a counter. *)
Definition exStore : Type := list (string * list Byte.byte).

Fixpoint exGet (store : exStore) (key : string) : list Byte.byte * error :=
  match store with
  | [] => ([], Some "datastore: key not found")
  | (k, v) :: rest => if String.eqb k key then (v, None) else exGet rest key
  end.

Definition exPut (store : exStore) (key : string) (value : list Byte.byte)
    : exStore * error :=
  ((key, value) :: store, None).

(** An encoding of the natural numbers: as many bytes as the number. *)
Definition exMarshal (ki : nat) : list Byte.byte * error :=
  (List.repeat Byte.x01 ki, None).
Definition exUnmarshal (buf : list Byte.byte) : nat * error :=
  (length buf, None).

(** The keys-only query of the list datastore. *)
Definition exQuery (store : exStore) : list string * error :=
  (map fst store, None).

Definition exBackend : DSBackend Z exStore Z :=
  mkDSBackend Z exStore Z [] ∅ ∅ (mkPassphraseConfig 2 1).

Definition exImportKey (ki : Z) (password : string)
    (world : World Z exStore Z Z) : error * World Z exStore Z Z :=
  ImportKey Z Z exStore Z Z Itoa (fun ki => (ki, None))
    (fun entropy => (entropy, entropy + 1)) (fun name => "/" ++ name)
    exPut (fun key password n p entropy => ([], None, entropy + 1))
    ki password world.

(** A parser that accepts the numbers written in decimal. *)
Definition exNewFromString (s : string) : Z * error :=
  match NilZero.int_of_string s with
  | Some d => (Z.of_int d, None)
  | None => (-1, Some "unknown address network")
  end.

End WalletExamples.

(** ** [cmd/chain.go]: listing, export and block display *)

Module ChainCmds.

Import Go.

(** The conversions [int64(x)] of a [uint64] and [int(x)] of a [uint] (on
    a 64-bit platform) keep the low 64 bits, read in two's complement. *)
Definition toInt64 (z : Z) : Z := (z + 2 ^ 63) mod 2 ^ 64 - 2 ^ 63.

(** The values [req.Options], a [map[string]interface{}], holds. *)
Inductive OptionValue :=
| OptUint (v : Z)
| OptInt64 (v : Z)
| OptBool (b : bool)
| OptString (s : string).

(** [v, ok := req.Options[name].(uint)]: the zero value and [false] when
    the option is absent or of another type. *)
Definition assertUint (v : option OptionValue) : Z * bool :=
  match v with
  | Some (OptUint n) => (n, true)
  | _ => (0, false)
  end.

(** [v, ok := req.Options[name].(int64)] *)
Definition assertInt64 (v : option OptionValue) : Z * bool :=
  match v with
  | Some (OptInt64 n) => (n, true)
  | _ => (0, false)
  end.

(** [v, ok := req.Options[name].(bool)] *)
Definition assertBool (v : option OptionValue) : bool * bool :=
  match v with
  | Some (OptBool b) => (b, true)
  | _ => (false, false)
  end.

(** Modelled from the spec: [SilentWriter.Write] is declared in another
    file of the package, beside [Println]; it appends the bytes to the
    buffer unless an earlier write failed. *)
Definition Write (sw : Cmd.SilentWriter) (p : string) : Cmd.SilentWriter :=
  match Cmd.err sw with
  | None => {| Cmd.w := Cmd.w sw ++ p; Cmd.err := None |}
  | Some _ => sw
  end.

Section RangeFill.

Context {A B : Type}.
Variable f : A -> B.

(** The loop [for k, v := range input { out[k] = f(v) }], from index [k]
    on. The slice [out] is made with the length of [input], so no index is
    out of range. *)
Fixpoint rangeFill (k : nat) (input : list A) (out : list B) : list B :=
  match input with
  | [] => out
  | v :: rest => rangeFill (S k) rest (<[ k := f v ]> out)
  end.

End RangeFill.

Section Ls.

(** Tip-sets and blocks with the methods [chainLsCmd] calls on them, and
    [time.Unix(sec, 0).Format("2006-01-02 15:04:05")]. *)
Variables Cid Address TipSetKey TipSet Block : Type.
Variable UndefCid : Cid.
Variable UndefAddress : Address.
Variable BlockCid : Block -> Cid.
Variable Miner : Block -> Address.
Variable Height : TipSet -> Z * error.
Variable MinTimestamp : TipSet -> Z.
Variable Blocks : TipSet -> list Block.
Variable Key : TipSet -> TipSetKey.
Variable timeFormat : Z -> string.

(** The methods of the node environment's [ChainAPI] the command calls;
    each is a read of the chain store. *)
Variable ChainHead : TipSet * error.
Variable ChainGetTipSetByHeight : Z -> TipSetKey -> TipSet * error.
Variable ChainList : TipSetKey -> Z -> list TipSetKey * error.
Variable ChainGetTipSet : TipSetKey -> TipSet * error.

Record BlockResult := mkBlockResult {
  BlockResult_Cid : Cid;
  BlockResult_Miner : Address
}.

Record ChainLsResult := mkChainLsResult {
  ChainLsResult_Height : Z;
  ChainLsResult_Timestamp : string;
  ChainLsResult_Blocks : list BlockResult
}.

(** [blks := make([]BlockResult, len(tp.Blocks()))] and the loop that
    fills it. *)
Definition blockResults (tp : TipSet) : list BlockResult :=
  rangeFill (fun blk => {| BlockResult_Cid := BlockCid blk;
                           BlockResult_Miner := Miner blk |})
    0 (Blocks tp)
    (replicate (length (Blocks tp))
       {| BlockResult_Cid := UndefCid; BlockResult_Miner := UndefAddress |}).

(** The loop [for _, key := range tipSetKeys]. *)
Fixpoint lsLoop (tipSetKeys : list TipSetKey) (res : list ChainLsResult)
    : list ChainLsResult * error :=
  match tipSetKeys with
  | [] => (res, None)
  | key :: rest =>
      match ChainGetTipSet key with
      | (_, Some err) => (res, Some err)
      | (tp, None) =>
          match Height tp with
          | (_, Some err) => (res, Some err)
          | (h, None) =>
              let strTt := timeFormat (toInt64 (MinTimestamp tp)) in
              let blks := blockResults tp in
              let lsRes := {| ChainLsResult_Height := h;
                              ChainLsResult_Timestamp := strTt;
                              ChainLsResult_Blocks := blks |} in
              lsLoop rest (res ++ [lsRes])%list
          end
      end
  end.

(** [chainLsCmd.Run]: what is handed to [re.Emit], if anything, and the
    error the command returns. *)
Definition chainLsCmd_Run (Options : gmap string OptionValue)
    (Emit : list ChainLsResult -> error)
    : option (list ChainLsResult) * error :=
  let '(count, _) := assertUint (Options !! "count") in
  if Z.ltb count 1 then (None, None)
  else
    let '(height, _) := assertInt64 (Options !! "height") in
    match ChainHead with
    | (_, Some err) => (None, Some err)
    | (startTs, None) =>
        match (if Z.leb 0 height
               then ChainGetTipSetByHeight height (Key startTs)
               else (startTs, None)) with
        | (_, Some err) => (None, Some err)
        | (startTs, None) =>
            match ChainList (Key startTs) (toInt64 count) with
            | (_, Some err) => (None, Some err)
            | (tipSetKeys, None) =>
                match lsLoop tipSetKeys [] with
                | (_, Some err) => (None, Some err)
                | (res, None) =>
                    match Emit res with
                    | Some err => (Some res, Some err)
                    | None => (Some res, None)
                    end
                end
            end
        end
    end.

(** The entry of the listing for one tip-set, as a user reads it. *)
Definition lsEntry (tp : TipSet) : ChainLsResult :=
  {| ChainLsResult_Height := fst (Height tp);
     ChainLsResult_Timestamp := timeFormat (toInt64 (MinTimestamp tp));
     ChainLsResult_Blocks :=
       map (fun blk => mkBlockResult (BlockCid blk) (Miner blk)) (Blocks tp) |}.

(** A tip-set key the listing can show: the tip-set loads and has a
    height. *)
Definition listed (key : TipSetKey) (tp : TipSet) : Prop :=
  ChainGetTipSet key = (tp, None) /\ snd (Height tp) = None.

(** The tip-set the listing starts from: the head, or the tip-set at the
    requested height on the head's chain. *)
Definition lsStart (Options : gmap string OptionValue) : TipSet * error :=
  let height := fst (assertInt64 (Options !! "height")) in
  if Z.leb 0 height
  then ChainGetTipSetByHeight height (Key (fst ChainHead))
  else (fst ChainHead, None).

End Ls.

Arguments mkBlockResult {Cid Address} _ _.
Arguments BlockResult_Cid {Cid Address} _.
Arguments BlockResult_Miner {Cid Address} _.
Arguments mkChainLsResult {Cid Address} _ _ _.
Arguments ChainLsResult_Height {Cid Address} _.
Arguments ChainLsResult_Timestamp {Cid Address} _.
Arguments ChainLsResult_Blocks {Cid Address} _.

Section ExportCmd.

(** The file system as the command sees it: the contents of the files by
    path. [os.Create] fails for the paths [createErr] gives an error for
    and leaves the files alone then; otherwise it creates the file, or
    truncates it when it exists, and the handle is the path. *)
Variables Cid TipSetKey : Type.
Variable cidDecode : string -> Cid * error.
Variable NewTipSetKey : list Cid -> TipSetKey.
Variable createErr : gmap string (list Byte.byte) -> string -> error.

(** [ChainExport(ctx, key, f)]: the bytes it writes to [f] and its
    error. *)
Variable ChainExport : TipSetKey -> list Byte.byte * error.

Definition osCreate (name : string) (fs : gmap string (list Byte.byte))
    : string * error * gmap string (list Byte.byte) :=
  match createErr fs name with
  | Some err => (name, Some err, fs)
  | None => (name, None, <[ name := [] ]> fs)
  end.

(** Writing [p] at the end of the open file [f]. *)
Definition fileWrite (f : string) (p : list Byte.byte)
    (fs : gmap string (list Byte.byte)) : gmap string (list Byte.byte) :=
  alter (fun old => (old ++ p)%list) f fs.

(** [chainExportCmd.Run]: the file system it leaves and the error it
    returns; [None] is the panic of [req.Arguments[0]] on no argument.
    The deferred [f.Close()] does not change what the file holds. *)
Definition chainExportCmd_Run (Arguments : list string)
    (fs : gmap string (list Byte.byte))
    : option (gmap string (list Byte.byte) * error) :=
  match Arguments with
  | [] => None
  | file :: cids =>
      match osCreate file fs with
      | (_, Some err, fs) => Some (fs, Some err)
      | (f, None, fs) =>
          match Cmd.cidsFromSlice cidDecode cids with
          | (_, Some err) => Some (fs, Some err)
          | (expCids, None) =>
              let expKey := NewTipSetKey expCids in
              match ChainExport expKey with
              | (written, Some err) => Some (fileWrite f written fs, Some err)
              | (written, None) => Some (fileWrite f written fs, None)
              end
          end
      end
  end.

End ExportCmd.

Section GetBlock.

Variables Cid Block UnsignedMessage SignedMessage MessageReceipt Message : Type.
Variable UndefCid : Cid.
Variable cidDecode : string -> Cid * error.
Variable MessageCid : Message -> Cid.

(** What [ChainGetBlockMessages] points to. *)
Record BlockMessages := mkBlockMessages {
  BlsMessages : list UnsignedMessage;
  SecpkMessages : list SignedMessage
}.

(** The anonymous struct the command prints. *)
Record CBlock := mkCBlock {
  CBlock_Block : Block;
  CBlock_BlsMessages : list UnsignedMessage;
  CBlock_SecpkMessages : list SignedMessage;
  CBlock_ParentReceipts : list MessageReceipt;
  CBlock_ParentMessages : list Cid
}.

(** The chain API; a block and its messages come as pointers. *)
Variable ChainGetBlock : Cid -> option Block * error.
Variable ChainGetBlockMessages : Cid -> option BlockMessages * error.
Variable ChainGetParentMessages : Cid -> list Message * error.
Variable ChainGetParentReceipts : Cid -> list MessageReceipt * error.

(** [json.MarshalIndent(v, "", "  ")] on the block pointer and on the
    struct. *)
Variable marshalBlock : option Block -> string * error.
Variable marshalCBlock : CBlock -> string * error.

(** [apiMsgCids] *)
Definition apiMsgCids (input : list Message) : list Cid :=
  let out := replicate (length input) UndefCid in
  rangeFill MessageCid 0 input out.

(** [chainGetBlockCmd.Run]: the buffer handed to [re.Emit], if any, the
    error returned and what was logged as a warning. [None] is a panic:
    no argument, or a nil block or nil messages returned without an
    error. *)
Definition chainGetBlockCmd_Run (Arguments : list string)
    (Options : gmap string OptionValue) (Emit : string -> error)
    : option (option string * error * list string) :=
  match Arguments with
  | [] => None
  | arg0 :: _ =>
  match cidDecode arg0 with
  | (_, Some err) => Some (None, Some err, [])
  | (bcid, None) =>
  match ChainGetBlock bcid with
  | (_, Some err) => Some (None, Errorf ("get block failed: " ++ err), [])
  | (blk, None) =>
  let writer := Cmd.NewSilentWriter "" in
  if snd (assertBool (Options !! "raw")) then
    match marshalBlock blk with
    | (_, Some err) => Some (None, Some err, [])
    | (out, None) =>
        let writer := Write writer out in
        Some (Some (Cmd.w writer), Emit (Cmd.w writer), [])
    end
  else
  match ChainGetBlockMessages bcid with
  | (_, Some err) => Some (None, Errorf ("failed to get messages: " ++ err), [])
  | (msgs, None) =>
  match ChainGetParentMessages bcid with
  | (_, Some err) =>
      Some (None, Errorf ("failed to get parent messages: " ++ err), [])
  | (pmsgs, None) =>
  let '(recpts, err) := ChainGetParentReceipts bcid in
  let logged := match err with Some e => [e] | None => [] end in
  match blk, msgs with
  | Some blk, Some msgs =>
      let cblock := {| CBlock_Block := blk;
                       CBlock_BlsMessages := BlsMessages msgs;
                       CBlock_SecpkMessages := SecpkMessages msgs;
                       CBlock_ParentReceipts := recpts;
                       CBlock_ParentMessages := apiMsgCids pmsgs |} in
      match marshalCBlock cblock with
      | (_, Some err) => Some (None, Some err, logged)
      | (out, None) =>
          let writer := Write writer out in
          Some (Some (Cmd.w writer), Emit (Cmd.w writer), logged)
      end
  | _, _ => None
  end end end end end end.

End GetBlock.

End ChainCmds.

(** ** A small chain for the chain commands *)

Module ChainExamples.

Import Go ChainCmds.

(** Tip-sets of one block, one per height; the key of a tip-set is its
    height, a block is its CID and its miner, and a timestamp prints as
    its number of seconds. *)
Definition exBlocks (h : Z) : list (string * string) := [("bafy" ++ Itoa h, "f01")].
Definition exChainList (key count : Z) : list Z * error :=
  (map (fun i => key - Z.of_nat i) (seq 0 (Z.to_nat (Z.min count (key + 1)))),
   None).
Definition exLsRun (head : Z) (Options : gmap string OptionValue)
    (Emit : list (ChainLsResult string string) -> error)
    : option (list (ChainLsResult string string)) * error :=
  chainLsCmd_Run string string Z Z (string * string) "" "" fst snd
    (fun h => (h, None)) (fun h => 1600000000 + 30 * h) exBlocks (fun h => h)
    Itoa (head, None) (fun h key => (h, None)) exChainList
    (fun key => (key, None)) Options Emit.
Definition exLsOptions : gmap string OptionValue :=
  {[ "count" := OptUint 2; "height" := OptInt64 (-1) ]}.
Definition exLsEntry (h : Z) : ChainLsResult string string :=
  mkChainLsResult h (Itoa (1600000000 + 30 * h))
    [mkBlockResult ("bafy" ++ Itoa h) "f01"].

(** A file system with one file, and an export that writes one byte. *)
Definition exFs : gmap string (list Byte.byte) :=
  {[ "chain.car" := [Byte.x01; Byte.x02] ]}.
Definition exExportRun (Arguments : list string)
    (fs : gmap string (list Byte.byte))
    : option (gmap string (list Byte.byte) * error) :=
  chainExportCmd_Run string (list string) Examples.exDecode (fun cids => cids)
    (fun fs name => None) (fun key => ([Byte.xff], None)) Arguments fs.

(** A node whose blocks are texts and print as they are. *)
Definition exGetBlock (receipts : string -> list Z * error)
    (Arguments : list string) (Options : gmap string OptionValue)
    : option (option string * error * list string) :=
  chainGetBlockCmd_Run string string string string Z string ""
    Examples.exDecode (fun m => m)
    (fun c => (Some ("block " ++ c), None))
    (fun c => (Some (mkBlockMessages string string [] []), None))
    (fun c => ([], None)) receipts
    (fun blk => (match blk with Some b => b | None => "null" end, None))
    (fun cblock => (CBlock_Block _ _ _ _ _ cblock ++ " and messages", None))
    Arguments Options (fun _ => None).

End ChainExamples.

(** ** [MinerStateAPI]: the other state queries *)

Module MinerStateOps.

Import Go MinerState.

(** [big.Add]; on a nil operand the call panics, which is [None]. *)
Definition bigAdd (a b : BigInt) : option BigInt :=
  match a, b with
  | Big x, Big y => Some (Big (x + y))
  | _, _ => None
  end.

(** [power.Claim] and its zero value [power.Claim{}]. *)
Record Claim := mkClaim {
  RawBytePower : BigInt;
  QualityAdjPower : BigInt
}.

Definition zeroClaim : Claim :=
  {| RawBytePower := BigNil; QualityAdjPower := BigNil |}.

(** [power.MinerPower] *)
Record MinerPower := mkMinerPower {
  MinerPower_MinerPower : Claim;
  MinerPower_TotalPower : Claim;
  MinerPower_HasMinPower : bool
}.

Section Power.

(** The chain reader, the state store and the power and miner actor
    states, each a read of the node's state that is fixed during a call.
    [ParentStateRootAt0] is [ts.Blocks()[0].ParentStateRoot]. *)
Variables TipSetKey TipSet Cid Blockstore StateTree Actor Address : Type.
Variables PowerState MinerActorState : Type.
Context `{EqDecision Address}.
Variable Undef : Address.
Variable IsEmpty : TipSetKey -> bool.
Variable TipSetKeyString : TipSetKey -> string.
Variable AddressString : Address -> string.
Variable GetHead : TipSetKey.
Variable GetTipSet : TipSetKey -> TipSet * error.
Variable GetTipSetState : TipSetKey -> StateTree * error.
Variable Store : Blockstore.
Variable LoadState : Blockstore -> Cid -> StateTree * error.
Variable ParentStateRootAt0 : TipSet -> Cid.
Variable EnsureHeight : TipSet -> Z.
Variable GetActor : StateTree -> Address -> Actor * bool * error.
Variable LookupID : StateTree -> Address -> Address * error.
Variable powerAddress : Address.
Variable powerLoad : Blockstore -> Actor -> PowerState * error.
Variable TotalPower : PowerState -> Claim * error.
Variable MinerPowerOf : PowerState -> Address -> Claim * bool * error.
Variable MinerNominalPowerMeetsConsensusMinimum :
  PowerState -> Address -> bool * error.
Variable ListAllMiners : PowerState -> list Address * error.
Variable Balance : Actor -> BigInt.
Variable minerLoad : Blockstore -> Actor -> MinerActorState * error.
Variable VestedFunds : MinerActorState -> Z -> BigInt * error.
Variable AvailableBalance : MinerActorState -> BigInt -> BigInt * error.

(** [StateLookupID] *)
Definition StateLookupID (addr : Address) (tsk : TipSetKey) : Address * error :=
  let tsk := if IsEmpty tsk then GetHead else tsk in
  match GetTipSetState tsk with
  | (_, Some err) => (Undef, Errorf ("load state tree: " ++ err))
  | (state, None) => LookupID state addr
  end.

(** [StateListMiners] *)
Definition StateListMiners (tsk : TipSetKey) : list Address * error :=
  let tsk := if IsEmpty tsk then GetHead else tsk in
  match GetTipSet tsk with
  | (_, Some err) =>
      ([], Errorf ("loading tipset " ++ TipSetKeyString tsk ++ ": " ++ err))
  | (ts, None) =>
      let store := Store in
      match LoadState store (ParentStateRootAt0 ts) with
      | (_, Some err) => ([], Errorf ("loading state: " ++ err))
      | (state, None) =>
          match GetActor state powerAddress with
          | (_, _, Some err) =>
              ([], Errorf ("failed to load power actor: " ++ err))
          | (act, found, None) =>
              if negb found
              then ([], Errorf ("actor not found for " ++ AddressString powerAddress))
              else
                match powerLoad store act with
                | (_, Some err) =>
                    ([], Errorf ("failed to load power actor state: " ++ err))
                | (powState, None) => ListAllMiners powState
                end
          end
      end
  end.

(** [getPower] on the state root [st]. *)
Definition getPower (st : Cid) (maddr : Address)
    : Claim * Claim * bool * error :=
  let store := Store in
  match LoadState store st with
  | (_, Some err) =>
      (zeroClaim, zeroClaim, false, Errorf ("loading state: " ++ err))
  | (state, None) =>
      match GetActor state powerAddress with
      | (_, _, Some err) =>
          (zeroClaim, zeroClaim, false,
           Errorf ("failed to load power actor: " ++ err))
      | (act, found, None) =>
          if negb found
          then (zeroClaim, zeroClaim, false,
                Errorf ("actor not found for " ++ AddressString powerAddress))
          else
            match powerLoad store act with
            | (_, Some err) => (zeroClaim, zeroClaim, false, Some err)
            | (pas, None) =>
                match TotalPower pas with
                | (_, Some err) => (zeroClaim, zeroClaim, false, Some err)
                | (tpow, None) =>
                    (* var mpow power.Claim; var minpow bool *)
                    if negb (bool_decide (maddr = Undef)) then
                      match MinerPowerOf pas maddr with
                      | (mpow, found, err) =>
                          if missing found err
                          then (zeroClaim, zeroClaim, false, err)
                          else
                            match MinerNominalPowerMeetsConsensusMinimum pas maddr with
                            | (_, Some err) =>
                                (zeroClaim, zeroClaim, false, Some err)
                            | (minpow, None) => (mpow, tpow, minpow, None)
                            end
                      end
                    else (zeroClaim, tpow, false, None)
                end
            end
      end
  end.

(** [StateMinerPower]; the result is a pointer, nil on error. *)
Definition StateMinerPower (addr : Address) (tsk : TipSetKey)
    : option MinerPower * error :=
  let tsk := if IsEmpty tsk then GetHead else tsk in
  match GetTipSet tsk with
  | (_, Some err) =>
      (None, Errorf ("loading tipset " ++ TipSetKeyString tsk ++ ": " ++ err))
  | (ts, None) =>
      match getPower (ParentStateRootAt0 ts) addr with
      | (_, _, _, Some err) => (None, Some err)
      | (mp, net, hmp, None) =>
          (Some {| MinerPower_MinerPower := mp;
                   MinerPower_TotalPower := net;
                   MinerPower_HasMinPower := hmp |}, None)
      end
  end.

(** [StateMinerAvailableBalance] *)
Definition StateMinerAvailableBalance (maddr : Address) (tsk : TipSetKey)
    : Outcome BigInt :=
  let tsk := if IsEmpty tsk then GetHead else tsk in
  match GetTipSet tsk with
  | (_, Some err) =>
      Returns BigNil
        (Errorf ("loading tipset " ++ TipSetKeyString tsk ++ ": " ++ err))
  | (ts, None) =>
      let store := Store in
      match LoadState store (ParentStateRootAt0 ts) with
      | (_, Some err) => Returns BigNil (Errorf ("loading state: " ++ err))
      | (st, None) =>
          match GetActor st maddr with
          | (_, _, Some err) =>
              Returns BigNil (Errorf ("failed to load miner actor: " ++ err))
          | (act, found, None) =>
              if negb found
              then Returns BigNil
                     (Errorf ("actor not found for " ++ AddressString powerAddress))
              else
                match minerLoad store act with
                | (_, Some err) =>
                    Returns BigNil
                      (Errorf ("failed to load miner actor state: " ++ err))
                | (mas, None) =>
                    match VestedFunds mas (EnsureHeight ts) with
                    | (_, Some err) => Returns BigNil (Some err)
                    | (vested, None) =>
                        match AvailableBalance mas (Balance act) with
                        | (_, Some err) => Returns BigNil (Some err)
                        | (abal, None) =>
                            match bigAdd abal vested with
                            | None => Panics
                            | Some sum => Returns sum None
                            end
                        end
                    end
                end
          end
      end
  end.

(** The power actor state [getPower] reads under the state root [st]. *)
Definition powerStateAt (st : Cid) : PowerState :=
  fst (powerLoad Store
         (fst (fst (GetActor (fst (LoadState Store st)) powerAddress)))).

End Power.

Section View.

(** The state view of a tip-set and what the queries read from it; what
    a view returns as a pointer can be nil. *)
Variables TipSetKey View Address : Type.
Variable SectorPreCommitOnChainInfo : Type.
Variables MarketState Proposals States DealProposal DealState : Type.
Variable TipSetKeyString : TipSetKey -> string.
Variable ParentStateView : TipSetKey -> View * error.
Variable PreCommitInfo :
  View -> Address -> Z -> option SectorPreCommitOnChainInfo * error.
Variable zeroSectorPreCommitOnChainInfo : SectorPreCommitOnChainInfo.
Variable LoadMarketState : View -> MarketState * error.
Variable ProposalsOf : MarketState -> Proposals * error.
Variable ProposalsGet : Proposals -> Z -> option DealProposal * bool * error.
Variable StatesOf : MarketState -> States * error.
Variable StatesGet : States -> Z -> option DealState * bool * error.
Variable EmptyDealState : DealState.

(** [StateSectorPreCommitInfo] *)
Definition StateSectorPreCommitInfo (maddr : Address) (n : Z) (tsk : TipSetKey)
    : SectorPreCommitOnChainInfo * error :=
  match ParentStateView tsk with
  | (_, Some err) =>
      (zeroSectorPreCommitOnChainInfo,
       Errorf ("loading tipset " ++ TipSetKeyString tsk ++ ": " ++ err))
  | (view, None) =>
      match PreCommitInfo view maddr n with
      | (_, Some err) => (zeroSectorPreCommitOnChainInfo, Some err)
      | (None, None) =>
          (zeroSectorPreCommitOnChainInfo, Errorf "precommit info is not exists")
      | (Some pci, None) => (pci, None)
      end
  end.

(** [MarketDeal] *)
Record MarketDeal := mkMarketDeal {
  MarketDeal_Proposal : DealProposal;
  MarketDeal_State : DealState
}.

(** [StateMarketStorageDeal]; the result is a pointer, and dereferencing
    a nil proposal or a nil state that was reported as found panics. *)
Definition StateMarketStorageDeal (dealID : Z) (tsk : TipSetKey)
    : Outcome (option MarketDeal) :=
  match ParentStateView tsk with
  | (_, Some err) =>
      Returns None
        (Errorf ("loading view " ++ TipSetKeyString tsk ++ ": " ++ err))
  | (view, None) =>
  match LoadMarketState view with
  | (_, Some err) =>
      Returns None (Errorf ("failed to load miner actor state: " ++ err))
  | (mas, None) =>
  match ProposalsOf mas with
  | (_, Some err) => Returns None (Some err)
  | (proposals, None) =>
  match ProposalsGet proposals dealID with
  | (_, _, Some err) => Returns None (Some err)
  | (proposal, found, None) =>
  if negb found
  then Returns None (Errorf ("deal " ++ Itoa dealID ++ " not found"))
  else
  match StatesOf mas with
  | (_, Some err) => Returns None (Some err)
  | (states, None) =>
  match StatesGet states dealID with
  | (_, _, Some err) => Returns None (Some err)
  | (st, found, None) =>
  let st := if negb found then Some EmptyDealState else st in
  match proposal, st with
  | Some proposal, Some st =>
      Returns (Some {| MarketDeal_Proposal := proposal;
                       MarketDeal_State := st |}) None
  | _, _ => Panics
  end end end end end end end.

End View.

Arguments mkMarketDeal {DealProposal DealState} _ _.
Arguments MarketDeal_Proposal {DealProposal DealState} _.
Arguments MarketDeal_State {DealProposal DealState} _.

Section Pledge.

(** The collaborators of [StateMinerInitialPledgeCollateral]. *)
Variables TipSetKey TipSet Cid Blockstore StateTree Actor Address : Type.
Variables MarketState PowerState RewardState : Type.
Variables SealProof DealIDs SectorSize DealWeight StoragePower FilterEstimate : Type.

Variable Store : Blockstore.
Variable GetTipSet : TipSetKey -> TipSet * error.
Variable GetTipSetStateRoot : TipSetKey -> Cid * error.
Variable LoadState : Blockstore -> Cid -> StateTree * error.
Variable GetCirculatingSupplyDetailed : Z -> StateTree -> CirculatingSupply * error.
Variable EnsureHeight : TipSet -> Z.
Variable ParentStateRootAt0 : TipSet -> Cid.
Variable Key : TipSet -> TipSetKey.
Variable TipSetKeyString : TipSetKey -> string.

Variable GetActor : StateTree -> Address -> Actor * bool * error.
Variables marketAddress powerAddress rewardAddress : Address.
Variable AddressString : Address -> string.
Variable SealProofSectorSize : SealProof -> SectorSize * error.
Variable marketLoad : Blockstore -> Actor -> MarketState * error.
Variable VerifyDealsForActivation :
  MarketState -> Address -> DealIDs -> Z -> Z -> DealWeight * DealWeight * error.
Variable QAPowerForWeight : SectorSize -> Z -> DealWeight -> DealWeight -> StoragePower.
Variable powerLoad : Blockstore -> Actor -> PowerState * error.
Variable TotalPowerSmoothed : PowerState -> FilterEstimate * error.
Variable TotalLocked : PowerState -> BigInt * error.
Variable rewardLoad : Blockstore -> Actor -> RewardState * error.
Variable InitialPledgeForPower :
  RewardState -> StoragePower -> BigInt -> FilterEstimate -> BigInt
  -> BigInt * error.

(** [StateMinerInitialPledgeCollateral] *)
Definition StateMinerInitialPledgeCollateral (maddr : Address)
    (pci : SectorPreCommitInfo SealProof DealIDs) (tsk : TipSetKey)
    : Outcome BigInt :=
  match GetTipSet tsk with
  | (_, Some err) =>
      Returns BigNil
        (Errorf ("loading tipset " ++ TipSetKeyString tsk ++ ": " ++ err))
  | (ts, None) =>
  let store := Store in
  match LoadState store (ParentStateRootAt0 ts) with
  | (_, Some err) =>
      Returns BigNil
        (Errorf ("loading state " ++ TipSetKeyString tsk ++ ": " ++ err))
  | (state, None) =>
  match SealProofSectorSize (SealProof_ pci) with
  | (_, Some err) =>
      Returns BigNil (Errorf ("failed to get resolve size: " ++ err))
  | (ssize, None) =>
  (* var sectorWeight abi.StoragePower *)
  match GetActor state marketAddress with
  | (act, found, err) =>
  if missing found err then
    Returns BigNil
      (Errorf ("loading miner actor " ++ AddressString maddr ++ ": "
               ++ fmtError err))
  else
  match marketLoad store act with
  | (_, Some err) =>
      Returns BigNil
        (Errorf ("loading market actor state " ++ AddressString maddr
                 ++ ": " ++ err))
  | (s, None) =>
  match VerifyDealsForActivation s maddr (DealIDs_ pci)
          (EnsureHeight ts) (Expiration pci) with
  | (_, _, Some err) =>
      Returns BigNil (Errorf ("verifying deals for activation: " ++ err))
  | (w, vw, None) =>
  let duration := Expiration pci - EnsureHeight ts in
  let sectorWeight := QAPowerForWeight ssize duration w vw in
  (* var powerSmoothed builtin.FilterEstimate; var pledgeCollateral abi.TokenAmount *)
  match GetActor state powerAddress with
  | (act, found, err) =>
  if missing found err then
    Returns BigNil (Errorf ("loading miner actor: " ++ fmtError err))
  else
  match powerLoad store act with
  | (_, Some err) =>
      Returns BigNil (Errorf ("loading power actor state: " ++ err))
  | (s, None) =>
  match TotalPowerSmoothed s with
  | (_, Some err) =>
      Returns BigNil (Errorf ("failed to determine total power: " ++ err))
  | (p, None) =>
  match TotalLocked s with
  | (_, Some err) =>
      Returns BigNil (Errorf ("failed to determine pledge collateral: " ++ err))
  | (c, None) =>
  let powerSmoothed := p in
  let pledgeCollateral := c in
  match GetActor state rewardAddress with
  | (rewardActor, found, err) =>
  if missing found err then
    Returns BigNil (Errorf ("loading miner actor: " ++ fmtError err))
  else
  match rewardLoad store rewardActor with
  | (_, Some err) =>
      Returns BigNil (Errorf ("loading reward actor state: " ++ err))
  | (rewardState, None) =>
  match StateVMCirculatingSupplyInternal TipSetKey TipSet Cid Blockstore
          StateTree Store GetTipSet GetTipSetStateRoot LoadState
          GetCirculatingSupplyDetailed EnsureHeight (Key ts) with
  | (_, Some err) =>
      Returns bigZero (Errorf ("getting circulating supply: " ++ err))
  | (circSupply, None) =>
  match InitialPledgeForPower rewardState sectorWeight pledgeCollateral
          powerSmoothed (FilCirculating circSupply) with
  | (_, Some err) =>
      Returns bigZero (Errorf ("calculating initial pledge: " ++ err))
  | (initialPledge, None) =>
  match bigMul initialPledge initialPledgeNum with
  | None => Panics
  | Some product =>
  match bigDiv product initialPledgeDen with
  | None => Panics
  | Some quotient => Returns quotient None
  end end end end end end end end end end end end end end end end.

(** The call of [rewardState.InitialPledgeForPower] that
    [StateMinerInitialPledgeCollateral] makes once every earlier step has
    succeeded: with the sector weight, the locked pledge, the smoothed
    power and the circulating supply loaded on the way. *)
Definition initialPledge (maddr : Address)
    (pci : SectorPreCommitInfo SealProof DealIDs) (tsk : TipSetKey)
    : BigInt * error :=
  let store := Store in
  let ts := fst (GetTipSet tsk) in
  let state := fst (LoadState store (ParentStateRootAt0 ts)) in
  let ssize := fst (SealProofSectorSize (SealProof_ pci)) in
  let marketActor := fst (fst (GetActor state marketAddress)) in
  let s := fst (marketLoad store marketActor) in
  let verified := fst (VerifyDealsForActivation s maddr (DealIDs_ pci)
                         (EnsureHeight ts) (Expiration pci)) in
  let duration := Expiration pci - EnsureHeight ts in
  let sectorWeight := QAPowerForWeight ssize duration (fst verified) (snd verified) in
  let powerActor := fst (fst (GetActor state powerAddress)) in
  let powerState := fst (powerLoad store powerActor) in
  let powerSmoothed := fst (TotalPowerSmoothed powerState) in
  let pledgeCollateral := fst (TotalLocked powerState) in
  let rewardActor := fst (fst (GetActor state rewardAddress)) in
  let rewardState := fst (rewardLoad store rewardActor) in
  let circSupply :=
    fst (StateVMCirculatingSupplyInternal TipSetKey TipSet Cid Blockstore
           StateTree Store GetTipSet GetTipSetStateRoot LoadState
           GetCirculatingSupplyDetailed EnsureHeight (Key ts)) in
  InitialPledgeForPower rewardState sectorWeight pledgeCollateral powerSmoothed
    (FilCirculating circSupply).

End Pledge.

End MinerStateOps.

(** ** A small state for the miner state queries *)

Module MinerExamples.

Import Go MinerState MinerStateOps.

(** Tip-set keys, tip-sets, state roots, state trees and addresses are
    numbers; key 0 is the empty key and the head is key 9. The power table
    knows miner 7 only; an actor is its balance, and address 8 has none. *)
Definition exIsEmpty (tsk : Z) : bool := Z.eqb tsk 0.
Definition exGetActor (st addr : Z) : Z * bool * error :=
  if Z.eqb addr 8 then (0, false, None) else (100, true, None).
Definition exTotalPower (pas : unit) : Claim * error :=
  (mkClaim (Big 1000) (Big 2000), None).
Definition exMinerPowerOf (pas : unit) (addr : Z) : Claim * bool * error :=
  if Z.eqb addr 7 then (mkClaim (Big 10) (Big 20), true, None)
  else (zeroClaim, false, None).

Definition exStateMinerPower (addr tsk : Z) : option MinerPower * error :=
  StateMinerPower Z Z Z unit Z Z Z unit (-1) exIsEmpty Itoa Itoa 9
    (fun tsk => (tsk, None)) tt (fun _ root => (root, None)) (fun ts => ts)
    exGetActor 4 (fun _ _ => (tt, None)) exTotalPower exMinerPowerOf
    (fun _ _ => (true, None)) addr tsk.

Definition exStateMinerAvailableBalance (maddr tsk : Z) : Outcome BigInt :=
  StateMinerAvailableBalance Z Z Z unit Z Z Z Z exIsEmpty Itoa Itoa 9
    (fun tsk => (tsk, None)) tt (fun _ root => (root, None)) (fun ts => ts)
    (fun ts => ts) exGetActor 4 (fun act => Big act) (fun _ act => (act, None))
    (fun mas height => (Big (3 * height), None))
    (fun mas balance => (balance, None)) maddr tsk.

(** A view that holds a pre-commit info for sector 5 only, and a market
    with a proposal for deal 1 and no deal state. *)
Definition exPreCommitInfo (view : unit) (maddr n : Z) : option Z * error :=
  if Z.eqb n 5 then (Some 55, None) else (None, None).
Definition exStateSectorPreCommitInfo (maddr n tsk : Z) : Z * error :=
  StateSectorPreCommitInfo Z unit Z Z Itoa (fun _ => (tt, None))
    exPreCommitInfo 0 maddr n tsk.
Definition exProposalsGet (proposals : unit) (dealID : Z)
    : option string * bool * error :=
  if Z.eqb dealID 1 then (Some "proposal 1", true, None) else (None, false, None).
Definition exStatesGet (states : unit) (dealID : Z) : option Z * bool * error :=
  (None, false, None).
Definition exStateMarketStorageDeal (dealID tsk : Z)
    : Outcome (option (MarketDeal string Z)) :=
  StateMarketStorageDeal Z unit unit unit unit string Z Itoa
    (fun _ => (tt, None)) (fun _ => (tt, None)) (fun _ => (tt, None))
    exProposalsGet (fun _ => (tt, None)) exStatesGet (-1) dealID tsk.

(** A miner state API over a one-point chain: every load succeeds and the
    reward actor answers [pledge]. *)
Definition exPledgeAPI (pledge : BigInt * error) (maddr : unit)
    (pci : SectorPreCommitInfo unit unit) (tsk : unit) : Outcome BigInt :=
  StateMinerInitialPledgeCollateral
    unit unit unit unit unit unit unit unit unit unit unit unit unit unit unit unit
    tt (fun _ => (tt, None)) (fun _ => (tt, None)) (fun _ _ => (tt, None))
    (fun _ _ => (Examples.exSupply, None)) (fun _ => 7) (fun _ => tt)
    (fun _ => tt) (fun _ => "{}")
    (fun _ _ => (tt, true, None)) tt tt tt (fun _ => "f01")
    (fun _ => (tt, None)) (fun _ _ => (tt, None))
    (fun _ _ _ _ _ => (tt, tt, None)) (fun _ _ _ _ => tt)
    (fun _ _ => (tt, None)) (fun _ => (tt, None)) (fun _ => (Big 0, None))
    (fun _ _ => (tt, None)) (fun _ _ _ _ _ => pledge) maddr pci tsk.

End MinerExamples.

(** ** [cmd/go-filecoin/miner.go]: [miner set-price] *)

Module MinerCmds.

Import Go.

Section SetPrice.

(** Prices, the parser of a FIL amount, [big.NewInt(0).SetString(s, 10)]
    ([None] when the text is no integer), the method [Uint64] of the
    arbitrary-precision integer it yields, the storage
    API whose [AddAsk] changes the node, and the block API. The error
    [ErrInvalidPrice] is declared in another file of the package. *)
Variables AttoFIL Address Storage : Type.
Variable NewAttoFILFromFILString : string -> AttoFIL * bool.
Variable SetString10 : string -> option Z.
Variable Uint64 : Z -> Z.
Variable ErrInvalidPrice : string.
Variable AddAsk : AttoFIL -> Z -> AttoFIL -> Storage -> Storage * error.
Variable MinerAddress : Address * error.

(** [MinerSetPriceResult] *)
Record MinerSetPriceResult := mkMinerSetPriceResult {
  MinerSetPriceResult_MinerAddress : Address;
  MinerSetPriceResult_Price : AttoFIL
}.

(** [minerSetPriceCmd.Run]: the node it leaves, what it emits, if
    anything, and the error it returns; [None] is the panic of indexing
    [req.Arguments] past its end. *)
Definition minerSetPriceCmd_Run (Arguments : list string)
    (Emit : MinerSetPriceResult -> error) (storage : Storage)
    : option (Storage * option MinerSetPriceResult * error) :=
  match Arguments !! 0%nat with
  | None => None
  | Some arg0 =>
  let '(price, ok) := NewAttoFILFromFILString arg0 in
  if negb ok then Some (storage, None, Some ErrInvalidPrice)
  else
  match Arguments !! 0%nat with
  | None => None
  | Some arg0 =>
  let '(verifiedPrice, ok) := NewAttoFILFromFILString arg0 in
  if negb ok then Some (storage, None, Some ErrInvalidPrice)
  else
  match Arguments !! 1%nat with
  | None => None
  | Some arg1 =>
  match SetString10 arg1 with
  | None => Some (storage, None, Some "expiry must be a valid integer")
  | Some expiry =>
  match AddAsk price (ChainCmds.toInt64 (Uint64 expiry)) verifiedPrice storage with
  | (storage, Some err) => Some (storage, None, Some err)
  | (storage, None) =>
  match MinerAddress with
  | (_, Some err) => Some (storage, None, Some err)
  | (minerAddr, None) =>
      let result := {| MinerSetPriceResult_MinerAddress := minerAddr;
                       MinerSetPriceResult_Price := price |} in
      Some (storage, Some result, Emit result)
  end end end end end end.

End SetPrice.

Arguments mkMinerSetPriceResult {AttoFIL Address} _ _.
Arguments MinerSetPriceResult_MinerAddress {AttoFIL Address} _.
Arguments MinerSetPriceResult_Price {AttoFIL Address} _.

(** A node whose prices are numbers written in unary, whose asks are
    recorded in a list and whose block API knows no miner address. *)
Definition exPrice (s : string) : Z * bool :=
  if String.eqb s "" then (0, false) else (Z.of_nat (String.length s), true).
Definition exSetPrice (minerAddress : string * error) (Arguments : list string)
    (storage : list (Z * Z * Z))
    : option (list (Z * Z * Z) * option (MinerSetPriceResult Z string) * error) :=
  minerSetPriceCmd_Run Z string (list (Z * Z * Z)) exPrice
    (fun s => if String.eqb s "" then None else Some (Z.of_nat (String.length s)))
    (fun z => z) "invalid price"
    (fun price expiry verified asks => ((price, expiry, verified) :: asks, None))
    minerAddress Arguments (fun _ => None) storage.

End MinerCmds.

(** * Properties *)

(** ** [MemRepo.SetAPIToken] *)

Module RepoProps.

Import Repo.

Section Props.

Variables Config Datastore Keystore : Type.
Implicit Types mr : MemRepo Config Datastore Keystore.
Implicit Types tok : list Byte.byte.

Lemma SetAPIToken_error mr tok : snd (SetAPIToken mr tok) = None.
Proof. unfold SetAPIToken. now destruct (Z.eqb _ _). Qed.

Lemma SetAPIToken_unset mr tok :
  token mr = [] -> token (fst (SetAPIToken mr tok)) = tok.
Proof. intros Hunset. unfold SetAPIToken. rewrite Hunset. reflexivity. Qed.

Lemma SetAPIToken_set mr tok :
  token mr <> [] -> fst (SetAPIToken mr tok) = mr.
Proof.
  unfold SetAPIToken. destruct (token mr) as [|b bs] eqn:E; [congruence|].
  intros _. cbn [length]. now destruct (Z.eqb_spec (Z.of_nat (S (length bs))) 0); [lia|].
Qed.

Lemma SetAPIToken_calls_cons mr tok toks :
  SetAPIToken_calls mr (tok :: toks) =
  (fst (SetAPIToken_calls (fst (SetAPIToken mr tok)) toks),
   snd (SetAPIToken mr tok) :: snd (SetAPIToken_calls (fst (SetAPIToken mr tok)) toks)).
Proof.
  cbn [SetAPIToken_calls]. destruct (SetAPIToken mr tok) as [mr1 e].
  cbn [fst snd]. now destruct (SetAPIToken_calls mr1 toks).
Qed.

Lemma SetAPIToken_calls_errors toks : forall mr,
  Forall (eq None) (snd (SetAPIToken_calls mr toks)).
Proof.
  induction toks as [|tok toks IH]; intros mr.
  - constructor.
  - rewrite SetAPIToken_calls_cons. cbn [snd]. constructor.
    + symmetry. apply SetAPIToken_error.
    + apply IH.
Qed.

Lemma SetAPIToken_calls_set toks : forall mr,
  token mr <> [] -> fst (SetAPIToken_calls mr toks) = mr.
Proof.
  induction toks as [|tok toks IH]; intros mr Hset; [reflexivity|].
  rewrite SetAPIToken_calls_cons. cbn [fst].
  rewrite (SetAPIToken_set mr tok Hset). now apply IH.
Qed.

Lemma SetAPIToken_calls_unset toks : forall mr,
  token mr = [] ->
  token (fst (SetAPIToken_calls mr toks)) = first_nonempty toks.
Proof.
  induction toks as [|tok toks IH]; intros mr Hunset; [exact Hunset|].
  rewrite SetAPIToken_calls_cons. cbn [fst].
  pose proof (SetAPIToken_unset mr tok Hunset) as Htok.
  destruct tok as [|b bs].
  - cbn [first_nonempty]. now apply IH.
  - cbn [first_nonempty]. rewrite SetAPIToken_calls_set; [exact Htok|].
    now rewrite Htok.
Qed.

End Props.

(** C9. On a repo whose token is still empty, after any sequence of
    [SetAPIToken] calls the stored token is the first non-empty argument
    of the sequence (empty when there was none), every call returned nil,
    and once that token is non-empty one more call, whatever its argument,
    returns nil and leaves the repo as it is. *)
Theorem SetAPIToken_first_write_wins :
  forall (Config Datastore Keystore : Type)
         (mr : MemRepo Config Datastore Keystore)
         (toks : list (list Byte.byte)),
    token mr = [] ->
    token (fst (SetAPIToken_calls mr toks)) = first_nonempty toks
    /\ Forall (eq None) (snd (SetAPIToken_calls mr toks))
    /\ (first_nonempty toks <> [] ->
        forall tok, SetAPIToken (fst (SetAPIToken_calls mr toks)) tok
                    = (fst (SetAPIToken_calls mr toks), None)).
Proof.
  intros Config Datastore Keystore mr toks Hunset.
  pose proof (SetAPIToken_calls_unset _ _ _ toks mr Hunset) as Htok.
  split; [exact Htok|]. split; [apply SetAPIToken_calls_errors|].
  intros Hne tok.
  rewrite (surjective_pairing (SetAPIToken _ tok)).
  rewrite SetAPIToken_error, SetAPIToken_set; [reflexivity|].
  now rewrite Htok.
Qed.

(** The theorem at a fresh in-memory repo and the calls [[]], [[1]], [[2]]:
    the token ends up as [[1]]. *)
Lemma SetAPIToken_first_write_wins_witness :
  token (fst (SetAPIToken_calls
                (NewInMemoryRepo unit unit unit tt tt tt 1%N)
                [[]; [Byte.x01]; [Byte.x02]])) = [Byte.x01]
  /\ SetAPIToken (fst (SetAPIToken_calls
                         (NewInMemoryRepo unit unit unit tt tt tt 1%N)
                         [[]; [Byte.x01]; [Byte.x02]])) [Byte.x02]
     = (fst (SetAPIToken_calls
               (NewInMemoryRepo unit unit unit tt tt tt 1%N)
               [[]; [Byte.x01]; [Byte.x02]]), None).
Proof.
  destruct (SetAPIToken_first_write_wins unit unit unit
              (NewInMemoryRepo unit unit unit tt tt tt 1%N)
              [[]; [Byte.x01]; [Byte.x02]] eq_refl)
    as (Htok & _ & Hkeep).
  split; [exact Htok|]. apply Hkeep. discriminate.
Defined.

End RepoProps.

(** ** [chainStatusCmd] *)

Module CmdProps.

Import Go Cmd Examples.

(** *** Strings *)

Lemma string_app_cons (a : ascii) (s t : string) :
  String a s ++ t = String a (s ++ t).
Proof. reflexivity. Qed.

Lemma string_app_assoc (s t u : string) : (s ++ t) ++ u = s ++ t ++ u.
Proof.
  induction s as [|a s IH]; [reflexivity|].
  rewrite !string_app_cons. now rewrite IH.
Qed.

Lemma string_app_nil_r (s : string) : s ++ "" = s.
Proof.
  induction s as [|a s IH]; [reflexivity|].
  rewrite string_app_cons. now rewrite IH.
Qed.

Lemma Contains_trans (t s r : string) :
  Contains t s -> Contains s r -> Contains t r.
Proof.
  intros (p1 & q1 & ->) (p2 & q2 & ->).
  exists (p1 ++ p2), (q2 ++ q1). now rewrite !string_app_assoc.
Qed.

Ltac string_norm := rewrite ?string_app_assoc, ?string_app_nil_r.

(** *** The writer *)

Lemma Println_ok (sw : SilentWriter) (a : list Operand) :
  err sw = None ->
  Println sw a = {| w := w sw ++ Sprintln a; err := None |}.
Proof. unfold Println. now intros ->. Qed.

Section Status.

Variable TipSet : Type.
Variable EnsureHeight : TipSet -> Z.
Variable KeyString : TipSet -> string.

Local Abbreviation Target := (Target TipSet).
Local Abbreviation TargetTracker := (TargetTracker TipSet).
Local Abbreviation targetBlock := (targetBlock EnsureHeight KeyString).
Local Abbreviation targetBlockWith := (targetBlockWith EnsureHeight KeyString).
Local Abbreviation targetBlocks := (targetBlocks EnsureHeight KeyString).
Local Abbreviation bucketBody := (bucketBody EnsureHeight KeyString).
Local Abbreviation bucketLoop := (bucketLoop EnsureHeight KeyString).
Local Abbreviation historyBody := (historyBody EnsureHeight KeyString).
Local Abbreviation historyLoop := (historyLoop EnsureHeight KeyString).
Local Abbreviation chainStatusCmd_Run := (chainStatusCmd_Run EnsureHeight KeyString).

Lemma statusLine_eqb (t : Target) :
  (if negb (SyncStateStage_eqb (State t) StageIdle)
   then tab ++ "Status:Syncing" else tab ++ "Status:Wait") ++ nl
  = statusLine t.
Proof. unfold statusLine, statusWait, statusSyncing. destruct (State t); now string_norm. Qed.

Lemma bucketBody_ok (buf : string) (index : Z) (t : Target) :
  bucketBody {| w := buf; err := None |} index t
  = {| w := buf ++ targetBlock (index + 1) t; err := None |}.
Proof.
  unfold bucketBody, Cmd.targetBlock, Cmd.targetBlockWith, currentLine, errLine.
  rewrite <- statusLine_eqb.
  destruct (Current t) as [cur|];
    destruct (negb (SyncStateStage_eqb (State t) StageIdle));
    repeat (rewrite Println_ok by reflexivity; cbn [w err]);
    unfold Sprintln; cbn [sepOperands fmtOperand];
    f_equal; string_norm; reflexivity.
Qed.

Lemma bucketLoop_ok (targets : list Target) : forall (buf : string) (index : Z),
  bucketLoop {| w := buf; err := None |} index targets
  = {| w := buf ++ targetBlocks (index + 1) targets; err := None |}.
Proof.
  induction targets as [|t rest IH]; intros buf index; cbn [Cmd.bucketLoop Cmd.targetBlocks].
  - now string_norm.
  - rewrite bucketBody_ok, IH. now string_norm.
Qed.

Lemma historyBody_ok (buf : string) (count : Z) (t : Target) :
  historyBody {| w := buf; err := None |} count t
  = ({| w := buf ++ targetBlock (count + 1) t; err := None |}, count + 1).
Proof.
  unfold historyBody, Cmd.targetBlock, Cmd.targetBlockWith, currentLine, errLine.
  rewrite <- statusLine_eqb.
  destruct (Current t) as [cur|];
    destruct (negb (SyncStateStage_eqb (State t) StageIdle));
    repeat (rewrite Println_ok by reflexivity; cbn [w err]);
    unfold Sprintln; cbn [sepOperands fmtOperand];
    f_equal; f_equal; string_norm; reflexivity.
Qed.

Lemma historyLoop_ok (history : list Target) : forall (buf : string) (count : Z),
  historyLoop {| w := buf; err := None |} count history
  = ({| w := buf ++ targetBlocks (count + 1) history; err := None |},
     count + Z.of_nat (length history)).
Proof.
  induction history as [|t rest IH]; intros buf count;
    cbn [Cmd.historyLoop Cmd.targetBlocks length].
  - string_norm. f_equal. lia.
  - rewrite historyBody_ok, IH. string_norm. f_equal. lia.
Qed.

Lemma targetBlocks_app (ts1 ts2 : list Target) : forall n : Z,
  targetBlocks n (ts1 ++ ts2)
  = targetBlocks n ts1 ++ targetBlocks (n + Z.of_nat (length ts1)) ts2.
Proof.
  induction ts1 as [|t rest IH]; intros n; cbn [app Cmd.targetBlocks length].
  - replace (n + Z.of_nat 0) with n by lia. reflexivity.
  - rewrite IH. string_norm.
    replace (n + 1 + Z.of_nat (length rest)) with (n + Z.of_nat (S (length rest)))
      by lia.
    reflexivity.
Qed.

Lemma chainStatusCmd_Run_blocks (tracker : TargetTracker) (Emit : string -> error) :
  fst (chainStatusCmd_Run tracker Emit)
  = targetBlocks 1 (Buckets tracker ++ History tracker).
Proof.
  unfold Cmd.chainStatusCmd_Run, NewSilentWriter.
  rewrite bucketLoop_ok, historyLoop_ok. cbn [w].
  rewrite targetBlocks_app.
  replace (1 + Z.of_nat (length (Buckets tracker)))
    with (Z.of_nat (length (Buckets tracker)) + 1) by lia.
  destruct (Emit _); reflexivity.
Qed.

Lemma targetBlocks_imap (ts : list Target) : forall n : Z,
  targetBlocks n ts
  = foldr String.append "" (imap (fun i t => targetBlock (n + Z.of_nat i) t) ts).
Proof.
  induction ts as [|t rest IH]; intros n; [reflexivity|].
  cbn [Cmd.targetBlocks imap foldr]. rewrite IH. f_equal.
  - f_equal. lia.
  - f_equal. apply imap_ext. intros i x _. cbn. f_equal. lia.
Qed.

Lemma targetBlocks_lookup (ts : list Target) (i : nat) (t : Target) (n : Z) :
  ts !! i = Some t ->
  targetBlocks n ts
  = targetBlocks n (take i ts) ++ targetBlock (n + Z.of_nat i) t
    ++ targetBlocks (n + Z.of_nat i + 1) (drop (S i) ts).
Proof.
  intros Hi. pose proof (lookup_lt_Some _ _ _ Hi) as Hlt.
  rewrite <- (take_drop_middle ts i t Hi) at 1.
  rewrite targetBlocks_app, length_take, Nat.min_l by lia.
  reflexivity.
Qed.

Lemma targetBlocks_In (ts : list Target) (t : Target) : forall n : Z,
  In t ts -> exists m, Contains (targetBlocks n ts) (targetBlock m t).
Proof.
  induction ts as [|t0 rest IH]; intros n Hin; [destruct Hin|].
  destruct Hin as [->|Hin].
  - exists n. exists "", (targetBlocks (n + 1) rest). reflexivity.
  - destruct (IH (n + 1) Hin) as (m & pre & post & E). exists m.
    exists (targetBlock n t0 ++ pre), post.
    cbn [Cmd.targetBlocks]. rewrite E. now string_norm.
Qed.

Lemma targetBlock_errLine (n : Z) (t : Target) :
  Contains (targetBlock n t) (tab ++ "Err: " ++ fmtError (Err t) ++ nl).
Proof.
  exists ("SyncTarget: " ++ Itoa n ++ nl
          ++ tab ++ "Base: " ++ Itoa (EnsureHeight (Base t)) ++ " "
          ++ KeyString (Base t) ++ nl
          ++ tab ++ "Target: " ++ Itoa (EnsureHeight (Head t)) ++ " "
          ++ KeyString (Head t) ++ nl
          ++ currentLine EnsureHeight KeyString t ++ statusLine t), nl.
  unfold Cmd.targetBlock, Cmd.targetBlockWith, errLine.
  now rewrite !string_app_assoc.
Qed.

Lemma chainStatus_block_at (tracker : TargetTracker) (Emit : string -> error)
    (i : nat) (t : Target) :
  (Buckets tracker ++ History tracker)%list !! i = Some t ->
  fst (chainStatusCmd_Run tracker Emit)
  = targetBlocks 1 (take i (Buckets tracker ++ History tracker)%list)
    ++ targetBlock (Z.of_nat i + 1) t
    ++ targetBlocks (Z.of_nat i + 2) (drop (S i) (Buckets tracker ++ History tracker)%list).
Proof.
  intros Hi. rewrite chainStatusCmd_Run_blocks.
  rewrite (targetBlocks_lookup _ i t 1 Hi).
  replace (1 + Z.of_nat i) with (Z.of_nat i + 1) by lia.
  replace (Z.of_nat i + 1 + 1) with (Z.of_nat i + 2) by lia.
  reflexivity.
Qed.

End Status.

(** C1. For every Target in the tracker's History the text the command emits
    contains the line made of a tab, [Err:], a space, the Target's error as
    [fmt] prints it and a newline; for a Target that recorded an error this
    is its error string verbatim. *)
Theorem chainStatus_history_err_visible :
  forall (TipSet : Type) (EnsureHeight : TipSet -> Z) (KeyString : TipSet -> string)
         (tracker : TargetTracker TipSet) (Emit : string -> error)
         (t : Target TipSet),
    In t (History tracker) ->
    Contains (fst (chainStatusCmd_Run EnsureHeight KeyString tracker Emit))
             (tab ++ "Err: " ++ fmtError (Err t) ++ nl)
    /\ forall msg : string,
         Err t = Some msg ->
         Contains (fst (chainStatusCmd_Run EnsureHeight KeyString tracker Emit))
                  (tab ++ "Err: " ++ msg ++ nl).
Proof.
  intros TipSet EnsureHeight KeyString tracker Emit t Hin.
  assert (Contains (fst (chainStatusCmd_Run EnsureHeight KeyString tracker Emit))
                   (tab ++ "Err: " ++ fmtError (Err t) ++ nl)) as Hc.
  { rewrite chainStatusCmd_Run_blocks.
    destruct (targetBlocks_In _ EnsureHeight KeyString
                (Buckets tracker ++ History tracker) t 1) as (m & Hm).
    - apply in_or_app. now right.
    - eapply Contains_trans; [exact Hm|]. apply targetBlock_errLine. }
  split; [exact Hc|]. intros msg Hmsg. now rewrite Hmsg in Hc.
Qed.

Lemma chainStatus_history_err_visible_witness :
  Contains (fst (chainStatusCmd_Run exHeight exKey exTracker (fun _ => None)))
           (tab ++ "Err: " ++ "state root mismatch" ++ nl).
Proof.
  refine (proj2 (chainStatus_history_err_visible exTipSet exHeight exKey exTracker
                   (fun _ => None) exFailed _) "state root mismatch" eq_refl).
  cbn. right. left. reflexivity.
Defined.

(** What the status line of a block is. The Target at position [i] of the
    active Targets followed by the History is printed as block number
    [i + 1], and the status line of that block is [Status:Wait] when the
    Target is Idle and [Status:Syncing] in every other state; two Targets
    that differ only in their state, neither of them Idle, are printed
    alike. *)
Lemma chainStatus_status_wait_or_syncing :
  forall (TipSet : Type) (EnsureHeight : TipSet -> Z) (KeyString : TipSet -> string)
         (tracker : TargetTracker TipSet) (Emit : string -> error)
         (i : nat) (t : Target TipSet),
    (Buckets tracker ++ History tracker)%list !! i = Some t ->
    fst (chainStatusCmd_Run EnsureHeight KeyString tracker Emit)
    = targetBlocks EnsureHeight KeyString 1
        (take i (Buckets tracker ++ History tracker)%list)
      ++ targetBlockWith EnsureHeight KeyString
           (match State t with
            | StageIdle => tab ++ "Status:Wait" ++ nl
            | _ => tab ++ "Status:Syncing" ++ nl
            end) (Z.of_nat i + 1) t
      ++ targetBlocks EnsureHeight KeyString (Z.of_nat i + 2)
           (drop (S i) (Buckets tracker ++ History tracker)%list)
    /\ forall (s : SyncStateStage) (n : Z),
         State t <> StageIdle -> s <> StageIdle ->
         targetBlock EnsureHeight KeyString n
           (mkTarget s (Base t) (Current t) (Err t) (Head t))
         = targetBlock EnsureHeight KeyString n t.
Proof.
  intros TipSet EnsureHeight KeyString tracker Emit i t Hi. split.
  - rewrite (chainStatus_block_at _ EnsureHeight KeyString tracker Emit i t Hi).
    unfold targetBlock, statusLine, statusWait, statusSyncing.
    now destruct (State t).
  - intros s n Ht Hs. unfold targetBlock, targetBlockWith, statusLine, currentLine, errLine.
    cbn [State Base Current Err Head].
    destruct (State t), s; congruence.
Qed.

(** C2. The command does not report the state of a Target. A tracker whose
    one active Target is Fetching and a tracker whose one active Target is
    Validating, the Targets alike in every other field, give the same
    output, whose status line is [Status:Syncing]; and a Complete Target in
    History is printed with [Status:Syncing] too. *)
Theorem chainStatus_fetching_prints_as_validating :
  State exFetching <> State exValidatingSame
  /\ statusOutput exHeight exKey (mkTracker [exFetching] [])
     = statusOutput exHeight exKey (mkTracker [exValidatingSame] [])
  /\ statusOutput exHeight exKey (mkTracker [exFetching] [])
     = "SyncTarget: 1" ++ nl
       ++ tab ++ "Base: 10 {bafy1}" ++ nl
       ++ tab ++ "Target: 15 {bafy3}" ++ nl
       ++ tab ++ "Current: 12 {bafy2}" ++ nl
       ++ tab ++ "Status:Syncing" ++ nl
       ++ tab ++ "Err: <nil>" ++ nl
       ++ nl
  /\ statusOutput exHeight exKey (mkTracker [] [exComplete])
     = targetBlockWith exHeight exKey statusSyncing 1 exComplete.
Proof.
  split; [discriminate|]. split; [reflexivity|]. split; reflexivity.
Qed.

(** C5. The text the command emits is the blocks of the active Targets, in
    bucket order, followed by the blocks of the History, in list order, and
    nothing else; the block at position [i] of that sequence carries the
    number [i + 1]. *)
Theorem chainStatus_enumerates_active_then_history :
  forall (TipSet : Type) (EnsureHeight : TipSet -> Z) (KeyString : TipSet -> string)
         (tracker : TargetTracker TipSet) (Emit : string -> error),
    fst (chainStatusCmd_Run EnsureHeight KeyString tracker Emit)
    = foldr String.append ""
        (imap (fun i t => targetBlock EnsureHeight KeyString (Z.of_nat i + 1) t)
              (Buckets tracker ++ History tracker))
    /\ fst (chainStatusCmd_Run EnsureHeight KeyString tracker Emit)
       = targetBlocks EnsureHeight KeyString 1 (Buckets tracker)
         ++ targetBlocks EnsureHeight KeyString
              (Z.of_nat (length (Buckets tracker)) + 1) (History tracker).
Proof.
  intros TipSet EnsureHeight KeyString tracker Emit.
  rewrite chainStatusCmd_Run_blocks. split.
  - rewrite targetBlocks_imap. f_equal. apply imap_ext. intros i t _. cbn.
    f_equal. lia.
  - rewrite targetBlocks_app. do 2 f_equal. lia.
Qed.

(** C6. The Target at position [i] is printed as block number [i + 1]
    whatever its [Current]; when [Current] is nil its line in that block is
    a tab, [Current:] and a newline, and when it is a tip-set the line
    carries that tip-set's height and key. *)
Theorem chainStatus_current_nil_safe :
  forall (TipSet : Type) (EnsureHeight : TipSet -> Z) (KeyString : TipSet -> string)
         (tracker : TargetTracker TipSet) (Emit : string -> error)
         (i : nat) (t : Target TipSet),
    (Buckets tracker ++ History tracker)%list !! i = Some t ->
    fst (chainStatusCmd_Run EnsureHeight KeyString tracker Emit)
    = targetBlocks EnsureHeight KeyString 1
        (take i (Buckets tracker ++ History tracker)%list)
      ++ ("SyncTarget: " ++ Itoa (Z.of_nat i + 1) ++ nl
          ++ tab ++ "Base: " ++ Itoa (EnsureHeight (Base t)) ++ " "
          ++ KeyString (Base t) ++ nl
          ++ tab ++ "Target: " ++ Itoa (EnsureHeight (Head t)) ++ " "
          ++ KeyString (Head t) ++ nl
          ++ match Current t with
             | None => tab ++ "Current:" ++ nl
             | Some cur =>
                 tab ++ "Current: " ++ Itoa (EnsureHeight cur) ++ " "
                 ++ KeyString cur ++ nl
             end
          ++ statusLine t ++ errLine t ++ nl)
      ++ targetBlocks EnsureHeight KeyString (Z.of_nat i + 2)
           (drop (S i) (Buckets tracker ++ History tracker)%list).
Proof.
  intros TipSet EnsureHeight KeyString tracker Emit i t Hi.
  rewrite (chainStatus_block_at _ EnsureHeight KeyString tracker Emit i t Hi).
  reflexivity.
Qed.

Lemma chainStatus_current_nil_safe_witness :
  Contains (fst (chainStatusCmd_Run exHeight exKey exTracker (fun _ => None)))
           ("SyncTarget: 1" ++ nl
            ++ tab ++ "Base: 10 {bafy1}" ++ nl
            ++ tab ++ "Target: 20 {bafy4}" ++ nl
            ++ tab ++ "Current:" ++ nl
            ++ tab ++ "Status:Wait" ++ nl
            ++ tab ++ "Err: <nil>" ++ nl ++ nl).
Proof.
  eexists _, _.
  exact (chainStatus_current_nil_safe exTipSet exHeight exKey exTracker
           (fun _ => None) 0%nat exIdle eq_refl).
Defined.

End CmdProps.

(** ** [chainSetHeadCmd] *)

Module SetHeadProps.

Import Go Cmd Examples.

Section SetHead.

Variables Cid TipSetKey TipSet ChainStore : Type.
Variable cidDecode : string -> Cid * error.
Variable NewTipSetKey : list Cid -> TipSetKey.

Local Abbreviation good := (fun arg : string => snd (cidDecode arg) = None).
Local Abbreviation decoded := (map (fun arg : string => fst (cidDecode arg))).

Lemma good_or_bad (args : list string) :
  Forall good args \/ Exists (badCid cidDecode) args.
Proof.
  induction args as [|arg rest [IH|IH]].
  - left. constructor.
  - unfold badCid. destruct (snd (cidDecode arg)) eqn:E.
    + right. left. unfold badCid. now rewrite E.
    + left. now constructor.
  - right. now right.
Qed.

Lemma good_not_bad (args : list string) :
  Forall good args -> Exists (badCid cidDecode) args -> False.
Proof.
  intros Hgood Hbad. apply Exists_exists in Hbad as (arg & Hin & Hbad).
  rewrite Forall_forall in Hgood. exact (Hbad (Hgood arg Hin)).
Qed.

Lemma cidsFromSlice_good (args : list string) :
  Forall good args -> cidsFromSlice cidDecode args = (decoded args, None).
Proof.
  induction 1 as [|arg rest Harg _ IH]; [reflexivity|].
  cbn [cidsFromSlice map]. rewrite IH.
  destruct (cidDecode arg) as [c e]. cbn in Harg. now subst e.
Qed.

Lemma cidsFromSlice_bad (args : list string) :
  Exists (badCid cidDecode) args ->
  exists err, cidsFromSlice cidDecode args = ([], Some err).
Proof.
  induction args as [|arg rest IH]; intros Hbad; [inversion Hbad|].
  cbn [cidsFromSlice]. destruct (cidDecode arg) as [c [e|]] eqn:E.
  - now exists e.
  - destruct IH as (err & ->); [|now exists err].
    inversion Hbad as [? ? Harg|]; [|assumption].
    unfold badCid in Harg. rewrite E in Harg. now destruct Harg.
Qed.

End SetHead.

(** C3. When every argument decodes, the command's result (the error and
    the store it leaves) is exactly that of [ChainSetHead] on the key built
    by [NewTipSetKey] from the decoded CIDs, in argument order; when some
    argument does not decode, the command returns that decoding error and
    leaves the store as it was. So the command fails exactly when a CID
    fails to parse or [ChainSetHead] fails, and its result depends on no
    other method of the API: it neither reads the head nor any tip-set. *)
Theorem chainSetHead_hands_key_to_ChainSetHead :
  forall (Cid TipSetKey TipSet ChainStore : Type)
         (cidDecode : string -> Cid * error)
         (NewTipSetKey : list Cid -> TipSetKey)
         (api : ChainAPI TipSetKey TipSet ChainStore)
         (args : list string) (store : ChainStore),
    (Forall (fun arg => snd (cidDecode arg) = None) args ->
     chainSetHeadCmd_Run cidDecode NewTipSetKey api args store
     = ChainSetHead api
         (NewTipSetKey (map (fun arg => fst (cidDecode arg)) args)) store)
    /\ (Exists (badCid cidDecode) args ->
        exists err,
          chainSetHeadCmd_Run cidDecode NewTipSetKey api args store
          = (store, Some err))
    /\ (snd (chainSetHeadCmd_Run cidDecode NewTipSetKey api args store) <> None
        <-> Exists (badCid cidDecode) args
            \/ (Forall (fun arg => snd (cidDecode arg) = None) args
                /\ snd (ChainSetHead api
                          (NewTipSetKey (map (fun arg => fst (cidDecode arg)) args))
                          store) <> None))
    /\ (forall api' : ChainAPI TipSetKey TipSet ChainStore,
          ChainSetHead api' = ChainSetHead api ->
          chainSetHeadCmd_Run cidDecode NewTipSetKey api' args store
          = chainSetHeadCmd_Run cidDecode NewTipSetKey api args store).
Proof.
  intros Cid TipSetKey TipSet ChainStore cidDecode NewTipSetKey api args store.
  assert (Hgood : Forall (fun arg => snd (cidDecode arg) = None) args ->
     chainSetHeadCmd_Run cidDecode NewTipSetKey api args store
     = ChainSetHead api
         (NewTipSetKey (map (fun arg => fst (cidDecode arg)) args)) store).
  { intros H. unfold chainSetHeadCmd_Run. now rewrite cidsFromSlice_good. }
  assert (Hbad : Exists (badCid cidDecode) args ->
        exists err,
          chainSetHeadCmd_Run cidDecode NewTipSetKey api args store
          = (store, Some err)).
  { intros H. destruct (cidsFromSlice_bad _ cidDecode args H) as (err & E).
    exists err. unfold chainSetHeadCmd_Run. now rewrite E. }
  repeat split.
  - exact Hgood.
  - exact Hbad.
  - intros Hfail. destruct (good_or_bad _ cidDecode args) as [Hg|Hb].
    + right. split; [exact Hg|]. now rewrite <- (Hgood Hg).
    + now left.
  - intros [Hb|[Hg Hfail]].
    + destruct (Hbad Hb) as (err & ->). discriminate.
    + now rewrite (Hgood Hg).
  - intros api' Hsame. unfold chainSetHeadCmd_Run. now rewrite Hsame.
Qed.

Lemma chainSetHead_hands_key_to_ChainSetHead_witness :
  chainSetHeadCmd_Run exDecode (fun cids => cids) exAPI ["bafyA"; "bafyB"] []
  = (["bafyA"; "bafyB"], None)
  /\ exists err,
       chainSetHeadCmd_Run exDecode (fun cids => cids) exAPI ["bafyA"; ""] ["bafy0"]
       = (["bafy0"], Some err).
Proof.
  split.
  - refine (proj1 (chainSetHead_hands_key_to_ChainSetHead _ _ _ _ exDecode
                     (fun cids => cids) exAPI ["bafyA"; "bafyB"] []) _).
    repeat constructor.
  - refine (proj1 (proj2 (chainSetHead_hands_key_to_ChainSetHead _ _ _ _ exDecode
                     (fun cids => cids) exAPI ["bafyA"; ""] ["bafy0"])) _).
    right. left. discriminate.
Defined.

End SetHeadProps.

(** ** Fork choice *)

Module ForkChoiceProps.

Import ForkChoice.

Lemma compare_refl (s : string) : String.compare s s = Eq.
Proof.
  pose proof (String.compare_antisym s s) as H.
  destruct (String.compare s s); [reflexivity|discriminate..].
Qed.

Lemma ltb_leb (a b : string) :
  String.ltb a b = true <-> String.leb a b = true /\ a <> b.
Proof.
  unfold String.ltb, String.leb. split.
  - destruct (String.compare a b) eqn:E; try discriminate.
    intros _. split; [reflexivity|]. intros ->. rewrite compare_refl in E. discriminate.
  - intros [Hle Hne]. destruct (String.compare a b) eqn:E; try easy.
    destruct Hne. now apply String.compare_eq_iff.
Qed.

Lemma leb_trans (a b c : string) :
  String.leb a b = true -> String.leb b c = true -> String.leb a c = true.
Proof.
  intros H1 H2. apply Is_true_true.
  apply (transitivity (R := String.le) (y := b)); now apply Is_true_true.
Qed.

Lemma ltb_trans (a b c : string) :
  String.ltb a b = true -> String.ltb b c = true -> String.ltb a c = true.
Proof.
  rewrite !ltb_leb. intros [Hab Hne1] [Hbc Hne2]. split.
  - now apply leb_trans with b.
  - intros ->. apply Hne1. now apply String.leb_antisym.
Qed.

Lemma ltb_asym (a b : string) :
  String.ltb a b = true -> String.ltb b a = true -> False.
Proof.
  rewrite !ltb_leb. intros [Hab Hne] [Hba _]. apply Hne. now apply String.leb_antisym.
Qed.

Lemma ltb_connex (a b : string) :
  String.ltb a b = false -> String.ltb b a = false -> a = b.
Proof.
  unfold String.ltb. rewrite (String.compare_antisym b a).
  destruct (String.compare a b) eqn:E; try discriminate.
  intros _ _. now apply String.compare_eq_iff.
Qed.

Lemma selects_spec (candidate head : Chain) :
  selects candidate head = true
  <-> weight head < weight candidate
      \/ (weight candidate = weight head
          /\ String.ltb (serialization candidate) (serialization head) = true).
Proof.
  unfold selects.
  destruct (Z.ltb_spec (weight head) (weight candidate)) as [Hlt|Hge].
  - intuition.
  - destruct (Z.eqb_spec (weight candidate) (weight head)) as [Heq|Hne].
    + intuition lia.
    + split; [discriminate|]. intros [?|[? _]]; lia.
Qed.

Lemma selects_asym (a b : Chain) :
  selects a b = true -> selects b a = true -> False.
Proof.
  rewrite !selects_spec. intros [H1|[H1 L1]] [H2|[H2 L2]]; try lia.
  exact (ltb_asym _ _ L1 L2).
Qed.

Lemma selects_trans (a b c : Chain) :
  selects a b = true -> selects b c = true -> selects a c = true.
Proof.
  rewrite !selects_spec. intros [H1|[H1 L1]] [H2|[H2 L2]].
  - left. lia.
  - left. lia.
  - left. lia.
  - right. split; [lia|]. exact (ltb_trans _ _ _ L1 L2).
Qed.

Lemma selects_connex (a b : Chain) :
  selects a b = false -> selects b a = false -> a = b.
Proof.
  unfold selects. destruct a as [wa sa], b as [wb sb]. cbn [weight serialization].
  destruct (Z.ltb_spec wb wa); [discriminate|].
  destruct (Z.ltb_spec wa wb); [intros _; discriminate|].
  destruct (Z.eqb_spec wa wb); [|lia].
  destruct (Z.eqb_spec wb wa); [|lia].
  intros L1 L2. f_equal; [assumption|]. now apply ltb_connex.
Qed.

Lemma resolve_comm (head a b : Chain) :
  resolve (resolve head a) b = resolve (resolve head b) a.
Proof.
  unfold resolve.
  destruct (selects a head) eqn:Ha, (selects b head) eqn:Hb;
    rewrite ?Ha, ?Hb.
  - destruct (selects b a) eqn:Hba, (selects a b) eqn:Hab; try reflexivity.
    + destruct (selects_asym _ _ Hba Hab).
    + now apply selects_connex.
  - destruct (selects b a) eqn:Hba; [|reflexivity].
    now rewrite (selects_trans _ _ _ Hba Ha) in Hb.
  - destruct (selects a b) eqn:Hab; [|reflexivity].
    now rewrite (selects_trans _ _ _ Hab Hb) in Ha.
  - reflexivity.
Qed.

(** Without the tie-break the outcome depends on the arrival order: of two
    distinct chains of equal weight, both heavier than the head, the one
    that arrives first stays. *)
Lemma strict_rule_depends_on_arrival_order :
  fold_left resolveStrict [mkChain 10 "a"; mkChain 10 "b"] (mkChain 0 "g")
  <> fold_left resolveStrict [mkChain 10 "b"; mkChain 10 "a"] (mkChain 0 "g").
Proof. discriminate. Qed.

(** The rule with the lexicographic tie-break: what it selects, and that
    the head after two candidates does not depend on the order of their
    arrival, ties included. *)
Lemma lexicographic_rule_is_order_independent :
  forall head a b : Chain,
    (selects a head = true
     <-> weight head < weight a
         \/ (weight a = weight head
             /\ String.ltb (serialization a) (serialization head) = true))
    /\ resolveAll head [a; b] = resolveAll head [b; a].
Proof.
  intros head a b. split; [apply selects_spec|apply resolve_comm].
Qed.

(** The two rules are the open rule at a tie rule each. *)
Lemma selects_lexTie (candidate head : Chain) :
  selects candidate head = selectsWith lexTie candidate head.
Proof. reflexivity. Qed.

Lemma selectsStrict_noTie (candidate head : Chain) :
  selectsStrict candidate head = selectsWith noTie candidate head.
Proof.
  unfold selectsStrict, selectsWith, noTie.
  destruct (Z.ltb (weight head) (weight candidate)); [reflexivity|].
  now destruct (Z.eqb (weight candidate) (weight head)).
Qed.








End ForkChoiceProps.

(** ** The miner state API *)

Module MinerStateProps.

Import Go MinerState Examples.

Section API.

Variables TipSetKey TipSet Cid Blockstore StateTree Actor Address : Type.
Variables MarketState PowerState RewardState : Type.
Variables SealProof DealIDs SectorSize DealWeight StoragePower FilterEstimate : Type.
Variable Store : Blockstore.
Variable GetTipSet : TipSetKey -> TipSet * error.
Variable GetTipSetStateRoot : TipSetKey -> Cid * error.
Variable LoadState : Blockstore -> Cid -> StateTree * error.
Variable GetCirculatingSupplyDetailed : Z -> StateTree -> CirculatingSupply * error.
Variable EnsureHeight : TipSet -> Z.
Variable ParentStateRootAt0 : TipSet -> Cid.
Variable GetActor : StateTree -> Address -> Actor * bool * error.
Variables marketAddress powerAddress rewardAddress : Address.
Variable AddressString : Address -> string.
Variable SealProofSectorSize : SealProof -> SectorSize * error.
Variable marketLoad : Blockstore -> Actor -> MarketState * error.
Variable VerifyDealsForActivation :
  MarketState -> Address -> DealIDs -> Z -> Z -> DealWeight * DealWeight * error.
Variable QAPowerForWeight : SectorSize -> Z -> DealWeight -> DealWeight -> StoragePower.
Variable powerLoad : Blockstore -> Actor -> PowerState * error.
Variable TotalPowerSmoothed : PowerState -> FilterEstimate * error.
Variable rewardLoad : Blockstore -> Actor -> RewardState * error.
Variable PreCommitDepositForPower :
  RewardState -> FilterEstimate -> StoragePower -> BigInt * error.

Local Abbreviation circulating :=
  (StateVMCirculatingSupplyInternal TipSetKey TipSet Cid Blockstore StateTree
     Store GetTipSet GetTipSetStateRoot LoadState GetCirculatingSupplyDetailed
     EnsureHeight).
Local Abbreviation depositForPower :=
  (StateMinerPreCommitDepositForPower TipSetKey TipSet Cid Blockstore StateTree
     Actor Address MarketState PowerState RewardState SealProof DealIDs
     SectorSize DealWeight StoragePower FilterEstimate
     Store GetTipSet LoadState EnsureHeight ParentStateRootAt0 GetActor
     marketAddress powerAddress rewardAddress AddressString
     SealProofSectorSize marketLoad VerifyDealsForActivation QAPowerForWeight
     powerLoad TotalPowerSmoothed rewardLoad PreCommitDepositForPower).
Local Abbreviation rewardDeposit :=
  (preCommitDeposit TipSetKey TipSet Cid Blockstore StateTree
     Actor Address MarketState PowerState RewardState SealProof DealIDs
     SectorSize DealWeight StoragePower FilterEstimate
     Store GetTipSet LoadState EnsureHeight ParentStateRootAt0 GetActor
     marketAddress powerAddress rewardAddress
     SealProofSectorSize marketLoad VerifyDealsForActivation QAPowerForWeight
     powerLoad TotalPowerSmoothed rewardLoad PreCommitDepositForPower).

Lemma bigDiv_positive (x y : Z) :
  0 < y -> bigDiv (Big x) (Big y) = Some (Big (x / y)).
Proof.
  intros Hy. unfold bigDiv. destruct (Z.eqb_spec y 0) as [->|_]; [lia|].
  rewrite Z.sgn_pos, Z.abs_eq by lia. do 2 f_equal. lia.
Qed.

Lemma pledge_buffer (deposit product quotient : BigInt) :
  bigMul deposit initialPledgeNum = Some product ->
  bigDiv product initialPledgeDen = Some quotient ->
  exists d : Z, deposit = Big d /\ quotient = Big (d * 110 / 100).
Proof.
  unfold initialPledgeNum, initialPledgeDen, bigNewInt.
  destruct deposit as [|d]; [discriminate|]. cbn [bigMul]. intros [= <-].
  rewrite bigDiv_positive by lia. intros [= <-]. now exists d.
Qed.

(** C7. [StateVMCirculatingSupplyInternal] returns the error of the first of
    its three lookups that fails (the tip-set, its state root, the state
    tree loaded from that root) together with the zero-valued
    [CirculatingSupply]; when all three succeed it returns what
    [GetCirculatingSupplyDetailed] returns at the tip-set's height on the
    loaded tree. *)
Theorem circulatingSupply_first_error_or_detailed (tsk : TipSetKey) :
  (forall e, snd (GetTipSet tsk) = Some e ->
     circulating tsk = (zeroCirculatingSupply, Some e))
  /\ (snd (GetTipSet tsk) = None ->
      forall e, snd (GetTipSetStateRoot tsk) = Some e ->
        circulating tsk = (zeroCirculatingSupply, Some e))
  /\ (snd (GetTipSet tsk) = None ->
      snd (GetTipSetStateRoot tsk) = None ->
      forall e, snd (LoadState Store (fst (GetTipSetStateRoot tsk))) = Some e ->
        circulating tsk = (zeroCirculatingSupply, Some e))
  /\ (snd (GetTipSet tsk) = None ->
      snd (GetTipSetStateRoot tsk) = None ->
      snd (LoadState Store (fst (GetTipSetStateRoot tsk))) = None ->
      circulating tsk
      = GetCirculatingSupplyDetailed (EnsureHeight (fst (GetTipSet tsk)))
          (fst (LoadState Store (fst (GetTipSetStateRoot tsk))))).
Proof.
  unfold StateVMCirculatingSupplyInternal.
  destruct (GetTipSet tsk) as [ts e1].
  destruct (GetTipSetStateRoot tsk) as [root e2]. cbn [fst snd].
  destruct (LoadState Store root) as [sTree e3]. cbn [fst snd].
  repeat split; intros; subst; try reflexivity; try discriminate.
Qed.

(** C10. With [initialPledgeNum] 110 and [initialPledgeDen] 100, whenever
    [StateMinerPreCommitDepositForPower] returns a value and no error, the
    reward state's [PreCommitDepositForPower] returned a number [d] and no
    error, and the value returned is [d * 110 / 100], the division rounding
    down. *)
Theorem preCommitDeposit_is_110_percent
    (maddr : Address) (pci : SectorPreCommitInfo SealProof DealIDs)
    (tsk : TipSetKey) (v : BigInt) :
  depositForPower maddr pci tsk = Returns v None ->
  initialPledgeNum = Big 110 /\ initialPledgeDen = Big 100
  /\ exists d : Z,
       rewardDeposit maddr pci tsk = (Big d, None)
       /\ v = Big (d * 110 / 100).
Proof.
  intros Hret. split; [reflexivity|]. split; [reflexivity|].
  revert Hret.
  unfold StateMinerPreCommitDepositForPower, preCommitDeposit. cbv zeta.
  repeat match goal with
         | |- context [match ?x with _ => _ end] =>
             destruct x eqn:?; cbn [fst snd]; try discriminate
         end.
  intros [= ->].
  match goal with
  | Hm : bigMul _ _ = Some _, Hd : bigDiv _ _ = Some _ |- _ =>
      destruct (pledge_buffer _ _ _ Hm Hd) as (dep & Hdep & Hquot)
  end.
  exists dep. now rewrite Hdep, Hquot.
Qed.

End API.

Lemma circulatingSupply_first_error_or_detailed_witness :
  exSupplyAPI (fun _ => (tt, Some "tipset not found")) tt
  = (zeroCirculatingSupply, Some "tipset not found")
  /\ exSupplyAPI (fun _ => (tt, None)) tt = (exSupply, None).
Proof.
  split.
  - exact (proj1 (circulatingSupply_first_error_or_detailed
                    unit unit unit unit unit tt
                    (fun _ => (tt, Some "tipset not found"))
                    (fun _ => (tt, None)) (fun _ _ => (tt, None))
                    (fun _ _ => (exSupply, None)) (fun _ => 7) tt)
                 "tipset not found" eq_refl).
  - exact (proj2 (proj2 (proj2 (circulatingSupply_first_error_or_detailed
                    unit unit unit unit unit tt
                    (fun _ => (tt, None))
                    (fun _ => (tt, None)) (fun _ _ => (tt, None))
                    (fun _ _ => (exSupply, None)) (fun _ => 7) tt)))
                 eq_refl eq_refl eq_refl).
Defined.

Lemma preCommitDeposit_is_110_percent_witness :
  exDepositAPI (Big 1001) tt (mkPCI unit unit tt tt 100) tt = Returns (Big 1101) None
  /\ exists d : Z, Big 1101 = Big (d * 110 / 100).
Proof.
  split; [reflexivity|].
  destruct (preCommitDeposit_is_110_percent
              unit unit unit unit unit unit unit unit unit unit unit unit unit
              unit unit unit
              tt (fun _ => (tt, None)) (fun _ _ => (tt, None)) (fun _ => 7)
              (fun _ => tt) (fun _ _ => (tt, true, None)) tt tt tt
              (fun _ => "f01") (fun _ => (tt, None)) (fun _ _ => (tt, None))
              (fun _ _ _ _ _ => (tt, tt, None)) (fun _ _ _ _ => tt)
              (fun _ _ => (tt, None)) (fun _ => (tt, None))
              (fun _ _ => (tt, None)) (fun _ _ _ => (Big 1001, None))
              tt (mkPCI unit unit tt tt 100) tt (Big 1101) eq_refl)
    as (_ & _ & d & _ & Hd).
  now exists d.
Defined.

End MinerStateProps.

(** ** [DSBackend.NewAddress] *)

Module WalletProps.

Import Go Wallet Examples.

(** C8. For a protocol that is neither BLS nor SECP256K1, [NewAddress]
    returns the undefined address and the error
    [Unknown address protocol <n>], and leaves the backend (datastore and
    caches) and the random source as they were; for BLS it is
    [newBLSAddress] and for SECP256K1 it is [newSecpAddress]. *)
Theorem NewAddress_unknown_protocol :
  forall (KeyInfo UUID Datastore Entropy Address : Type)
         `{Countable Address}
         (Undef : Address) (AddressString : Address -> string)
         (KeyInfoAddress : KeyInfo -> Address * error)
         (NewSecpKeyFromSeed NewBLSKeyFromSeed : Entropy -> KeyInfo * error * Entropy)
         (NewRandom : Entropy -> UUID * Entropy)
         (NewKey : string -> string)
         (Put : Datastore -> string -> list Byte.byte -> Datastore * error)
         (encryptKey : Key KeyInfo UUID Address -> string -> Z -> Z -> Entropy
                       -> list Byte.byte * error * Entropy)
         (protocol : Protocol) (password : string)
         (world : World KeyInfo Datastore Entropy Address),
    (protocol <> BLS -> protocol <> SECP256K1 ->
     NewAddress KeyInfo UUID Datastore Entropy Address Undef AddressString
       KeyInfoAddress NewSecpKeyFromSeed NewBLSKeyFromSeed NewRandom NewKey Put
       encryptKey protocol password world
     = (Undef, Some ("Unknown address protocol " ++ Itoa protocol), world))
    /\ NewAddress KeyInfo UUID Datastore Entropy Address Undef AddressString
         KeyInfoAddress NewSecpKeyFromSeed NewBLSKeyFromSeed NewRandom NewKey Put
         encryptKey BLS password world
       = newBLSAddress KeyInfo UUID Datastore Entropy Address Undef AddressString
           KeyInfoAddress NewBLSKeyFromSeed NewRandom NewKey Put encryptKey
           password world
    /\ NewAddress KeyInfo UUID Datastore Entropy Address Undef AddressString
         KeyInfoAddress NewSecpKeyFromSeed NewBLSKeyFromSeed NewRandom NewKey Put
         encryptKey SECP256K1 password world
       = newSecpAddress KeyInfo UUID Datastore Entropy Address Undef AddressString
           KeyInfoAddress NewSecpKeyFromSeed NewRandom NewKey Put encryptKey
           password world.
Proof.
  intros. unfold NewAddress. repeat split.
  intros Hbls Hsecp.
  destruct (Z.eqb_spec protocol BLS); [contradiction|].
  destruct (Z.eqb_spec protocol SECP256K1); [contradiction|].
  reflexivity.
Qed.

Lemma NewAddress_unknown_protocol_witness :
  exNewAddress Actor "pw" exWorld
  = (-1, Some "Unknown address protocol 2", exWorld).
Proof.
  refine (proj1 (NewAddress_unknown_protocol Z Z (list (string * list Byte.byte)) Z Z
            (-1) Itoa (fun ki => (ki, None))
            (fun entropy => (entropy, None, entropy + 1))
            (fun entropy => (entropy, None, entropy + 1))
            (fun entropy => (entropy, entropy + 1))
            (fun name => "/" ++ name)
            (fun ds key value => ((key, value) :: ds, None))
            (fun key password n p entropy => ([], None, entropy + 1))
            Actor "pw" exWorld) _ _); discriminate.
Defined.

End WalletProps.

(** ** [MemRepo], the methods together *)

Module RepoOpsProps.

Import Repo RepoOps.

Section Props.

Variables Config Datastore Keystore : Type.
Implicit Types mr : MemRepo Config Datastore Keystore.
Implicit Types cs : list (Call Config).

Lemma calls_cons mr (c : Call Config) cs :
  calls mr (c :: cs)
  = (fst (calls (fst (call mr c)) cs),
     snd (call mr c) :: snd (calls (fst (call mr c)) cs)).
Proof.
  cbn [calls]. destruct (call mr c) as [mr1 e]. cbn [fst snd].
  now destruct (calls mr1 cs).
Qed.

Lemma call_token_empty mr (c : Call Config) :
  token mr = [] ->
  token (fst (call mr c))
  = match c with CallSetAPIToken tok => tok | _ => [] end.
Proof.
  intros Hempty. destruct c; cbn; try assumption.
  unfold SetAPIToken. now rewrite Hempty.
Qed.

Lemma call_token_set mr (c : Call Config) :
  token mr <> [] -> token (fst (call mr c)) = token mr.
Proof.
  intros Hset. destruct c; cbn [call]; try reflexivity.
  now rewrite RepoProps.SetAPIToken_set.
Qed.

Lemma calls_token_set cs : forall mr,
  token mr <> [] -> token (fst (calls mr cs)) = token mr.
Proof.
  induction cs as [|c cs IH]; intros mr Hset; [reflexivity|].
  rewrite calls_cons. cbn [fst].
  rewrite IH; rewrite call_token_set; auto.
Qed.

End Props.

(** X1. Whatever other methods are called in between, the token of a repo
    that started without one is the first non-empty argument ever given to
    [SetAPIToken], and stays empty when there was none. *)
Theorem token_first_write_wins_under_interleaving :
  forall (Config Datastore Keystore : Type)
         (mr : MemRepo Config Datastore Keystore) (cs : list (Call Config)),
    token mr = [] ->
    token (fst (calls mr cs)) = first_nonempty (tokensOf cs).
Proof.
  intros Config Datastore Keystore mr cs. revert mr.
  induction cs as [|c cs IH]; intros mr Hempty; [exact Hempty|].
  rewrite calls_cons. cbn [fst].
  pose proof (call_token_empty _ _ _ mr c Hempty) as Hc.
  destruct c as [cfg|a|a|tok|]; cbn [tokensOf first_nonempty];
    try (apply IH; exact Hc).
  destruct tok as [|b bs].
  - cbn [first_nonempty]. apply IH. exact Hc.
  - cbn [first_nonempty]. rewrite calls_token_set; [exact Hc|].
    rewrite Hc. discriminate.
Qed.

Lemma token_first_write_wins_under_interleaving_witness :
  token (fst (calls (NewInMemoryRepo unit unit unit tt tt tt 1%N)
                [CallSetJsonrpcAPIAddr "a"; CallSetAPIToken [];
                 CallSetAPIToken [Byte.x07]; CallReplaceConfig tt;
                 CallSetAPIToken [Byte.x09]]))
  = [Byte.x07].
Proof.
  exact (token_first_write_wins_under_interleaving unit unit unit
           (NewInMemoryRepo unit unit unit tt tt tt 1%N)
           [CallSetJsonrpcAPIAddr "a"; CallSetAPIToken [];
            CallSetAPIToken [Byte.x07]; CallReplaceConfig tt;
            CallSetAPIToken [Byte.x09]] eq_refl).
Defined.

(** X2. After any sequence of calls, [APIAddr] reports for each of the two
    API kinds the address of the last call that set it (the old one when no
    call did) and [Config] the last configuration installed: these are
    last-write-wins, the two addresses are independent of each other, and
    no other method touches them. *)
Theorem addresses_and_config_last_write_wins :
  forall (Config Datastore Keystore : Type)
         (mr : MemRepo Config Datastore Keystore) (cs : list (Call Config)),
    APIAddr (fst (calls mr cs))
    = ({| RustfulAPI := lastRustful (rustfulAddress _ _ _ mr) cs;
          JsonrpcAPI := lastJsonrpc (jsonrpcAddress _ _ _ mr) cs |}, None)
    /\ Config_ (fst (calls mr cs)) = lastConfig (C _ _ _ mr) cs.
Proof.
  intros Config Datastore Keystore mr cs. revert mr.
  induction cs as [|c cs IH]; intros mr; [split; reflexivity|].
  rewrite calls_cons. cbn [fst].
  destruct (IH (fst (call mr c))) as [IHa IHc]. rewrite IHa, IHc.
  destruct c; cbn; try (split; reflexivity);
    unfold SetAPIToken; destruct (Z.eqb _ _); split; reflexivity.
Qed.

(** X3. No method of the repo returns an error, and none replaces a
    datastore, the keystore or the version: after any sequence of calls
    they are the ones the repo was built with. *)
Theorem calls_never_fail_and_keep_stores :
  forall (Config Datastore Keystore : Type)
         (mr : MemRepo Config Datastore Keystore) (cs : list (Call Config)),
    Forall (eq None) (snd (calls mr cs))
    /\ D _ _ _ (fst (calls mr cs)) = D _ _ _ mr
    /\ Ks _ _ _ (fst (calls mr cs)) = Ks _ _ _ mr
    /\ W _ _ _ (fst (calls mr cs)) = W _ _ _ mr
    /\ Chain _ _ _ (fst (calls mr cs)) = Chain _ _ _ mr
    /\ Meta _ _ _ (fst (calls mr cs)) = Meta _ _ _ mr
    /\ Version (fst (calls mr cs)) = Version mr.
Proof.
  intros Config Datastore Keystore mr cs. revert mr.
  induction cs as [|c cs IH]; intros mr.
  - repeat split. constructor.
  - rewrite calls_cons. cbn [fst snd].
    destruct (IH (fst (call mr c))) as (He & HD & HKs & HW & HC & HM & HV).
    unfold Version in *. rewrite HD, HKs, HW, HC, HM, HV.
    assert (snd (call mr c) = None) as Hnil.
    { destruct c; cbn; try reflexivity. unfold SetAPIToken. now destruct (Z.eqb _ _). }
    repeat split; try (constructor; [now symmetry|exact He]);
      destruct c; cbn; try reflexivity;
      unfold SetAPIToken; now destruct (Z.eqb _ _).
Qed.

End RepoOpsProps.

(** ** [DSBackend], the methods together *)

Module WalletOpsProps.

Import Go Wallet WalletExamples.

Section DSBackend.

Variables KeyInfo UUID Datastore Entropy : Type.
Variable Address : Type.
Context `{Countable Address}.
Variable Undef : Address.
Variable AddressString : Address -> string.
Variable KeyInfoAddress : KeyInfo -> Address * error.
Variable NewSecpKeyFromSeed : Entropy -> KeyInfo * error * Entropy.
Variable NewBLSKeyFromSeed : Entropy -> KeyInfo * error * Entropy.
Variable NewRandom : Entropy -> UUID * Entropy.
Variable NewKey : string -> string.
Variable Put : Datastore -> string -> list Byte.byte -> Datastore * error.
Variable encryptKey :
  Key KeyInfo UUID Address -> string -> Z -> Z -> Entropy
  -> list Byte.byte * error * Entropy.
Variable Signature : Type.
Variable Get : Datastore -> string -> list Byte.byte * error.
Variable MarshalCBOR : KeyInfo -> list Byte.byte * error.
Variable UnmarshalCBOR : list Byte.byte -> KeyInfo * error.
Variable decryptKey : list Byte.byte -> string -> option (Key KeyInfo UUID Address) * error.
Variable Sign : list Byte.byte -> KeyInfo -> option Signature * error.
Variable QueryResults : Type.
Variable Query : Datastore -> QueryResults * error.
Variable Rest : QueryResults -> list string * error.
Variable NewFromString : string -> Address * error.

Local Abbreviation backendT := (DSBackend KeyInfo Datastore Address).
Local Abbreviation worldT := (World KeyInfo Datastore Entropy Address).
Local Abbreviation putPass :=
  (putKeyInfoPassphrase KeyInfo UUID Datastore Entropy Address AddressString
     KeyInfoAddress NewRandom NewKey Put encryptKey).
Local Abbreviation importKey :=
  (ImportKey KeyInfo UUID Datastore Entropy Address AddressString
     KeyInfoAddress NewRandom NewKey Put encryptKey).
Local Abbreviation newSecp :=
  (newSecpAddress KeyInfo UUID Datastore Entropy Address Undef AddressString
     KeyInfoAddress NewSecpKeyFromSeed NewRandom NewKey Put encryptKey).
Local Abbreviation newBLS :=
  (newBLSAddress KeyInfo UUID Datastore Entropy Address Undef AddressString
     KeyInfoAddress NewBLSKeyFromSeed NewRandom NewKey Put encryptKey).
Local Abbreviation newAddress :=
  (NewAddress KeyInfo UUID Datastore Entropy Address Undef AddressString
     KeyInfoAddress NewSecpKeyFromSeed NewBLSKeyFromSeed NewRandom NewKey Put
     encryptKey).
Local Abbreviation hasAddress := (HasAddress KeyInfo Datastore Address).
Local Abbreviation getKeyInfo :=
  (GetKeyInfo KeyInfo Datastore Address AddressString NewKey Get UnmarshalCBOR).
Local Abbreviation getKeyInfoPassphrase :=
  (GetKeyInfoPassphrase KeyInfo UUID Datastore Address AddressString NewKey Get
     decryptKey).
Local Abbreviation signBytes :=
  (SignBytes KeyInfo Datastore Address AddressString NewKey Signature Get
     UnmarshalCBOR Sign).
Local Abbreviation signBytesPassphrase :=
  (SignBytesPassphrase KeyInfo UUID Datastore Address AddressString NewKey
     Signature Get decryptKey Sign).
Local Abbreviation putInfo :=
  (putKeyInfo KeyInfo Datastore Address AddressString KeyInfoAddress NewKey Put
     MarshalCBOR).
Local Abbreviation newDSBackend :=
  (NewDSBackend KeyInfo Datastore Address QueryResults Query Rest NewFromString).
Local Abbreviation restore := (restoreAddresses Address NewFromString).

Lemma hasAddress_true (backend : backendT) (addr : Address) :
  hasAddress backend addr = true <-> addr ∈ addressCache _ _ _ backend.
Proof using Type. unfold HasAddress. apply bool_decide_eq_true. Qed.

(** What one [putKeyInfoPassphrase] does to the two caches. *)
Lemma putPass_caches (ki : KeyInfo) (password : string) (world : worldT) :
  (fst (putPass ki password world) = None
   /\ snd (KeyInfoAddress ki) = None
   /\ addressCache _ _ _ (fst (snd (putPass ki password world)))
      = {[ fst (KeyInfoAddress ki) ]} ∪ addressCache _ _ _ (fst world)
   /\ keyInfoCache _ _ _ (fst (snd (putPass ki password world)))
      = <[ AddressString (fst (KeyInfoAddress ki)) := ki ]>
          (keyInfoCache _ _ _ (fst world)))
  \/ (fst (putPass ki password world) <> None
      /\ addressCache _ _ _ (fst (snd (putPass ki password world)))
         = addressCache _ _ _ (fst world)
      /\ keyInfoCache _ _ _ (fst (snd (putPass ki password world)))
         = keyInfoCache _ _ _ (fst world)).
Proof using Type.
  unfold putKeyInfoPassphrase. destruct world as [backend entropy]. cbn [fst snd].
  destruct (KeyInfoAddress ki) as [addr [e|]]; cbn [fst snd].
  { right. now repeat split. }
  destruct (NewRandom entropy) as [id entropy1].
  destruct (encryptKey _ _ _ _ _) as [[keyJSON [e|]] entropy2]; cbn [fst snd].
  { right. now repeat split. }
  cbn [KeyAddress].
  destruct (Put _ _ _) as [ds' [e|]]; cbn [fst snd].
  - right. now repeat split.
  - left. now repeat split.
Qed.

(** X4. A successful [ImportKey] makes [HasAddress] true for the address of
    the imported key, whatever it was before; a failed one leaves the
    address cache and the key-info cache as they were; and in either case
    every address the backend had, it still has. *)
Theorem ImportKey_records_address
    (ki : KeyInfo) (password : string) (world : worldT) :
  (fst (ImportKey KeyInfo UUID Datastore Entropy Address AddressString
          KeyInfoAddress NewRandom NewKey Put encryptKey ki password world)
   = None ->
   snd (KeyInfoAddress ki) = None
   /\ hasAddress (fst (snd (importKey ki password world)))
        (fst (KeyInfoAddress ki)) = true)
  /\ (fst (importKey ki password world) <> None ->
      addressCache _ _ _ (fst (snd (importKey ki password world)))
      = addressCache _ _ _ (fst world)
      /\ keyInfoCache _ _ _ (fst (snd (importKey ki password world)))
         = keyInfoCache _ _ _ (fst world))
  /\ (forall addr : Address,
        hasAddress (fst world) addr = true ->
        hasAddress (fst (snd (importKey ki password world))) addr = true).
Proof using Type.
  unfold ImportKey.
  destruct (putPass_caches ki password world) as [(Hok & Haddr & Hc & Hk)|(Herr & Hc & Hk)].
  - split; [|split].
    + intros _. split; [exact Haddr|]. apply hasAddress_true. rewrite Hc.
      apply elem_of_union. left. now apply elem_of_singleton.
    + intros Hne. now destruct Hne.
    + intros addr. rewrite !hasAddress_true, Hc. intros Hin.
      apply elem_of_union. now right.
  - split; [|split].
    + intros Hok. now destruct Herr.
    + intros _. now split.
    + intros addr. now rewrite !hasAddress_true, Hc.
Qed.

Lemma newAddr_shape
    (gen : Entropy -> KeyInfo * error * Entropy) (password : string)
    (world : worldT)
    (r : Address * error * worldT) :
  r = (let '(backend, entropy) := world in
       match gen entropy with
       | (_, Some err, entropy) => (Undef, Some err, (backend, entropy))
       | (ki, None, entropy) =>
           match putPass ki password (backend, entropy) with
           | (Some err, world) => (Undef, Some err, world)
           | (None, world) => (KeyInfoAddress ki, world)
           end
       end) ->
  (snd (fst r) = None -> hasAddress (fst (snd r)) (fst (fst r)) = true)
  /\ (snd (fst r) <> None -> fst (fst r) = Undef)
  /\ (forall addr : Address,
        hasAddress (fst world) addr = true ->
        hasAddress (fst (snd r)) addr = true).
Proof using Type.
  intros ->. destruct world as [backend entropy]. cbn [fst].
  destruct (gen entropy) as [[ki [e|]] entropy1]; cbn [fst snd].
  { split; [discriminate|]. split; [reflexivity|]. auto. }
  pose proof (putPass_caches ki password (backend, entropy1)) as Hput.
  destruct (putPass ki password (backend, entropy1)) as [[e|] world'];
    cbn [fst snd] in *.
  - destruct Hput as [(Hok & _)|(_ & Hc & _)]; [discriminate|].
    split; [discriminate|]. split; [reflexivity|].
    intros addr. now rewrite !hasAddress_true, Hc.
  - destruct Hput as [(_ & Haddr & Hc & _)|(Herr & _)]; [|now destruct Herr].
    destruct (KeyInfoAddress ki) as [addr e]. cbn [fst snd] in *. subst e.
    split; [|split].
    + intros _. apply hasAddress_true. rewrite Hc.
      apply elem_of_union. left. now apply elem_of_singleton.
    + intros Hne. now destruct Hne.
    + intros a. rewrite !hasAddress_true, Hc. intros Hin.
      apply elem_of_union. now right.
Qed.

(** X5. Whatever the protocol, when [NewAddress] returns no error the
    address it returns is in the backend it leaves ([HasAddress] is true for
    it), when it returns an error the address is the undefined one, and no
    address the backend had is lost. *)
Theorem NewAddress_returns_stored_address
    (protocol : Protocol) (password : string) (world : worldT) :
  (snd (fst (newAddress protocol password world)) = None ->
   hasAddress (fst (snd (newAddress protocol password world)))
     (fst (fst (newAddress protocol password world))) = true)
  /\ (snd (fst (newAddress protocol password world)) <> None ->
      fst (fst (newAddress protocol password world)) = Undef)
  /\ (forall addr : Address,
        hasAddress (fst world) addr = true ->
        hasAddress (fst (snd (newAddress protocol password world))) addr = true).
Proof using Type.
  unfold NewAddress.
  destruct (Z.eqb protocol BLS).
  - apply (newAddr_shape NewBLSKeyFromSeed password world). reflexivity.
  - destruct (Z.eqb protocol SECP256K1).
    + apply (newAddr_shape NewSecpKeyFromSeed password world). reflexivity.
    + cbn [fst snd]. split; [discriminate|]. split; [reflexivity|]. auto.
Qed.

(** X6. For an address the backend does not have, [GetKeyInfo],
    [GetKeyInfoPassphrase], [SignBytes] and [SignBytesPassphrase] all return
    nil with the error [backend does not contain address] and leave the
    backend as it is, whatever the datastore holds under that address. *)
Theorem unknown_address_is_refused
    (backend : backendT) (addr : Address) (password : string)
    (data : list Byte.byte) :
  HasAddress KeyInfo Datastore Address backend addr = false ->
  GetKeyInfo KeyInfo Datastore Address AddressString NewKey Get UnmarshalCBOR
    backend addr
  = (None, Some "backend does not contain address")
  /\ getKeyInfoPassphrase addr password backend
     = Some (None, Some "backend does not contain address", backend)
  /\ signBytes backend data addr
     = Some (None, Some "backend does not contain address")
  /\ signBytesPassphrase data addr password backend
     = Some (None, Some "backend does not contain address", backend).
Proof using Type.
  intros Hno.
  unfold SignBytesPassphrase, SignBytes, GetKeyInfoPassphrase, GetKeyInfo.
  rewrite Hno. cbn [negb]. now repeat split.
Qed.

(** X7. Right after a successful [ImportKey] (before the cache entry
    expires), [GetKeyInfoPassphrase] for the key's address returns the
    imported key info from the key-info cache for every password, the right
    one or not, and changes nothing. *)
Theorem imported_key_is_served_from_cache
    (ki : KeyInfo) (password other : string) (world : worldT) :
  fst (importKey ki password world) = None ->
  GetKeyInfoPassphrase KeyInfo UUID Datastore Address AddressString NewKey Get
    decryptKey (fst (KeyInfoAddress ki)) other
    (fst (snd (importKey ki password world)))
  = Some (Some ki, None, fst (snd (importKey ki password world))).
Proof using Type.
  unfold ImportKey. intros Hok.
  destruct (putPass_caches ki password world) as [(_ & _ & Hc & Hk)|(Herr & _)];
    [|now destruct Herr].
  unfold GetKeyInfoPassphrase.
  assert (hasAddress (fst (snd (putPass ki password world)))
            (fst (KeyInfoAddress ki)) = true) as ->.
  { apply hasAddress_true. rewrite Hc.
    apply elem_of_union. left. now apply elem_of_singleton. }
  cbn [negb]. rewrite Hk, lookup_insert_eq. reflexivity.
Qed.

(** X8. Over a datastore that gives back under a key what was put under it
    and an encoding that decodes to what was encoded, [GetKeyInfo] for the
    address of a key info stored by [putKeyInfo] returns that key info. *)
Theorem putKeyInfo_GetKeyInfo_round_trip
    (ki : KeyInfo) (backend : backendT) :
  (forall store key value store',
      Put store key value = (store', None) -> Get store' key = (value, None)) ->
  (forall ki' buf, MarshalCBOR ki' = (buf, None) -> UnmarshalCBOR buf = (ki', None)) ->
  fst (putInfo ki backend) = None ->
  GetKeyInfo KeyInfo Datastore Address AddressString NewKey Get UnmarshalCBOR
    (snd (putInfo ki backend)) (fst (KeyInfoAddress ki))
  = (Some ki, None).
Proof using Type.
  intros Hstore Hcbor. unfold putKeyInfo, GetKeyInfo.
  destruct (KeyInfoAddress ki) as [addr [e|]]; cbn [fst snd]; [discriminate|].
  destruct (MarshalCBOR ki) as [buf [e|]] eqn:Hbuf; cbn [fst snd]; [discriminate|].
  destruct (Put _ _ buf) as [ds' [e|]] eqn:Hput; cbn [fst snd]; [discriminate|].
  intros _.
  assert (hasAddress
            {| ds := ds'; addressCache := {[addr]} ∪ addressCache _ _ _ backend;
               keyInfoCache := keyInfoCache _ _ _ backend;
               PassphraseConf := PassphraseConf _ _ _ backend |} addr = true) as Hhas.
  { apply hasAddress_true. cbn.
    apply elem_of_union. left. now apply elem_of_singleton. }
  unfold HasAddress in Hhas |- *. rewrite Hhas. cbn [negb ds].
  rewrite (Hstore _ _ _ _ Hput). now rewrite (Hcbor _ _ Hbuf).
Qed.

Lemma restore_ok (list : list string) : forall (acc cache : gset Address),
  restore list acc = (cache, None) ->
  forall addr : Address,
    addr ∈ cache
    <-> addr ∈ acc
        \/ exists key, In key list
                       /\ NewFromString (GoStrings.Trim key "/") = (addr, None).
Proof using Type.
  induction list as [|el rest IH]; intros acc cache Hrun addr; cbn in Hrun.
  - injection Hrun as <-. split; [now left|]. intros [?|(key & [] & _)]; assumption.
  - destruct (NewFromString (GoStrings.Trim el "/")) as [parsed [e|]] eqn:Hp;
      [discriminate|].
    rewrite (IH _ _ Hrun addr). split.
    + intros [Hin|(key & Hin & Hkey)].
      * apply elem_of_union in Hin as [Hin|Hin]; [|now left].
        apply elem_of_singleton in Hin as ->. right. exists el. split; [now left|exact Hp].
      * right. exists key. split; [now right|exact Hkey].
    + intros [Hin|(key & [->|Hin] & Hkey)].
      * left. apply elem_of_union. now right.
      * left. rewrite Hp in Hkey. injection Hkey as ->.
        apply elem_of_union. left. now apply elem_of_singleton.
      * right. now exists key.
Qed.

Lemma restore_fails (list : list string) : forall (acc cache : gset Address) (e : string),
  restore list acc = (cache, Some e) ->
  exists key cause,
    In key list
    /\ snd (NewFromString (GoStrings.Trim key "/")) = Some cause
    /\ e = "trying to restore invalid address: " ++ key ++ ": " ++ cause.
Proof using Type.
  induction list as [|el rest IH]; intros acc cache e Hrun; cbn in Hrun; [discriminate|].
  destruct (NewFromString (GoStrings.Trim el "/")) as [parsed [cause|]] eqn:Hp.
  - injection Hrun as _ <-. exists el, cause. rewrite Hp.
    split; [now left|]. split; [reflexivity|].
    now rewrite CmdProps.string_app_assoc.
  - destruct (IH _ _ _ Hrun) as (key & cause & Hin & Hc & He).
    exists key, cause. split; [now right|]. now split.
Qed.

(** X9. When [NewDSBackend] succeeds, the backend it returns sits on the
    given datastore with the given passphrase configuration and an empty
    key-info cache, and has exactly the addresses obtained by parsing the
    stored keys with their slashes trimmed. When it fails on a key, the
    error names a stored key that does not parse, with the parser's error. *)
Theorem NewDSBackend_restores_addresses
    (store : Datastore) (cfg : PassphraseConfig) :
  (forall backend : backendT,
      newDSBackend store cfg = (Some backend, None) ->
      ds _ _ _ backend = store
      /\ PassphraseConf _ _ _ backend = cfg
      /\ keyInfoCache _ _ _ backend = ∅
      /\ forall addr : Address,
           hasAddress backend addr = true
           <-> exists key,
                 In key (fst (Rest (fst (Query store))))
                 /\ NewFromString (GoStrings.Trim key "/") = (addr, None))
  /\ (forall e : string,
        snd (Query store) = None -> snd (Rest (fst (Query store))) = None ->
        snd (newDSBackend store cfg) = Some e ->
        fst (newDSBackend store cfg) = None
        /\ exists key cause,
             In key (fst (Rest (fst (Query store))))
             /\ snd (NewFromString (GoStrings.Trim key "/")) = Some cause
             /\ e = "trying to restore invalid address: " ++ key ++ ": " ++ cause).
Proof using Type.
  unfold NewDSBackend.
  destruct (Query store) as [result [e1|]]; cbn [fst snd].
  { split; [discriminate|]. discriminate. }
  destruct (Rest result) as [list [e2|]]; cbn [fst snd].
  { split; [discriminate|]. discriminate. }
  destruct (restore list ∅) as [cache [e3|]] eqn:Hrun; cbn [fst snd].
  - split; [discriminate|]. intros e _ _ [= <-]. split; [reflexivity|].
    exact (restore_fails _ _ _ _ Hrun).
  - split; [|discriminate]. intros backend [= <-]. cbn.
    repeat split; try reflexivity.
    + intros Hin. apply hasAddress_true in Hin. cbn in Hin.
      apply (restore_ok _ _ _ Hrun) in Hin as [Hin|Hin]; [|exact Hin].
      now apply not_elem_of_empty in Hin.
    + intros Hkey. apply hasAddress_true. cbn.
      apply (restore_ok _ _ _ Hrun). now right.
Qed.

(** X24. [Addresses] lists every address [HasAddress] accepts, and no
    other, each of them once. *)
Theorem Addresses_lists_what_HasAddress_accepts (backend : backendT) :
  NoDup (Addresses KeyInfo Datastore Address backend)
  /\ forall addr : Address,
       addr ∈ Addresses KeyInfo Datastore Address backend
       <-> hasAddress backend addr = true.
Proof using Type.
  unfold Addresses. split; [apply NoDup_elements|].
  intros addr. rewrite hasAddress_true. apply elem_of_elements.
Qed.

End DSBackend.

Lemma ImportKey_records_address_witness :
  HasAddress Z exStore Z (fst (snd (exImportKey 42 "pw" (exBackend, 0)))) 42 = true.
Proof.
  exact (proj2 (proj1 (ImportKey_records_address Z Z exStore Z Z Itoa
           (fun ki => (ki, None)) (fun entropy => (entropy, entropy + 1))
           (fun name => "/" ++ name) exPut
           (fun key password n p entropy => ([], None, entropy + 1))
           42 "pw" (exBackend, 0)) eq_refl)).
Defined.

Lemma NewAddress_returns_stored_address_witness :
  HasAddress Z exStore Z
    (fst (snd (Examples.exNewAddress BLS "pw" Examples.exWorld)))
    (fst (fst (Examples.exNewAddress BLS "pw" Examples.exWorld))) = true.
Proof.
  exact (proj1 (NewAddress_returns_stored_address Z Z exStore Z Z (-1) Itoa
           (fun ki => (ki, None))
           (fun entropy => (entropy, None, entropy + 1))
           (fun entropy => (entropy, None, entropy + 1))
           (fun entropy => (entropy, entropy + 1))
           (fun name => "/" ++ name)
           (fun ds key value => ((key, value) :: ds, None))
           (fun key password n p entropy => ([], None, entropy + 1))
           BLS "pw" Examples.exWorld) eq_refl).
Defined.

Lemma unknown_address_is_refused_witness :
  GetKeyInfo nat exStore Z Itoa (fun name => "/" ++ name) exGet exUnmarshal
    (mkDSBackend nat exStore Z [("/5", [])] ∅ ∅ (mkPassphraseConfig 2 1)) 5
  = (None, Some "backend does not contain address").
Proof.
  exact (proj1 (unknown_address_is_refused nat Z exStore Z Itoa
           (fun name => "/" ++ name) unit exGet exUnmarshal
           (fun _ _ => (None, Some "could not decrypt key with given password"))
           (fun _ _ => (None, None))
           (mkDSBackend nat exStore Z [("/5", [])] ∅ ∅ (mkPassphraseConfig 2 1))
           5 "pw" [] eq_refl)).
Defined.

Lemma imported_key_is_served_from_cache_witness :
  GetKeyInfoPassphrase Z Z exStore Z Itoa (fun name => "/" ++ name) exGet
    (fun _ _ => (None, Some "could not decrypt key with given password"))
    42 "not the password" (fst (snd (exImportKey 42 "pw" (exBackend, 0))))
  = Some (Some 42, None, fst (snd (exImportKey 42 "pw" (exBackend, 0)))).
Proof.
  exact (imported_key_is_served_from_cache Z Z exStore Z Z Itoa
           (fun ki => (ki, None)) (fun entropy => (entropy, entropy + 1))
           (fun name => "/" ++ name) exPut
           (fun key password n p entropy => ([], None, entropy + 1))
           exGet
           (fun _ _ => (None, Some "could not decrypt key with given password"))
           42 "pw" "not the password" (exBackend, 0) eq_refl).
Defined.

Lemma putKeyInfo_GetKeyInfo_round_trip_witness :
  GetKeyInfo nat exStore Z Itoa (fun name => "/" ++ name) exGet exUnmarshal
    (snd (putKeyInfo nat exStore Z Itoa (fun ki => (Z.of_nat ki, None))
            (fun name => "/" ++ name) exPut exMarshal 3%nat
            (mkDSBackend nat exStore Z [] ∅ ∅ (mkPassphraseConfig 2 1))))
    3
  = (Some 3%nat, None).
Proof.
  refine (putKeyInfo_GetKeyInfo_round_trip nat exStore Z Itoa
            (fun ki => (Z.of_nat ki, None)) (fun name => "/" ++ name)
            exPut exGet exMarshal exUnmarshal 3%nat
            (mkDSBackend nat exStore Z [] ∅ ∅ (mkPassphraseConfig 2 1))
            _ _ eq_refl).
  - intros store key value store' [= <-]. cbn. now rewrite String.eqb_refl.
  - intros ki buf [= <-]. unfold exUnmarshal. now rewrite repeat_length.
Defined.

Lemma NewDSBackend_restores_addresses_witness :
  HasAddress nat exStore Z
    (mkDSBackend nat exStore Z [("/12", []); ("//7/", [])]
       ({[ 7 ]} ∪ ({[ 12 ]} ∪ ∅)) ∅ (mkPassphraseConfig 2 1)) 7 = true.
Proof.
  refine (proj2 (proj2 (proj2 (proj2 (proj1 (NewDSBackend_restores_addresses
            nat exStore Z (list string) exQuery (fun keys => (keys, None))
            exNewFromString [("/12", []); ("//7/", [])] (mkPassphraseConfig 2 1))
            _ eq_refl))) 7) _).
  exists "//7/". split; [right; left; reflexivity|reflexivity].
Defined.

End WalletOpsProps.

(** ** [cmd/chain.go]: listing, export and block display *)

Module ChainCmdsProps.

Import Go ChainCmds.

(** The index-filling loop over a slice made with the length of its input
    is [map]. *)
Lemma rangeFill_take {A B : Type} (f : A -> B) (input : list A) :
  forall (k : nat) (out : list B),
    length out = (k + length input)%nat ->
    rangeFill f k input out = (take k out ++ map f input)%list.
Proof.
  induction input as [|v rest IH]; intros k out Hlen; cbn [rangeFill map].
  - rewrite app_nil_r, take_ge; [reflexivity|]. cbn in Hlen. lia.
  - cbn [length] in Hlen. rewrite IH by (rewrite length_insert; lia).
    rewrite (take_S_r _ k (f v)) by (apply list_lookup_insert_eq; lia).
    rewrite take_insert_ge by lia. now rewrite <- app_assoc.
Qed.

Lemma rangeFill_map {A B : Type} (f : A -> B) (input : list A) (z : B) :
  rangeFill f 0 input (replicate (length input) z) = map f input.
Proof.
  rewrite rangeFill_take by (now rewrite length_replicate). reflexivity.
Qed.

Section Ls.

Variables Cid Address TipSetKey TipSet Block : Type.
Variable UndefCid : Cid.
Variable UndefAddress : Address.
Variable BlockCid : Block -> Cid.
Variable Miner : Block -> Address.
Variable Height : TipSet -> Z * error.
Variable MinTimestamp : TipSet -> Z.
Variable Blocks : TipSet -> list Block.
Variable Key : TipSet -> TipSetKey.
Variable timeFormat : Z -> string.
Variable ChainHead : TipSet * error.
Variable ChainGetTipSetByHeight : Z -> TipSetKey -> TipSet * error.
Variable ChainList : TipSetKey -> Z -> list TipSetKey * error.
Variable ChainGetTipSet : TipSetKey -> TipSet * error.

Local Abbreviation loop :=
  (lsLoop Cid Address TipSetKey TipSet Block UndefCid UndefAddress BlockCid
     Miner Height MinTimestamp Blocks timeFormat ChainGetTipSet).
Local Abbreviation run :=
  (chainLsCmd_Run Cid Address TipSetKey TipSet Block UndefCid UndefAddress
     BlockCid Miner Height MinTimestamp Blocks Key timeFormat ChainHead
     ChainGetTipSetByHeight ChainList ChainGetTipSet).
Local Abbreviation entry :=
  (lsEntry Cid Address TipSet Block BlockCid Miner Height MinTimestamp Blocks
     timeFormat).
Local Abbreviation start :=
  (lsStart TipSetKey TipSet Key ChainHead ChainGetTipSetByHeight).

Local Abbreviation listed := (ChainCmds.listed TipSetKey TipSet Height ChainGetTipSet).

Lemma lsLoop_ok (keys : list TipSetKey) :
  forall (res out : list (ChainLsResult Cid Address)),
    loop keys res = (out, None) ->
    exists tps, Forall2 listed keys tps /\ out = (res ++ map entry tps)%list.
Proof using Type.
  induction keys as [|key rest IH]; intros res out Hrun; cbn [lsLoop] in Hrun.
  - injection Hrun as <-. exists []. split; [constructor|]. now rewrite app_nil_r.
  - destruct (ChainGetTipSet key) as [tp [e|]] eqn:Htp; [discriminate|].
    destruct (Height tp) as [h [e|]] eqn:Hh; [discriminate|].
    destruct (IH _ _ Hrun) as (tps & Hall & ->).
    exists (tp :: tps). split.
    + constructor; [|exact Hall]. split; [exact Htp|]. now rewrite Hh.
    + rewrite <- app_assoc. cbn [map app]. do 2 f_equal.
      unfold lsEntry, blockResults. rewrite Hh, rangeFill_map. reflexivity.
Qed.

Lemma lsLoop_err (keys : list TipSetKey) :
  forall (res out : list (ChainLsResult Cid Address)) (e : string),
    loop keys res = (out, Some e) ->
    exists key, In key keys
                /\ (snd (ChainGetTipSet key) = Some e
                    \/ snd (Height (fst (ChainGetTipSet key))) = Some e).
Proof using Type.
  induction keys as [|key rest IH]; intros res out e Hrun; cbn [lsLoop] in Hrun.
  - discriminate.
  - destruct (ChainGetTipSet key) as [tp [e1|]] eqn:Htp.
    { injection Hrun as _ <-. exists key. rewrite Htp. split; [now left|now left]. }
    destruct (Height tp) as [h [e2|]] eqn:Hh.
    { injection Hrun as _ <-. exists key. rewrite Htp. cbn [fst]. rewrite Hh.
      split; [now left|now right]. }
    destruct (IH _ _ _ Hrun) as (k & Hin & Hk).
    exists k. split; [now right|exact Hk].
Qed.

(** X10. Whenever [chainLsCmd] emits a listing, the count option is a
    [uint] of at least one, the head and the start tip-set loaded, and the
    listing has exactly one entry per key returned by [ChainList] for the
    start tip-set, in that order, each with the height, the formatted
    minimum timestamp and the CID and miner of every block of the tip-set
    of that key; the error returned is the one of [re.Emit]. *)
Theorem chainLs_emits_one_entry_per_key
    (Options : gmap string OptionValue)
    (Emit : list (ChainLsResult Cid Address) -> error)
    (res : list (ChainLsResult Cid Address)) (e : error) :
  run Options Emit = (Some res, e) ->
  1 <= fst (assertUint (Options !! "count"))
  /\ snd ChainHead = None
  /\ snd (start Options) = None
  /\ (exists keys tps,
        ChainList (Key (fst (start Options)))
          (toInt64 (fst (assertUint (Options !! "count")))) = (keys, None)
        /\ Forall2 listed keys tps
        /\ res = map entry tps)
  /\ e = Emit res.
Proof using Type.
  unfold chainLsCmd_Run, lsStart.
  destruct (assertUint (Options !! "count")) as [count okc]. cbn [fst].
  destruct (Z.ltb_spec count 1) as [Hlt|Hge]; [discriminate|].
  destruct (assertInt64 (Options !! "height")) as [height okh]. cbn [fst].
  destruct ChainHead as [head [e1|]]; [discriminate|]. cbn [fst snd].
  destruct (if Z.leb 0 height then ChainGetTipSetByHeight height (Key head)
            else (head, None)) as [startTs [e2|]] eqn:Hstart; [discriminate|].
  cbn [fst snd].
  destruct (ChainList (Key startTs) (toInt64 count)) as [keys [e3|]] eqn:Hlist;
    [discriminate|].
  destruct (loop keys []) as [out [e4|]] eqn:Hloop; [discriminate|].
  destruct (lsLoop_ok _ _ _ Hloop) as (tps & Hall & ->). cbn [app].
  intros Hrun.
  assert (res = map entry tps /\ e = Emit (map entry tps)) as [-> ->].
  { destruct (Emit (map entry tps)) as [e5|]; injection Hrun as <- <-; now split. }
  split; [exact Hge|]. split; [reflexivity|]. split; [reflexivity|].
  split; [|reflexivity]. exists keys, tps. now repeat split.
Qed.

(** X11. [chainLsCmd] returns without an error and without emitting
    anything exactly when the count option is absent, is not a [uint] or is
    zero; in every other case it returns an error or emits, and whenever it
    emits, the error it returns is the one of [re.Emit]. *)
Theorem chainLs_silent_iff_no_count
    (Options : gmap string OptionValue)
    (Emit : list (ChainLsResult Cid Address) -> error) :
  (run Options Emit = (None, None)
   <-> fst (assertUint (Options !! "count")) < 1)
  /\ (forall res, fst (run Options Emit) = Some res ->
                  snd (run Options Emit) = Emit res).
Proof using Type.
  unfold chainLsCmd_Run.
  destruct (assertUint (Options !! "count")) as [count okc]. cbn [fst].
  destruct (Z.ltb_spec count 1) as [Hlt|Hge].
  { split; [now split|]. discriminate. }
  destruct (assertInt64 (Options !! "height")) as [height okh].
  destruct ChainHead as [head [e1|]].
  { split; [split; [discriminate|lia]|discriminate]. }
  destruct (if Z.leb 0 height then ChainGetTipSetByHeight height (Key head)
            else (head, None)) as [startTs [e2|]].
  { split; [split; [discriminate|lia]|discriminate]. }
  destruct (ChainList (Key startTs) (toInt64 count)) as [keys [e3|]].
  { split; [split; [discriminate|lia]|discriminate]. }
  destruct (loop keys []) as [out [e4|]].
  { split; [split; [discriminate|lia]|discriminate]. }
  destruct (Emit out) as [e5|] eqn:Hemit; cbn [fst snd].
  - split; [split; [discriminate|lia]|]. now intros res [= <-].
  - split; [split; [discriminate|lia]|]. now intros res [= <-].
Qed.

End Ls.

Section ExportCmd.

Variables Cid TipSetKey : Type.
Variable cidDecode : string -> Cid * error.
Variable NewTipSetKey : list Cid -> TipSetKey.
Variable createErr : gmap string (list Byte.byte) -> string -> error.
Variable ChainExport : TipSetKey -> list Byte.byte * error.

Local Abbreviation exportRun :=
  (chainExportCmd_Run Cid TipSetKey cidDecode NewTipSetKey createErr ChainExport).

(** X13. When the file of [chainExportCmd] can be created, the command
    leaves every other file alone and replaces what the file held: with
    nothing when one of the CID arguments does not parse (the error is the
    parse error and nothing is exported), otherwise with what [ChainExport]
    wrote for the key of the parsed CIDs, and the error is [ChainExport]'s.
    When the file cannot be created, no file changes. *)
Theorem chainExport_replaces_the_file
    (file : string) (cids : list string) (fs : gmap string (list Byte.byte)) :
  (createErr fs file = None ->
   exists fs' e,
     exportRun (file :: cids) fs = Some (fs', e)
     /\ (forall other, other <> file -> fs' !! other = fs !! other)
     /\ (snd (Cmd.cidsFromSlice cidDecode cids) <> None ->
         fs' !! file = Some []
         /\ e = snd (Cmd.cidsFromSlice cidDecode cids))
     /\ (snd (Cmd.cidsFromSlice cidDecode cids) = None ->
         fs' !! file
         = Some (fst (ChainExport
                        (NewTipSetKey (fst (Cmd.cidsFromSlice cidDecode cids)))))
         /\ e = snd (ChainExport
                       (NewTipSetKey (fst (Cmd.cidsFromSlice cidDecode cids))))))
  /\ (forall err, createErr fs file = Some err ->
                  exportRun (file :: cids) fs = Some (fs, Some err)).
Proof using Type.
  unfold chainExportCmd_Run, osCreate. split.
  - intros ->.
    destruct (Cmd.cidsFromSlice cidDecode cids) as [expCids [e1|]]; cbn [fst snd].
    + exists (<[file := []]> fs), (Some e1). split; [reflexivity|].
      split; [|split].
      * intros other Hne. now rewrite lookup_insert_ne.
      * intros _. split; [apply lookup_insert_eq|reflexivity].
      * discriminate.
    + destruct (ChainExport (NewTipSetKey expCids)) as [written e2] eqn:Hexp.
      exists (fileWrite file written (<[file := []]> fs)), e2.
      split; [now destruct e2|]. split; [|split].
      * intros other Hne. unfold fileWrite.
        now rewrite lookup_alter_ne, lookup_insert_ne.
      * intros Hne. now destruct Hne.
      * intros _. unfold fileWrite.
        rewrite lookup_alter_eq, lookup_insert_eq. now split.
  - intros err ->. reflexivity.
Qed.

End ExportCmd.

Section GetBlock.

Variables Cid Block UnsignedMessage SignedMessage MessageReceipt Message : Type.
Variable UndefCid : Cid.
Variable cidDecode : string -> Cid * error.
Variable MessageCid : Message -> Cid.
Variable ChainGetBlock : Cid -> option Block * error.
Variable ChainGetBlockMessages :
  Cid -> option (BlockMessages UnsignedMessage SignedMessage) * error.
Variable ChainGetParentMessages : Cid -> list Message * error.
Variable marshalBlock : option Block -> string * error.
Variable marshalCBlock :
  CBlock Cid Block UnsignedMessage SignedMessage MessageReceipt -> string * error.

Local Abbreviation getBlock receipts :=
  (chainGetBlockCmd_Run Cid Block UnsignedMessage SignedMessage MessageReceipt
     Message UndefCid cidDecode MessageCid ChainGetBlock ChainGetBlockMessages
     ChainGetParentMessages receipts marshalBlock marshalCBlock).

(** X12. [apiMsgCids] returns the CID of every message, in the order of
    the messages: no slot of the slice it makes keeps the zero CID it
    was made with. *)
Theorem apiMsgCids_is_the_cids_in_order (input : list Message) :
  apiMsgCids Cid Message UndefCid MessageCid input = map MessageCid input
  /\ length (apiMsgCids Cid Message UndefCid MessageCid input) = length input.
Proof using Type.
  unfold apiMsgCids. rewrite rangeFill_map. split; [reflexivity|].
  apply length_map.
Qed.

(** X14. [chainGetBlockCmd] prints the raw block header whenever the
    [raw] option is present as a boolean, whatever its value: with
    [raw=false] it does what it does with [raw=true], and when the block
    loads and marshals it emits the marshalled header alone, without
    loading messages or receipts. *)
Theorem chainGetBlock_raw_value_is_ignored
    (ChainGetParentReceipts : Cid -> list MessageReceipt * error)
    (Arguments : list string) (Options : gmap string OptionValue)
    (Emit : string -> error) :
  getBlock ChainGetParentReceipts Arguments (<[ "raw" := OptBool false ]> Options) Emit
  = getBlock ChainGetParentReceipts Arguments (<[ "raw" := OptBool true ]> Options) Emit
  /\ forall (b : bool) (arg : string) (rest : list string) (bcid : Cid)
            (blk : option Block) (out : string),
       Arguments = arg :: rest ->
       cidDecode arg = (bcid, None) ->
       ChainGetBlock bcid = (blk, None) ->
       marshalBlock blk = (out, None) ->
       getBlock ChainGetParentReceipts Arguments
         (<[ "raw" := OptBool b ]> Options) Emit
       = Some (Some out, Emit out, []).
Proof using Type.
  unfold chainGetBlockCmd_Run. split.
  - now rewrite !lookup_insert_eq.
  - intros b arg rest bcid blk out -> Hc Hb Hm.
    now rewrite Hc, Hb, lookup_insert_eq, Hm.
Qed.

(** X15. A failure of [ChainGetParentReceipts] never fails
    [chainGetBlockCmd] and shows in the log only. Two nodes whose receipts
    calls return the same receipts, with whatever errors, make the command
    emit the same buffer and return the same error. What the command logs
    is nothing or the one error of the receipts call for the decoded CID;
    and when the command gets as far as the receipts call and that call
    fails, the command still returns, with that error as its log. *)
Theorem chainGetBlock_receipts_error_only_logged
    (receipts1 receipts2 : Cid -> list MessageReceipt * error)
    (Arguments : list string) (Options : gmap string OptionValue)
    (Emit : string -> error) :
  ((forall bcid, fst (receipts1 bcid) = fst (receipts2 bcid)) ->
   fst <$> getBlock receipts1 Arguments Options Emit
   = fst <$> getBlock receipts2 Arguments Options Emit)
  /\ (forall out e logged,
        chainGetBlockCmd_Run Cid Block UnsignedMessage SignedMessage
          MessageReceipt Message UndefCid cidDecode MessageCid ChainGetBlock
          ChainGetBlockMessages ChainGetParentMessages receipts1 marshalBlock
          marshalCBlock Arguments Options Emit
        = Some (out, e, logged) ->
        logged = []
        \/ exists arg rest bcid msg,
             Arguments = arg :: rest
             /\ cidDecode arg = (bcid, None)
             /\ snd (receipts1 bcid) = Some msg
             /\ logged = [msg])
  /\ (forall arg rest bcid blk msgs pmsgs msg,
        Arguments = arg :: rest ->
        cidDecode arg = (bcid, None) ->
        ChainGetBlock bcid = (Some blk, None) ->
        snd (assertBool (Options !! "raw")) = false ->
        ChainGetBlockMessages bcid = (Some msgs, None) ->
        ChainGetParentMessages bcid = (pmsgs, None) ->
        snd (receipts1 bcid) = Some msg ->
        exists out e,
          getBlock receipts1 Arguments Options Emit = Some (out, e, [msg])).
Proof using Type.
  unfold chainGetBlockCmd_Run. split; [|split].
  - intros Hsame.
    destruct Arguments as [|arg0 rest]; [reflexivity|].
    destruct (cidDecode arg0) as [bcid [e|]]; [reflexivity|].
    destruct (ChainGetBlock bcid) as [blk [e|]]; [reflexivity|].
    destruct (snd (assertBool (Options !! "raw"))); [reflexivity|].
    destruct (ChainGetBlockMessages bcid) as [msgs [e|]]; [reflexivity|].
    destruct (ChainGetParentMessages bcid) as [pmsgs [e|]]; [reflexivity|].
    specialize (Hsame bcid).
    destruct (receipts1 bcid) as [r1 e1], (receipts2 bcid) as [r2 e2].
    cbn [fst] in Hsame. subst r2.
    destruct blk as [blk|]; [|reflexivity].
    destruct msgs as [msgs|]; [|reflexivity].
    now destruct (marshalCBlock _) as [out [e|]].
  - intros out e logged.
    destruct Arguments as [|arg0 rest]; [discriminate|].
    destruct (cidDecode arg0) as [bcid [e0|]] eqn:Hdec; [intros [= _ _ <-]; now left|].
    destruct (ChainGetBlock bcid) as [blk [e1|]]; [intros [= _ _ <-]; now left|].
    destruct (snd (assertBool (Options !! "raw"))).
    { destruct (marshalBlock blk) as [o [e2|]]; intros [= _ _ <-]; now left. }
    destruct (ChainGetBlockMessages bcid) as [msgs [e2|]];
      [intros [= _ _ <-]; now left|].
    destruct (ChainGetParentMessages bcid) as [pmsgs [e3|]];
      [intros [= _ _ <-]; now left|].
    destruct (receipts1 bcid) as [recpts [msg|]] eqn:Hr.
    + destruct blk as [blk|]; [|discriminate].
      destruct msgs as [msgs|]; [|discriminate].
      destruct (marshalCBlock _) as [o [e4|]]; intros [= _ _ <-];
        right; exists arg0, rest, bcid, msg; now rewrite Hr.
    + destruct blk as [blk|]; [|discriminate].
      destruct msgs as [msgs|]; [|discriminate].
      destruct (marshalCBlock _) as [o [e4|]]; intros [= _ _ <-]; now left.
  - intros arg rest bcid blk msgs pmsgs msg -> Hdec Hblk Hraw Hmsgs Hpmsgs Hr.
    rewrite Hdec, Hblk, Hraw, Hmsgs, Hpmsgs.
    destruct (receipts1 bcid) as [recpts e1]. cbn [snd] in Hr. subst e1.
    destruct (marshalCBlock _) as [o [e4|]]; eauto.
Qed.

End GetBlock.

Import ChainExamples.

Lemma chainLs_emits_one_entry_per_key_witness :
  exLsRun 3 exLsOptions (fun _ => None) = (Some [exLsEntry 3; exLsEntry 2], None)
  /\ 1 <= fst (assertUint (exLsOptions !! "count")).
Proof.
  split; [reflexivity|].
  exact (proj1 (chainLs_emits_one_entry_per_key string string Z Z (string * string)
           "" "" fst snd (fun h => (h, None)) (fun h => 1600000000 + 30 * h)
           exBlocks (fun h => h) Itoa (3, None) (fun h key => (h, None))
           exChainList (fun key => (key, None)) exLsOptions (fun _ => None)
           [exLsEntry 3; exLsEntry 2] None eq_refl)).
Defined.

Lemma chainExport_replaces_the_file_witness :
  exists fs' e,
    exExportRun ["chain.car"; "bafy1"; ""] exFs = Some (fs', e)
    /\ fs' !! "chain.car" = Some []
    /\ e = Some "invalid cid".
Proof.
  destruct (proj1 (chainExport_replaces_the_file string (list string)
                     Examples.exDecode (fun cids => cids) (fun fs name => None)
                     (fun key => ([Byte.xff], None))
                     "chain.car" ["bafy1"; ""] exFs) eq_refl)
    as (fs' & e & Hrun & _ & Hbad & _).
  exists fs', e. split; [exact Hrun|]. apply Hbad. discriminate.
Defined.

Lemma chainGetBlock_raw_value_is_ignored_witness :
  exGetBlock (fun _ => ([], None)) ["bafy1"] {[ "raw" := OptBool false ]}
  = Some (Some "block bafy1", None, []).
Proof.
  exact (proj2 (chainGetBlock_raw_value_is_ignored string string string string Z
                  string "" Examples.exDecode (fun m => m)
                  (fun c => (Some ("block " ++ c), None))
                  (fun c => (Some (mkBlockMessages string string [] []), None))
                  (fun c => ([], None))
                  (fun blk => (match blk with Some b => b | None => "null" end, None))
                  (fun cblock => (CBlock_Block _ _ _ _ _ cblock ++ " and messages", None))
                  (fun _ => ([], None)) ["bafy1"] ∅ (fun _ => None))
           false "bafy1" [] "bafy1" (Some "block bafy1") "block bafy1"
           eq_refl eq_refl eq_refl eq_refl).
Defined.

Lemma chainGetBlock_receipts_error_only_logged_witness :
  fst <$> exGetBlock (fun _ => ([], Some "no receipts")) ["bafy1"] ∅
  = fst <$> exGetBlock (fun _ => ([], None)) ["bafy1"] ∅
  /\ exists out e,
       exGetBlock (fun _ => ([], Some "no receipts")) ["bafy1"] ∅
       = Some (out, e, ["no receipts"]).
Proof.
  pose proof (chainGetBlock_receipts_error_only_logged string string string
                string Z string "" Examples.exDecode (fun m => m)
                (fun c => (Some ("block " ++ c), None))
                (fun c => (Some (mkBlockMessages string string [] []), None))
                (fun c => ([], None))
                (fun blk => (match blk with Some b => b | None => "null" end, None))
                (fun cblock => (CBlock_Block _ _ _ _ _ cblock ++ " and messages", None))
                (fun _ => ([], Some "no receipts")) (fun _ => ([], None))
                ["bafy1"] ∅ (fun _ => None)) as (Hsame & _ & Hlogged).
  split; [exact (Hsame (fun _ => eq_refl))|].
  exact (Hlogged "bafy1" [] "bafy1" "block bafy1"
           (mkBlockMessages string string [] []) [] "no receipts"
           eq_refl eq_refl eq_refl eq_refl eq_refl eq_refl eq_refl).
Defined.

End ChainCmdsProps.

(** ** [MinerStateAPI]: the other state queries *)

Module MinerStateOpsProps.

Import Go MinerState MinerStateOps.

Section Power.

Variables TipSetKey TipSet Cid Blockstore StateTree Actor Address : Type.
Variables PowerState MinerActorState : Type.
Context `{EqDecision Address}.
Variable Undef : Address.
Variable IsEmpty : TipSetKey -> bool.
Variable TipSetKeyString : TipSetKey -> string.
Variable AddressString : Address -> string.
Variable GetHead : TipSetKey.
Variable GetTipSet : TipSetKey -> TipSet * error.
Variable GetTipSetState : TipSetKey -> StateTree * error.
Variable Store : Blockstore.
Variable LoadState : Blockstore -> Cid -> StateTree * error.
Variable ParentStateRootAt0 : TipSet -> Cid.
Variable EnsureHeight : TipSet -> Z.
Variable GetActor : StateTree -> Address -> Actor * bool * error.
Variable LookupID : StateTree -> Address -> Address * error.
Variable powerAddress : Address.
Variable powerLoad : Blockstore -> Actor -> PowerState * error.
Variable TotalPower : PowerState -> Claim * error.
Variable MinerPowerOf : PowerState -> Address -> Claim * bool * error.
Variable MinerNominalPowerMeetsConsensusMinimum :
  PowerState -> Address -> bool * error.
Variable ListAllMiners : PowerState -> list Address * error.
Variable Balance : Actor -> BigInt.
Variable minerLoad : Blockstore -> Actor -> MinerActorState * error.
Variable VestedFunds : MinerActorState -> Z -> BigInt * error.
Variable AvailableBalance : MinerActorState -> BigInt -> BigInt * error.

Local Abbreviation lookupID :=
  (StateLookupID TipSetKey StateTree Address Undef IsEmpty GetHead
     GetTipSetState LookupID).
Local Abbreviation listMiners :=
  (StateListMiners TipSetKey TipSet Cid Blockstore StateTree Actor Address
     PowerState IsEmpty TipSetKeyString AddressString GetHead GetTipSet Store
     LoadState ParentStateRootAt0 GetActor powerAddress powerLoad
     ListAllMiners).
Local Abbreviation power :=
  (getPower Cid Blockstore StateTree Actor Address PowerState Undef
     AddressString Store LoadState GetActor powerAddress powerLoad TotalPower
     MinerPowerOf MinerNominalPowerMeetsConsensusMinimum).
Local Abbreviation minerPower :=
  (StateMinerPower TipSetKey TipSet Cid Blockstore StateTree Actor Address
     PowerState Undef IsEmpty TipSetKeyString AddressString GetHead GetTipSet
     Store LoadState ParentStateRootAt0 GetActor powerAddress powerLoad
     TotalPower MinerPowerOf MinerNominalPowerMeetsConsensusMinimum).
Local Abbreviation availableBalance :=
  (StateMinerAvailableBalance TipSetKey TipSet Cid Blockstore StateTree Actor
     Address MinerActorState IsEmpty TipSetKeyString AddressString GetHead
     GetTipSet Store LoadState ParentStateRootAt0 EnsureHeight GetActor
     powerAddress Balance minerLoad VestedFunds AvailableBalance).
Local Abbreviation powerState :=
  (powerStateAt Cid Blockstore StateTree Actor Address PowerState Store
     LoadState GetActor powerAddress powerLoad).

(** X16. For [StateLookupID], [StateListMiners], [StateMinerPower] and
    [StateMinerAvailableBalance] an empty tip-set key stands for the head:
    each returns for it what it returns for the key of the head. *)
Theorem empty_key_means_head (addr : Address) (tsk : TipSetKey) :
  IsEmpty tsk = true ->
  StateLookupID TipSetKey StateTree Address Undef IsEmpty GetHead
    GetTipSetState LookupID addr tsk
  = lookupID addr GetHead
  /\ listMiners tsk = listMiners GetHead
  /\ minerPower addr tsk = minerPower addr GetHead
  /\ availableBalance addr tsk = availableBalance addr GetHead.
Proof using Type.
  intros Hempty.
  unfold StateLookupID, StateListMiners, StateMinerPower,
    StateMinerAvailableBalance.
  rewrite Hempty. destruct (IsEmpty GetHead); now repeat split.
Qed.

(** What [getPower] returns when the power actor's state and the total
    power load. *)
Lemma getPower_loaded (st : Cid) (maddr : Address) :
  snd (LoadState Store st) = None ->
  snd (GetActor (fst (LoadState Store st)) powerAddress) = None ->
  snd (fst (GetActor (fst (LoadState Store st)) powerAddress)) = true ->
  snd (powerLoad Store
         (fst (fst (GetActor (fst (LoadState Store st)) powerAddress)))) = None ->
  snd (TotalPower (powerState st)) = None ->
  power st maddr
  = if negb (bool_decide (maddr = Undef)) then
      match MinerPowerOf (powerState st) maddr with
      | (mpow, found, err) =>
          if missing found err then (zeroClaim, zeroClaim, false, err)
          else
            match MinerNominalPowerMeetsConsensusMinimum (powerState st) maddr with
            | (_, Some err) => (zeroClaim, zeroClaim, false, Some err)
            | (minpow, None) =>
                (mpow, fst (TotalPower (powerState st)), minpow, None)
            end
      end
    else (zeroClaim, fst (TotalPower (powerState st)), false, None).
Proof using Type.
  unfold getPower, powerStateAt.
  destruct (LoadState Store st) as [state e1]. cbn [fst snd]. intros ->.
  destruct (GetActor state powerAddress) as [[act found] e2]. cbn [fst snd].
  intros -> ->. cbn [negb].
  destruct (powerLoad Store act) as [pas e3]. cbn [fst snd]. intros ->.
  destruct (TotalPower pas) as [tpow e4]. cbn [fst snd]. intros ->.
  reflexivity.
Qed.

(** X17. Let the tip-set, its parent state, the power actor, its state
    and the total power load. Then [StateMinerPower] for a miner the power
    table does not know returns no error and a result whose miner power
    and total power are both the zero claim, the network's total being
    dropped; for the undefined address it returns the zero claim as miner
    power beside the network's total, without asking the power table. *)
Theorem StateMinerPower_unknown_miner_is_all_zero
    (addr : Address) (tsk : TipSetKey) :
  let ts := fst (GetTipSet (if IsEmpty tsk then GetHead else tsk)) in
  let st := ParentStateRootAt0 ts in
  snd (GetTipSet (if IsEmpty tsk then GetHead else tsk)) = None ->
  snd (LoadState Store st) = None ->
  snd (GetActor (fst (LoadState Store st)) powerAddress) = None ->
  snd (fst (GetActor (fst (LoadState Store st)) powerAddress)) = true ->
  snd (powerLoad Store
         (fst (fst (GetActor (fst (LoadState Store st)) powerAddress)))) = None ->
  snd (TotalPower (powerState st)) = None ->
  (addr <> Undef ->
   snd (MinerPowerOf (powerState st) addr) = None ->
   snd (fst (MinerPowerOf (powerState st) addr)) = false ->
   minerPower addr tsk
   = (Some (mkMinerPower zeroClaim zeroClaim false), None))
  /\ (addr = Undef ->
      minerPower addr tsk
      = (Some (mkMinerPower zeroClaim (fst (TotalPower (powerState st))) false),
         None)).
Proof using Type.
  intros ts st Hts Hstate Hact Hfound Hload Htotal.
  pose proof (getPower_loaded st addr Hstate Hact Hfound Hload Htotal) as Hpow.
  unfold StateMinerPower. fold ts.
  destruct (GetTipSet (if IsEmpty tsk then GetHead else tsk)) as [ts' e].
  cbn [fst snd] in *. subst e. subst ts. fold st. rewrite Hpow. split.
  - intros Hne Herr Hnot.
    rewrite bool_decide_eq_false_2 by exact Hne. cbn [negb].
    destruct (MinerPowerOf (powerState st) addr) as [[mpow found] err].
    cbn [fst snd] in *. subst. reflexivity.
  - intros Heq. rewrite bool_decide_eq_true_2 by exact Heq. reflexivity.
Qed.

(** X18. Whenever [StateMinerAvailableBalance] returns an amount and no
    error, the amount is the sum of the available balance the miner actor's
    state computes from the actor's balance and of the funds vested at the
    tip-set's height; whenever it returns an error, the amount is the nil
    [big.Int]; and when the state has no actor under the miner's address,
    the error names the power actor's address, whatever the miner's is. *)
Theorem availableBalance_is_available_plus_vested
    (maddr : Address) (tsk : TipSetKey) :
  let ts := fst (GetTipSet (if IsEmpty tsk then GetHead else tsk)) in
  let st := fst (LoadState Store (ParentStateRootAt0 ts)) in
  let act := fst (fst (GetActor st maddr)) in
  let mas := fst (minerLoad Store act) in
  (forall v,
     StateMinerAvailableBalance TipSetKey TipSet Cid Blockstore StateTree Actor
       Address MinerActorState IsEmpty TipSetKeyString AddressString GetHead
       GetTipSet Store LoadState ParentStateRootAt0 EnsureHeight GetActor
       powerAddress Balance minerLoad VestedFunds AvailableBalance maddr tsk
     = Returns v None ->
     exists abal vested : Z,
       AvailableBalance mas (Balance act) = (Big abal, None)
       /\ VestedFunds mas (EnsureHeight ts) = (Big vested, None)
       /\ v = Big (abal + vested))
  /\ (forall v e, availableBalance maddr tsk = Returns v (Some e) -> v = BigNil)
  /\ (snd (GetTipSet (if IsEmpty tsk then GetHead else tsk)) = None ->
      snd (LoadState Store (ParentStateRootAt0 ts)) = None ->
      snd (GetActor st maddr) = None ->
      snd (fst (GetActor st maddr)) = false ->
      availableBalance maddr tsk
      = Returns BigNil
          (Some ("actor not found for " ++ AddressString powerAddress))).
Proof using Type.
  unfold StateMinerAvailableBalance. cbv zeta.
  destruct (GetTipSet (if IsEmpty tsk then GetHead else tsk)) as [ts [e1|]];
    cbn [fst snd].
  { split; [discriminate|]. split; [now intros v e [= <- _]|discriminate]. }
  destruct (LoadState Store (ParentStateRootAt0 ts)) as [st [e2|]]; cbn [fst snd].
  { split; [discriminate|]. split; [now intros v e [= <- _]|discriminate]. }
  destruct (GetActor st maddr) as [[act found] [e3|]]; cbn [fst snd].
  { split; [discriminate|]. split; [now intros v e [= <- _]|discriminate]. }
  destruct found; cbn [negb].
  2:{ split; [discriminate|]. split; [now intros v e [= <- _]|reflexivity]. }
  destruct (minerLoad Store act) as [mas [e4|]]; cbn [fst snd].
  { split; [discriminate|]. split; [now intros v e [= <- _]|discriminate]. }
  destruct (VestedFunds mas (EnsureHeight ts)) as [vested [e5|]].
  { split; [discriminate|]. split; [now intros v e [= <- _]|discriminate]. }
  destruct (AvailableBalance mas (Balance act)) as [abal [e6|]].
  { split; [discriminate|]. split; [now intros v e [= <- _]|discriminate]. }
  destruct abal as [|a], vested as [|b]; cbn [bigAdd];
    (split; [|split; discriminate]); try discriminate.
  intros v [= <-]. now exists a, b.
Qed.

End Power.

Section View.

Variables TipSetKey View Address : Type.
Variable SectorPreCommitOnChainInfo : Type.
Variables MarketState Proposals States DealProposal DealState : Type.
Variable TipSetKeyString : TipSetKey -> string.
Variable ParentStateView : TipSetKey -> View * error.
Variable PreCommitInfo :
  View -> Address -> Z -> option SectorPreCommitOnChainInfo * error.
Variable zeroSectorPreCommitOnChainInfo : SectorPreCommitOnChainInfo.
Variable LoadMarketState : View -> MarketState * error.
Variable ProposalsOf : MarketState -> Proposals * error.
Variable ProposalsGet : Proposals -> Z -> option DealProposal * bool * error.
Variable StatesOf : MarketState -> States * error.
Variable StatesGet : States -> Z -> option DealState * bool * error.
Variable EmptyDealState : DealState.

Local Abbreviation preCommitInfo :=
  (StateSectorPreCommitInfo TipSetKey View Address SectorPreCommitOnChainInfo
     TipSetKeyString ParentStateView PreCommitInfo
     zeroSectorPreCommitOnChainInfo).
Local Abbreviation storageDeal :=
  (StateMarketStorageDeal TipSetKey View MarketState Proposals States
     DealProposal DealState TipSetKeyString ParentStateView LoadMarketState
     ProposalsOf ProposalsGet StatesOf StatesGet EmptyDealState).

(** X19. [StateSectorPreCommitInfo] returns no error exactly when the
    view loads and holds a pre-commit info for the sector, which is then
    what it returns; in every other case, a missing info included, it
    returns an error beside the zero-valued info. *)
Theorem preCommitInfo_is_found_or_an_error
    (maddr : Address) (n : Z) (tsk : TipSetKey) :
  (snd (preCommitInfo maddr n tsk) = None
   <-> snd (ParentStateView tsk) = None
       /\ PreCommitInfo (fst (ParentStateView tsk)) maddr n
          = (Some (fst (preCommitInfo maddr n tsk)), None))
  /\ (snd (preCommitInfo maddr n tsk) <> None ->
      fst (preCommitInfo maddr n tsk) = zeroSectorPreCommitOnChainInfo)
  /\ (snd (ParentStateView tsk) = None ->
      PreCommitInfo (fst (ParentStateView tsk)) maddr n = (None, None) ->
      StateSectorPreCommitInfo TipSetKey View Address SectorPreCommitOnChainInfo
        TipSetKeyString ParentStateView PreCommitInfo
        zeroSectorPreCommitOnChainInfo maddr n tsk
      = (zeroSectorPreCommitOnChainInfo, Some "precommit info is not exists")).
Proof using Type.
  unfold StateSectorPreCommitInfo.
  destruct (ParentStateView tsk) as [view [e1|]]; cbn [fst snd].
  { split; [split; [discriminate|now intros [? _]]|]. split; [reflexivity|discriminate]. }
  destruct (PreCommitInfo view maddr n) as [[pci|] [e2|]]; cbn [fst snd].
  - split; [split; [discriminate|now intros [_ ?]]|]. split; [reflexivity|discriminate].
  - split; [now split|]. split; [intros Hne; now destruct Hne|discriminate].
  - split; [split; [discriminate|now intros [_ ?]]|]. split; [reflexivity|discriminate].
  - split; [split; [discriminate|now intros [_ ?]]|]. now split.
Qed.

(** X20. Whatever [StateMarketStorageDeal] returns, exactly one of the
    deal and the error is nil. A deal it returns carries the proposal
    stored under the deal ID, and the state stored under it or, when no
    state is stored, the empty deal state; a deal ID without a proposal is
    the error [deal <id> not found]. *)
Theorem storageDeal_is_the_proposal_with_its_state
    (dealID : Z) (tsk : TipSetKey)
    (v : option (MarketDeal DealProposal DealState)) (err : error) :
  storageDeal dealID tsk = Returns v err ->
  let mas := fst (LoadMarketState (fst (ParentStateView tsk))) in
  let proposal := ProposalsGet (fst (ProposalsOf mas)) dealID in
  let state := StatesGet (fst (StatesOf mas)) dealID in
  (v = None <-> err <> None)
  /\ (forall deal, v = Some deal ->
        proposal = (Some (MarketDeal_Proposal deal), true, None)
        /\ snd state = None
        /\ Some (MarketDeal_State deal)
           = if snd (fst state) then fst (fst state) else Some EmptyDealState)
  /\ (snd (ParentStateView tsk) = None ->
      snd (LoadMarketState (fst (ParentStateView tsk))) = None ->
      snd (ProposalsOf mas) = None ->
      snd proposal = None -> snd (fst proposal) = false ->
      err = Some ("deal " ++ Itoa dealID ++ " not found")).
Proof using Type.
  unfold StateMarketStorageDeal. cbv zeta.
  destruct (ParentStateView tsk) as [view [e1|]]; cbn [fst snd].
  { intros [= <- <-]. split; [now split|]. split; [discriminate|discriminate]. }
  destruct (LoadMarketState view) as [mas [e2|]]; cbn [fst snd].
  { intros [= <- <-]. split; [now split|]. split; [discriminate|discriminate]. }
  destruct (ProposalsOf mas) as [proposals [e3|]]; cbn [fst snd].
  { intros [= <- <-]. split; [now split|]. split; [discriminate|discriminate]. }
  destruct (ProposalsGet proposals dealID) as [[proposal found] [e4|]];
    cbn [fst snd].
  { intros [= <- <-]. split; [now split|]. split; [discriminate|discriminate]. }
  destruct found; cbn [negb].
  2:{ intros [= <- <-]. split; [now split|]. split; [discriminate|reflexivity]. }
  destruct (StatesOf mas) as [states [e5|]]; cbn [fst snd].
  { intros [= <- <-]. split; [now split|]. split; [discriminate|discriminate]. }
  destruct (StatesGet states dealID) as [[st sfound] [e6|]]; cbn [fst snd].
  { intros [= <- <-]. split; [now split|]. split; [discriminate|discriminate]. }
  destruct proposal as [proposal|]; [|discriminate].
  destruct sfound; cbn [negb].
  - destruct st as [st|]; [|discriminate].
    intros [= <- <-]. split; [split; [discriminate|intros Hne; now destruct Hne]|].
    split; [|discriminate]. intros deal [= <-]. now repeat split.
  - intros [= <- <-]. split; [split; [discriminate|intros Hne; now destruct Hne]|].
    split; [|discriminate]. intros deal [= <-]. now repeat split.
Qed.

End View.

Section Pledge.

Variables TipSetKey TipSet Cid Blockstore StateTree Actor Address : Type.
Variables MarketState PowerState RewardState : Type.
Variables SealProof DealIDs SectorSize DealWeight StoragePower FilterEstimate : Type.
Variable Store : Blockstore.
Variable GetTipSet : TipSetKey -> TipSet * error.
Variable GetTipSetStateRoot : TipSetKey -> Cid * error.
Variable LoadState : Blockstore -> Cid -> StateTree * error.
Variable GetCirculatingSupplyDetailed : Z -> StateTree -> CirculatingSupply * error.
Variable EnsureHeight : TipSet -> Z.
Variable ParentStateRootAt0 : TipSet -> Cid.
Variable Key : TipSet -> TipSetKey.
Variable TipSetKeyString : TipSetKey -> string.
Variable GetActor : StateTree -> Address -> Actor * bool * error.
Variables marketAddress powerAddress rewardAddress : Address.
Variable AddressString : Address -> string.
Variable SealProofSectorSize : SealProof -> SectorSize * error.
Variable marketLoad : Blockstore -> Actor -> MarketState * error.
Variable VerifyDealsForActivation :
  MarketState -> Address -> DealIDs -> Z -> Z -> DealWeight * DealWeight * error.
Variable QAPowerForWeight : SectorSize -> Z -> DealWeight -> DealWeight -> StoragePower.
Variable powerLoad : Blockstore -> Actor -> PowerState * error.
Variable TotalPowerSmoothed : PowerState -> FilterEstimate * error.
Variable TotalLocked : PowerState -> BigInt * error.
Variable rewardLoad : Blockstore -> Actor -> RewardState * error.
Variable InitialPledgeForPower :
  RewardState -> StoragePower -> BigInt -> FilterEstimate -> BigInt
  -> BigInt * error.

Local Abbreviation pledgeCollateral :=
  (StateMinerInitialPledgeCollateral TipSetKey TipSet Cid Blockstore StateTree
     Actor Address MarketState PowerState RewardState SealProof DealIDs
     SectorSize DealWeight StoragePower FilterEstimate
     Store GetTipSet GetTipSetStateRoot LoadState GetCirculatingSupplyDetailed
     EnsureHeight ParentStateRootAt0 Key TipSetKeyString GetActor
     marketAddress powerAddress rewardAddress AddressString
     SealProofSectorSize marketLoad VerifyDealsForActivation QAPowerForWeight
     powerLoad TotalPowerSmoothed TotalLocked rewardLoad InitialPledgeForPower).
Local Abbreviation rewardPledge :=
  (initialPledge TipSetKey TipSet Cid Blockstore StateTree
     Actor Address MarketState PowerState RewardState SealProof DealIDs
     SectorSize DealWeight StoragePower FilterEstimate
     Store GetTipSet GetTipSetStateRoot LoadState GetCirculatingSupplyDetailed
     EnsureHeight ParentStateRootAt0 Key GetActor
     marketAddress powerAddress rewardAddress
     SealProofSectorSize marketLoad VerifyDealsForActivation QAPowerForWeight
     powerLoad TotalPowerSmoothed TotalLocked rewardLoad InitialPledgeForPower).

Lemma scaled_by_pledge_factor (amount product quotient : BigInt) :
  bigMul amount initialPledgeNum = Some product ->
  bigDiv product initialPledgeDen = Some quotient ->
  exists p : Z, amount = Big p /\ quotient = Big (p * 110 / 100).
Proof using Type.
  unfold initialPledgeNum, initialPledgeDen, bigNewInt.
  destruct amount as [|p]; [discriminate|]. cbn [bigMul]. intros [= <-].
  unfold bigDiv. cbn [Z.eqb]. intros [= <-]. exists p. split; [reflexivity|].
  f_equal. change (Z.abs 100) with 100. apply Z.mul_1_l.
Qed.

(** X21. Whenever [StateMinerInitialPledgeCollateral] returns an amount and
    no error, the reward state's [InitialPledgeForPower], asked with the
    circulating supply of the tip-set, returned a number [p] and no error,
    and the amount is [p * 110 / 100] rounded down, which is never below a
    non-negative [p]. *)
Theorem initialPledgeCollateral_is_110_percent
    (maddr : Address) (pci : SectorPreCommitInfo SealProof DealIDs)
    (tsk : TipSetKey) (v : BigInt) :
  pledgeCollateral maddr pci tsk = Returns v None ->
  exists p : Z,
    rewardPledge maddr pci tsk = (Big p, None)
    /\ v = Big (p * 110 / 100)
    /\ (0 <= p -> p <= p * 110 / 100).
Proof using Type.
  unfold StateMinerInitialPledgeCollateral, initialPledge. cbv zeta.
  repeat match goal with
         | |- context [match ?x with _ => _ end] =>
             destruct x eqn:?; cbn [fst snd]; try discriminate
         end.
  intros [= ->].
  match goal with
  | Hm : bigMul _ _ = Some _, Hd : bigDiv _ _ = Some _ |- _ =>
      destruct (scaled_by_pledge_factor _ _ _ Hm Hd) as (pledge & Hp & Hquot)
  end.
  exists pledge. rewrite Hp, Hquot. split; [reflexivity|]. split; [reflexivity|].
  intros Hpos. apply Z.div_le_lower_bound; lia.
Qed.

(** X22. Whenever [StateMinerInitialPledgeCollateral] returns an error, the
    amount beside it is the nil [big.Int] or zero, never a pledge. *)
Theorem initialPledgeCollateral_error_carries_no_amount
    (maddr : Address) (pci : SectorPreCommitInfo SealProof DealIDs)
    (tsk : TipSetKey) (v : BigInt) (e : string) :
  pledgeCollateral maddr pci tsk = Returns v (Some e) ->
  v = BigNil \/ v = Big 0.
Proof using Type.
  unfold StateMinerInitialPledgeCollateral. cbv zeta.
  repeat match goal with
         | |- context [match ?x with _ => _ end] =>
             destruct x eqn:?; cbn [fst snd]; try discriminate
         end;
    intros [= <- _]; auto.
Qed.

End Pledge.

Import MinerExamples.

Lemma empty_key_means_head_witness :
  exStateMinerPower 7 0 = exStateMinerPower 7 9
  /\ exStateMinerAvailableBalance 7 0 = exStateMinerAvailableBalance 7 9.
Proof.
  pose proof (empty_key_means_head Z Z Z unit Z Z Z unit Z (-1) exIsEmpty Itoa
                Itoa 9 (fun tsk => (tsk, None)) (fun tsk => (tsk, None)) tt
                (fun _ root => (root, None)) (fun ts => ts) (fun ts => ts)
                exGetActor (fun _ addr => (addr, None)) 4
                (fun _ _ => (tt, None)) exTotalPower exMinerPowerOf
                (fun _ _ => (true, None)) (fun _ => ([], None))
                (fun act => Big act) (fun _ act => (act, None))
                (fun mas height => (Big (3 * height), None))
                (fun mas balance => (balance, None)) 7 0 eq_refl)
    as (_ & _ & Hpower & Hbalance).
  split; [exact Hpower|exact Hbalance].
Defined.

Lemma StateMinerPower_unknown_miner_is_all_zero_witness :
  exStateMinerPower 5 0 = (Some (mkMinerPower zeroClaim zeroClaim false), None).
Proof.
  refine (proj1 (StateMinerPower_unknown_miner_is_all_zero Z Z Z unit Z Z Z unit
                   (-1) exIsEmpty Itoa Itoa 9 (fun tsk => (tsk, None)) tt
                   (fun _ root => (root, None)) (fun ts => ts) exGetActor 4
                   (fun _ _ => (tt, None)) exTotalPower exMinerPowerOf
                   (fun _ _ => (true, None)) 5 0
                   eq_refl eq_refl eq_refl eq_refl eq_refl eq_refl)
                _ eq_refl eq_refl).
  discriminate.
Defined.

Lemma availableBalance_is_available_plus_vested_witness :
  exStateMinerAvailableBalance 7 0 = Returns (Big 127) None
  /\ exists abal vested : Z, Big 127 = Big (abal + vested).
Proof.
  split; [reflexivity|].
  destruct (proj1 (availableBalance_is_available_plus_vested Z Z Z unit Z Z Z Z
                     exIsEmpty Itoa Itoa 9 (fun tsk => (tsk, None)) tt
                     (fun _ root => (root, None)) (fun ts => ts) (fun ts => ts)
                     exGetActor 4 (fun act => Big act)
                     (fun _ act => (act, None))
                     (fun mas height => (Big (3 * height), None))
                     (fun mas balance => (balance, None)) 7 0)
              (Big 127) eq_refl) as (abal & vested & _ & _ & Hsum).
  now exists abal, vested.
Defined.

Lemma preCommitInfo_is_found_or_an_error_witness :
  exStateSectorPreCommitInfo 7 6 0 = (0, Some "precommit info is not exists").
Proof.
  exact (proj2 (proj2 (preCommitInfo_is_found_or_an_error Z unit Z Z Itoa
                         (fun _ => (tt, None)) exPreCommitInfo 0 7 6 0))
           eq_refl eq_refl).
Defined.

Lemma storageDeal_is_the_proposal_with_its_state_witness :
  exStateMarketStorageDeal 1 0
  = Returns (Some (mkMarketDeal "proposal 1" (-1))) None
  /\ exProposalsGet tt 1 = (Some "proposal 1", true, None).
Proof.
  split; [reflexivity|].
  exact (proj1 (proj1 (proj2 (storageDeal_is_the_proposal_with_its_state
                                Z unit unit unit unit string Z Itoa
                                (fun _ => (tt, None)) (fun _ => (tt, None))
                                (fun _ => (tt, None)) exProposalsGet
                                (fun _ => (tt, None)) exStatesGet (-1) 1 0
                                (Some (mkMarketDeal "proposal 1" (-1))) None
                                eq_refl))
                  (mkMarketDeal "proposal 1" (-1)) eq_refl)).
Defined.

Lemma initialPledgeCollateral_is_110_percent_witness :
  exPledgeAPI (Big 1001, None) tt (mkPCI unit unit tt tt 100) tt
  = Returns (Big 1101) None
  /\ exists p : Z, Big 1101 = Big (p * 110 / 100).
Proof.
  split; [reflexivity|].
  destruct (initialPledgeCollateral_is_110_percent
              unit unit unit unit unit unit unit unit unit unit unit unit unit
              unit unit unit
              tt (fun _ => (tt, None)) (fun _ => (tt, None))
              (fun _ _ => (tt, None)) (fun _ _ => (Examples.exSupply, None))
              (fun _ => 7) (fun _ => tt) (fun _ => tt) (fun _ => "{}")
              (fun _ _ => (tt, true, None)) tt tt tt (fun _ => "f01")
              (fun _ => (tt, None)) (fun _ _ => (tt, None))
              (fun _ _ _ _ _ => (tt, tt, None)) (fun _ _ _ _ => tt)
              (fun _ _ => (tt, None)) (fun _ => (tt, None))
              (fun _ => (Big 0, None)) (fun _ _ => (tt, None))
              (fun _ _ _ _ _ => (Big 1001, None))
              tt (mkPCI unit unit tt tt 100) tt (Big 1101) eq_refl)
    as (p & _ & Hp & _).
  now exists p.
Defined.

Lemma initialPledgeCollateral_error_carries_no_amount_witness :
  exPledgeAPI (Big 5, Some "overflow") tt (mkPCI unit unit tt tt 100) tt
  = Returns (Big 0) (Some "calculating initial pledge: overflow")
  /\ (Big 0 = BigNil \/ Big 0 = Big 0).
Proof.
  split; [reflexivity|].
  exact (initialPledgeCollateral_error_carries_no_amount
           unit unit unit unit unit unit unit unit unit unit unit unit unit
           unit unit unit
           tt (fun _ => (tt, None)) (fun _ => (tt, None))
           (fun _ _ => (tt, None)) (fun _ _ => (Examples.exSupply, None))
           (fun _ => 7) (fun _ => tt) (fun _ => tt) (fun _ => "{}")
           (fun _ _ => (tt, true, None)) tt tt tt (fun _ => "f01")
           (fun _ => (tt, None)) (fun _ _ => (tt, None))
           (fun _ _ _ _ _ => (tt, tt, None)) (fun _ _ _ _ => tt)
           (fun _ _ => (tt, None)) (fun _ => (tt, None))
           (fun _ => (Big 0, None)) (fun _ _ => (tt, None))
           (fun _ _ _ _ _ => (Big 5, Some "overflow"))
           tt (mkPCI unit unit tt tt 100) tt (Big 0)
           "calculating initial pledge: overflow" eq_refl).
Defined.

End MinerStateOpsProps.

(** ** [cmd/go-filecoin/miner.go]: [miner set-price] *)

Module MinerCmdsProps.

Import Go MinerCmds.

Section SetPrice.

Variables AttoFIL Address Storage : Type.
Variable NewAttoFILFromFILString : string -> AttoFIL * bool.
Variable SetString10 : string -> option Z.
Variable Uint64 : Z -> Z.
Variable ErrInvalidPrice : string.
Variable AddAsk : AttoFIL -> Z -> AttoFIL -> Storage -> Storage * error.
Variable MinerAddress : Address * error.

Local Abbreviation setPrice :=
  (minerSetPriceCmd_Run AttoFIL Address Storage NewAttoFILFromFILString
     SetString10 Uint64 ErrInvalidPrice AddAsk MinerAddress).

(** X23. [minerSetPriceCmd] never reads its third argument, the verified
    price: the ask it adds carries the storage price, parsed from the first
    argument, as its verified price too. And the ask is added before the
    miner address is looked up: when that lookup fails the command returns
    its error and emits nothing, yet the node keeps the new ask. *)
Theorem minerSetPrice_ignores_the_verified_price
    (arg0 arg1 : string) (rest rest' : list string)
    (Emit : MinerSetPriceResult AttoFIL Address -> error) (storage : Storage) :
  setPrice (arg0 :: arg1 :: rest) Emit storage
  = setPrice (arg0 :: arg1 :: rest') Emit storage
  /\ (forall storage' result e,
        setPrice (arg0 :: arg1 :: rest) Emit storage
        = Some (storage', Some result, e) ->
        exists expiry,
          SetString10 arg1 = Some expiry
          /\ NewAttoFILFromFILString arg0
             = (MinerSetPriceResult_Price result, true)
          /\ AddAsk (MinerSetPriceResult_Price result)
               (ChainCmds.toInt64 (Uint64 expiry))
               (MinerSetPriceResult_Price result) storage
             = (storage', None))
  /\ (forall price expiry storage' err,
        NewAttoFILFromFILString arg0 = (price, true) ->
        SetString10 arg1 = Some expiry ->
        AddAsk price (ChainCmds.toInt64 (Uint64 expiry)) price storage
        = (storage', None) ->
        snd MinerAddress = Some err ->
        setPrice (arg0 :: arg1 :: rest) Emit storage
        = Some (storage', None, Some err)).
Proof using Type.
  unfold minerSetPriceCmd_Run. cbn [lookup list_lookup].
  split; [reflexivity|]. split.
  - intros storage' result e.
    destruct (NewAttoFILFromFILString arg0) as [price ok].
    destruct ok; cbn [negb]; [|discriminate].
    destruct (SetString10 arg1) as [expiry|]; [|discriminate].
    destruct (AddAsk price _ price storage) as [st [err|]] eqn:Hask;
      [discriminate|].
    destruct MinerAddress as [minerAddr [err|]]; [discriminate|].
    intros [= <- <- _]. exists expiry. now repeat split.
  - intros price expiry storage' err -> -> -> Herr. cbn [negb].
    destruct MinerAddress as [minerAddr e]. cbn [snd] in Herr. now subst e.
Qed.

End SetPrice.

Lemma minerSetPrice_ignores_the_verified_price_witness :
  exSetPrice ("", Some "no miner address") ["xx"; "xxx"; "verified"] []
  = Some ([(2, 3, 2)], None, Some "no miner address").
Proof.
  exact (proj2 (proj2 (minerSetPrice_ignores_the_verified_price
                         Z string (list (Z * Z * Z)) exPrice
                         (fun s => if String.eqb s "" then None
                                   else Some (Z.of_nat (String.length s)))
                         (fun z => z) "invalid price"
                         (fun price expiry verified asks =>
                            ((price, expiry, verified) :: asks, None))
                         ("", Some "no miner address")
                         "xx" "xxx" ["verified"] [] (fun _ => None) []))
           2 3 [(2, 3, 2)] "no miner address" eq_refl eq_refl eq_refl eq_refl).
Defined.

End MinerCmdsProps.
